(** * Airbnb listings dashboard: a shallow embedding of
      [streamlit_airbnb_dashboard.py] and the properties of its loader,
      filter stage and chart builders.

    The script is a straight line of pandas, plotly and streamlit calls.
    The embedding keeps its structure:

    - a [DataFrame] is an index of row labels and a list of named [Series];
      a [Series] carries its dtype, as pandas does (the loader branches on
      it);
    - fallible calls return a [result]: the exceptions are those pandas
      raises ([KeyError] for an absent column label, [ValueError] for text
      that is no float literal, ...);
    - the script itself runs in a small monad that logs the streamlit calls
      and can halt ([st.stop()]) or be aborted by an exception.

    Numbers: the finite cell of a numeric column is a rational, beside the
    two infinities and NaN.  Text that [astype(float)] converts is rounded
    to binary64 as Python's [float] rounds it, to the nearest number with
    ties to the even significand and to an infinity beyond the largest;
    the two zeros are one value, as they are for every comparison in the
    script.  The sum inside a group mean is exact here, where pandas
    accumulates in binary64.  Text is a [string] of code points below 256.
    pandas 2.x is assumed ([str.replace] replaces literally, text columns
    have dtype [object]). *)

From Stdlib Require Import Ascii QArith Qcanon Qfield Qround Qabs Qpower Lqa.
From Stdlib Require String.
From stdpp Require Import base decidable option list numbers strings sorting.

Local Open Scope Z_scope.

(** ** Text *)

Module Text.

(** [str.isspace] on one code point below 256. *)
Definition is_space (c : ascii) : bool :=
  let n := N_of_ascii c in
  ((9 <=? n)%N && (n <=? 13)%N) || ((28 <=? n)%N && (n <=? 32)%N)
  || (n =? 133)%N || (n =? 160)%N.

Definition is_empty (s : string) : bool :=
  match s with EmptyString => true | String _ _ => false end.

Fixpoint lstrip (s : string) : string :=
  match s with
  | EmptyString => EmptyString
  | String c r => if is_space c then lstrip r else s
  end.

Fixpoint rstrip (s : string) : string :=
  match s with
  | EmptyString => EmptyString
  | String c r =>
      let r' := rstrip r in
      if is_space c && is_empty r' then EmptyString else String c r'
  end.

(** [str.strip()] *)
Definition strip (s : string) : string := rstrip (lstrip s).

(** [str.replace(old, new)] for a one-character [old], the only form the
    script uses ([' '], ['$'], [',']). *)
Fixpoint replace (old : ascii) (new : string) (s : string) : string :=
  match s with
  | EmptyString => EmptyString
  | String c r =>
      if Ascii.eqb c old then new +:+ replace old new r
      else String c (replace old new r)
  end.

(** [str.lower()] on the ASCII letters. *)
Definition lower_char (c : ascii) : ascii :=
  let n := N_of_ascii c in
  if (65 <=? n)%N && (n <=? 90)%N then ascii_of_N (n + 32) else c.

Fixpoint lower (s : string) : string :=
  match s with
  | EmptyString => EmptyString
  | String c r => String (lower_char c) (lower r)
  end.

End Text.

(** ** Floats *)

(** The value of a cell of a numeric column ([float64], or [int64] when no
    cell is blank).  pandas uses NaN as the missing-value marker of a float
    column, so [NaN] is also "missing". *)
Inductive float : Type :=
  | Fin (q : Qc)
  | PInf
  | NInf
  | NaN.

Global Instance float_eq_dec : EqDecision float.
Proof. solve_decision. Defined.

Module Float.

Definition of_Z (z : Z) : float := Fin (Q2Qc (inject_Z z)).

Definition is_nan (f : float) : bool :=
  match f with NaN => true | _ => false end.

Definition neg (f : float) : float :=
  match f with
  | Fin q => Fin (- q)%Qc
  | PInf => NInf
  | NInf => PInf
  | NaN => NaN
  end.

Definition add (a b : float) : float :=
  match a, b with
  | NaN, _ | _, NaN => NaN
  | PInf, NInf | NInf, PInf => NaN
  | PInf, _ | _, PInf => PInf
  | NInf, _ | _, NInf => NInf
  | Fin x, Fin y => Fin (x + y)%Qc
  end.

(** Division by a positive count, as the mean needs it. *)
Definition div_count (a : float) (n : nat) : float :=
  match a with
  | Fin x => Fin (x / Q2Qc (inject_Z (Z.of_nat n)))%Qc
  | other => other
  end.

(** *** Rounding to binary64

    The finite float64 numbers are [m * 2^e] with [|m| < 2^53] and
    [-1074 <= e <= 971].  [round] takes a rational to the nearest of them,
    to the one with the even significand when two are as near, and to an
    infinity from [2^1024 - 2^970] on. *)

Definition of_Q (q : Q) : float := Fin (Q2Qc (Qred q)).

(** [floor (log2 x)] for a positive [x]. *)
Definition ilog2 (x : Q) : Z :=
  let k := Z.log2 (Qnum x) - Z.log2 (Z.pos (Qden x)) in
  match (x ?= 2 ^ k)%Q with Lt => k - 1 | _ => k end.

(** The integer nearest to [x]; the even one of two. *)
Definition nearest_even (x : Q) : Z :=
  let f := Qfloor x in
  match (x - inject_Z f ?= 1 # 2)%Q with
  | Lt => f
  | Gt => f + 1
  | Eq => if Z.even f then f else f + 1
  end.

(** A positive [x]: its significand at the exponent of its binade (of the
    subnormal numbers when it is below them all), rounded. *)
Definition round_pos (x : Q) : float :=
  let e := Z.max (ilog2 x - 52) (-1074) in
  let r := (inject_Z (nearest_even (x / 2 ^ e)) * 2 ^ e)%Q in
  if Qle_bool (2 ^ 1024) r then PInf else of_Q r.

Definition round (q : Q) : float :=
  match (q ?= 0)%Q with
  | Eq => of_Z 0
  | Gt => round_pos q
  | Lt => neg (round_pos (- q))
  end.

(** *** [float(text)]

    Python's grammar for the argument of [float]: surrounding white space,
    an optional sign, then [inf], [infinity] or [nan] in any case, or a
    decimal number: digits with optional single underscores between them,
    an optional fraction, an optional exponent.  The number read is
    rounded to binary64. *)

(** The white space [float] strips: the white space of C and, past ASCII,
    the white space of Unicode (NEL and the no-break space, below 256).
    The separators U+001C to U+001F are white space for [str.strip] and
    [str.isspace], not here. *)
Definition is_space (c : ascii) : bool :=
  let n := N_of_ascii c in
  ((9 <=? n)%N && (n <=? 13)%N) || (n =? 32)%N || (n =? 133)%N || (n =? 160)%N.

Fixpoint lstrip (s : string) : string :=
  match s with
  | EmptyString => EmptyString
  | String c r => if is_space c then lstrip r else s
  end.

Fixpoint rstrip (s : string) : string :=
  match s with
  | EmptyString => EmptyString
  | String c r =>
      let r' := rstrip r in
      if is_space c && Text.is_empty r' then EmptyString else String c r'
  end.

Definition strip (s : string) : string := rstrip (lstrip s).

Definition digit_of (c : ascii) : option Z :=
  let n := N_of_ascii c in
  if (48 <=? n)%N && (n <=? 57)%N then Some (Z.of_N n - 48) else None.

(** The rest of a digit part, after a digit: [(["_"] digit)*]. *)
Fixpoint scan_more (s : string) : list Z * string :=
  match s with
  | EmptyString => ([], EmptyString)
  | String c r =>
      match digit_of c with
      | Some d => let '(ds, t) := scan_more r in (d :: ds, t)
      | None =>
          if Ascii.eqb c "_"%char then
            match r with
            | String c2 r2 =>
                match digit_of c2 with
                | Some d2 => let '(ds, t) := scan_more r2 in (d2 :: ds, t)
                | None => ([], s)
                end
            | EmptyString => ([], s)
            end
          else ([], s)
      end
  end.

(** A digit part: [digit (["_"] digit)*]; no digit read if the text does
    not start with one. *)
Definition scan_digitpart (s : string) : list Z * string :=
  match s with
  | String c r =>
      match digit_of c with
      | Some d => let '(ds, t) := scan_more r in (d :: ds, t)
      | None => ([], s)
      end
  | EmptyString => ([], s)
  end.

Definition digits_value (ds : list Z) : Z :=
  fold_left (fun acc d => 10 * acc + d) ds 0.

(** [m * 10^e] as a rational. *)
Definition scale10 (m e : Z) : Qc :=
  if 0 <=? e then Q2Qc (inject_Z (m * 10 ^ e))
  else Q2Qc (Qmake m (Z.to_pos (10 ^ (- e)))).

(** The exponent part, [("e" | "E") [sign] digitpart], or nothing. *)
Definition scan_exponent (s : string) : option Z :=
  match s with
  | EmptyString => Some 0
  | String c r =>
      if Ascii.eqb c "e"%char || Ascii.eqb c "E"%char then
        let '(sgn, r') :=
          match r with
          | String c2 r2 =>
              if Ascii.eqb c2 "-"%char then (-1, r2)
              else if Ascii.eqb c2 "+"%char then (1, r2)
              else (1, r)
          | EmptyString => (1, r)
          end in
        match scan_digitpart r' with
        | (d :: ds, EmptyString) => Some (sgn * digits_value (d :: ds))
        | _ => None
        end
      else None
  end.

(** [number [exponent]] with
    [number ::= [digitpart] "." digitpart | digitpart ["."]]. *)
Definition parse_number (s : string) : option float :=
  let '(ip, r1) := scan_digitpart s in
  let '(fp, r2) :=
    match r1 with
    | String c r =>
        if Ascii.eqb c "."%char then scan_digitpart r else ([], r1)
    | EmptyString => ([], r1)
    end in
  match ip ++ fp with
  | [] => None
  | ds =>
      match scan_exponent r2 with
      | Some e =>
          Some (round (scale10 (digits_value ds) (e - Z.of_nat (length fp))))
      | None => None
      end
  end.

Definition parse_unsigned (s : string) : option float :=
  let l := Text.lower s in
  if String.eqb l "inf" || String.eqb l "infinity" then Some PInf
  else if String.eqb l "nan" then Some NaN
  else parse_number s.

Definition of_string (s : string) : option float :=
  match strip s with
  | String c r =>
      if Ascii.eqb c "-"%char then neg <$> parse_unsigned r
      else if Ascii.eqb c "+"%char then parse_unsigned r
      else parse_unsigned (String c r)
  | EmptyString => None
  end.

End Float.

(** ** Exceptions *)

Inductive exn : Type :=
  | FileNotFoundError
  | KeyError (label : string)
  | ValueError (msg : string)
  | TypeError (msg : string)
  (** [df[label]] where [label] names several columns is a DataFrame, not a
      Series; every Series operation the script applies to it fails
      (AttributeError or ValueError, depending on the operation). *)
  | DuplicateLabel (label : string).

Inductive result (A : Type) : Type :=
  | Ok (a : A)
  | Raise (e : exn).
Arguments Ok {A} a.
Arguments Raise {A} e.

Global Instance result_ret : MRet result := fun A a => Ok a.
Global Instance result_bind : MBind result := fun A B f m =>
  match m with Ok a => f a | Raise e => Raise e end.
Global Instance result_fmap : FMap result := fun A B f m =>
  match m with Ok a => Ok (f a) | Raise e => Raise e end.

(** [for x in l: acc = f(acc, x)], stopping at the first exception. *)
Fixpoint for_each {A B : Type} (f : A -> B -> result A) (acc : A) (l : list B)
  : result A :=
  match l with
  | [] => Ok acc
  | x :: l' => acc' ← f acc x; for_each f acc' l'
  end.

(** [[f(x) for x in l]], stopping at the first exception. *)
Fixpoint map_result {A B : Type} (f : A -> result B) (l : list A)
  : result (list B) :=
  match l with
  | [] => Ok []
  | x :: l' => y ← f x; ys ← map_result f l'; Ok (y :: ys)
  end.

(** ** Series and data frames *)

(** One cell, as Python sees it.  The missing markers are [VNum NaN] (float
    and object columns) and [VNaT] (datetime columns). *)
Inductive value : Type :=
  | VStr (s : string)
  | VNum (f : float)
  | VBool (b : bool)
  | VTime (ns : Z)
  | VNaT.

Global Instance value_eq_dec : EqDecision value.
Proof. solve_decision. Defined.

(** [pd.isna] on one cell. *)
Definition isna (v : value) : bool :=
  match v with
  | VNum NaN | VNaT => true
  | _ => false
  end.

(** A column with its dtype.  [read_csv] infers one dtype per column: a
    column of numbers (blank fields allowed) is [float64] or [int64], both
    [FloatS] here; a column of true/false is [bool]; any other column is
    [object] and keeps its fields as text, a blank field being NaN.
    [datetime64] columns only come from [pd.to_datetime]. *)
Inductive Series : Type :=
  | FloatS (l : list float)
  | BoolS (l : list bool)
  | ObjectS (l : list (option string))
  | DatetimeS (l : list (option Z)).

Definition object_value (o : option string) : value :=
  match o with Some s => VStr s | None => VNum NaN end.

Definition datetime_value (o : option Z) : value :=
  match o with Some t => VTime t | None => VNaT end.

(** [series.values], cell by cell. *)
Definition values (s : Series) : list value :=
  match s with
  | FloatS l => VNum <$> l
  | BoolS l => VBool <$> l
  | ObjectS l => object_value <$> l
  | DatetimeS l => datetime_value <$> l
  end.

Definition is_object (s : Series) : bool :=
  match s with ObjectS _ => true | _ => false end.

Record DataFrame : Type := mkDataFrame {
  index : list nat;
  columns : list (string * Series)
}.

(** [len(df)] *)
Definition nrows (df : DataFrame) : nat := length (index df).

(** [df.empty]: some axis has length 0. *)
Definition empty (df : DataFrame) : bool :=
  bool_decide (index df = []) || bool_decide (columns df = []).

(** [df[label]], used as a Series. *)
Definition getitem (df : DataFrame) (label : string) : result Series :=
  match filter (fun c => c.1 = label) (columns df) with
  | [] => Raise (KeyError label)
  | [c] => Ok c.2
  | _ => Raise (DuplicateLabel label)
  end.

(** [df[label] = s]: the column is replaced in place, or appended when the
    label is new. *)
Fixpoint assign (label : string) (s : Series) (cols : list (string * Series))
  : list (string * Series) :=
  match cols with
  | [] => [(label, s)]
  | c :: cols' =>
      if decide (c.1 = label) then (label, s) :: cols'
      else c :: assign label s cols'
  end.

Definition setitem (df : DataFrame) (label : string) (s : Series) : DataFrame :=
  mkDataFrame (index df) (assign label s (columns df)).

(** [l[mask]]: the elements at the positions where the mask is true. *)
Fixpoint bool_index {A : Type} (mask : list bool) (l : list A) : list A :=
  match mask, l with
  | b :: mask', x :: l' =>
      if b then x :: bool_index mask' l' else bool_index mask' l'
  | _, _ => []
  end.

Definition series_mask (mask : list bool) (s : Series) : Series :=
  match s with
  | FloatS l => FloatS (bool_index mask l)
  | BoolS l => BoolS (bool_index mask l)
  | ObjectS l => ObjectS (bool_index mask l)
  | DatetimeS l => DatetimeS (bool_index mask l)
  end.

(** [df[mask]]: a new frame with the selected rows; labels are kept. *)
Definition frame_mask (df : DataFrame) (mask : list bool) : DataFrame :=
  mkDataFrame (bool_index mask (index df))
              (prod_map id (series_mask mask) <$> columns df).

(** [series.isin(selection)]; NaN matches NaN, as in pandas. *)
Definition isin (s : Series) (selection : list value) : list bool :=
  (fun v => bool_decide (v ∈ selection)) <$> values s.

(** Distinct elements in order of first appearance. *)
Fixpoint distinct {A : Type} `{EqDecision A} (l : list A) : list A :=
  match l with
  | [] => []
  | x :: l' => x :: filter (fun y => y <> x) (distinct l')
  end.

(** [series.unique()] *)
Definition unique (s : Series) : list value := distinct (values s).

(** ** The loader *)

Definition numeric_cols : list string :=
  ["price"; "service_fee"; "minimum_nights"; "number_of_reviews";
   "reviews_per_month"; "availability_365"].

(** [series.str.replace(old, new)] on an object column; missing cells stay
    missing. *)
Definition str_replace (old : ascii) (new : string) (l : list (option string))
  : list (option string) :=
  fmap (M := option) (Text.replace old new) <$> l.

(** One cell of [series.astype(float)] on an object column. *)
Definition cell_to_float (o : option string) : result float :=
  match o with
  | None => Ok NaN
  | Some s =>
      match Float.of_string s with
      | Some f => Ok f
      | None => Raise (ValueError ("could not convert string to float: " +:+ s))
      end
  end.

Definition astype_float (l : list (option string)) : result (list float) :=
  map_result cell_to_float l.

(** The text of a cell with ['$'] and [','] removed. *)
Definition strip_currency (s : string) : string :=
  Text.replace "," "" (Text.replace "$" "" s).

(** The body of the loop over [numeric_cols], on the column itself. *)
Definition coerce_numeric (s : Series) : result Series :=
  match s with
  | ObjectS l =>
      FloatS <$> astype_float (str_replace "," "" (str_replace "$" "" l))
  (* pd.to_numeric(_, errors='coerce') on a column that is not text *)
  | FloatS l => Ok (FloatS l)
  | BoolS l => Ok (BoolS l)
  | DatetimeS l =>
      Ok (FloatS ((fun o => Float.of_Z (default (- 2 ^ 63) o)) <$> l))
  end.

Definition coerce_column (df : DataFrame) (col : string) : result DataFrame :=
  s ← getitem df col;
  s' ← coerce_numeric s;
  Ok (setitem df col s').

(** [df.columns.str.strip().str.replace(' ', '_')] *)
Definition normalize_label (label : string) : string :=
  Text.replace " " "_" (Text.strip label).

Definition normalize_columns (df : DataFrame) : DataFrame :=
  mkDataFrame (index df) (prod_map normalize_label id <$> columns df).

(** The file at the path: absent, or a CSV that [pd.read_csv] parses into a
    frame. *)
Definition read_csv (file : option DataFrame) : result DataFrame :=
  match file with
  | Some df => Ok df
  | None => Raise FileNotFoundError
  end.

(** The rows of a frame: each row is its label with its cells by column
    ([None] where a column is too short to have the cell). *)
Definition row : Type := (nat * list (string * option value))%type.

Fixpoint rows_of (idx : list nat) (cols : list (string * list value))
  : list row :=
  match idx with
  | [] => []
  | i :: idx' =>
      (i, prod_map id head <$> cols) :: rows_of idx' (prod_map id tail <$> cols)
  end.

Definition rows (df : DataFrame) : list row :=
  rows_of (index df) (prod_map id values <$> columns df).

(** ** Currency-formatted text

    What "a cell holding currency-formatted text" and "its numeric value"
    mean in the statements about the loader: a dollar sign, groups of
    decimal digits separated by commas and an optional fraction after a
    point, read in positional notation; and what it is for a float to be
    the float64 number nearest to a value.  These definitions describe
    the input and the result; the loader does not use them. *)

Inductive digit : Type := D0 | D1 | D2 | D3 | D4 | D5 | D6 | D7 | D8 | D9.

Definition digit_char (d : digit) : ascii :=
  match d with
  | D0 => "0" | D1 => "1" | D2 => "2" | D3 => "3" | D4 => "4"
  | D5 => "5" | D6 => "6" | D7 => "7" | D8 => "8" | D9 => "9"
  end%char.

Definition digit_val (d : digit) : Z :=
  match d with
  | D0 => 0 | D1 => 1 | D2 => 2 | D3 => 3 | D4 => 4
  | D5 => 5 | D6 => 6 | D7 => 7 | D8 => 8 | D9 => 9
  end.

Fixpoint digits_text (ds : list digit) : string :=
  match ds with
  | [] => EmptyString
  | d :: ds' => String (digit_char d) (digits_text ds')
  end.

(** Positional notation: the first digit is the most significant. *)
Fixpoint number_of (ds : list digit) : Z :=
  match ds with
  | [] => 0
  | d :: ds' => digit_val d * 10 ^ Z.of_nat (length ds') + number_of ds'
  end.

Record amount : Type := mkAmount {
  groups : list (list digit);
  cents : option (list digit)
}.

Fixpoint groups_text (gs : list (list digit)) : string :=
  match gs with
  | [] => EmptyString
  | [g] => digits_text g
  | g :: gs' => digits_text g +:+ "," +:+ groups_text gs'
  end.

Definition currency_text (a : amount) : string :=
  "$" +:+ groups_text (groups a) +:+
  match cents a with
  | Some c => "." +:+ digits_text c
  | None => EmptyString
  end.

Definition currency_value (a : amount) : Q :=
  (inject_Z (number_of (concat (groups a)))
   + match cents a with
     | Some c => inject_Z (number_of c) / inject_Z (10 ^ Z.of_nat (length c))
     | None => 0
     end)%Q.

Definition has_digit (a : amount) : Prop :=
  concat (groups a) ++ default [] (cents a) <> [].

(** The finite float64 numbers. *)
Definition binary64 (q : Q) : Prop :=
  exists m e : Z,
    Z.abs m < 2 ^ 53 /\ -1074 <= e <= 971 /\ (q == inject_Z m * 2 ^ e)%Q.

(** [f] is the float64 value nearest to [v]: a float64 number with no
    other closer to [v], or an infinity when [v] is at least half a step
    beyond the largest of them. *)
Definition nearest (v : Q) (f : float) : Prop :=
  match f with
  | Fin r =>
      binary64 r
      /\ (Qabs v < 2 ^ 1024 - 2 ^ 970)%Q
      /\ forall r' : Q, binary64 r' -> (Qabs (v - r) <= Qabs (v - r'))%Q
  | PInf => (2 ^ 1024 - 2 ^ 970 <= v)%Q
  | NInf => (v <= - (2 ^ 1024 - 2 ^ 970))%Q
  | NaN => False
  end.

(** A currency cell and the float it stands for: the float64 value nearest
    to the amount; a missing cell stands for NaN. *)
Definition stands_for (cell : option amount) (f : float) : Prop :=
  match cell with
  | Some a => nearest (currency_value a) f
  | None => f = NaN
  end.

(** The same, without rounding: what "the exact numeric value" says. *)
Definition exactly (cell : option amount) (f : float) : Prop :=
  match cell with
  | Some a => exists q : Qc, f = Fin q /\ (this q == currency_value a)%Q
  | None => f = NaN
  end.

(** ** Aggregates *)

(** A frame as plotly receives it: named columns of cells. *)
Definition table : Type := list (string * list value).

Definition frame_table (df : DataFrame) : table :=
  prod_map id values <$> columns df.

(** The sort order of group keys.  Key columns are homogeneous, so only the
    order inside one kind of value matters; kinds are ranked to make the
    order total. *)
Definition float_leb (a b : float) : bool :=
  match a, b with
  | NInf, _ | _, NaN => true
  | Fin x, Fin y => bool_decide (x ≤ y)%Qc
  | Fin _, PInf | PInf, PInf => true
  | _, _ => false
  end.

Definition kind_rank (v : value) : nat :=
  match v with
  | VBool _ => 0 | VNum _ => 1 | VStr _ => 2 | VTime _ => 3 | VNaT => 4
  end.

Definition value_leb (a b : value) : bool :=
  match a, b with
  | VStr x, VStr y => String.leb x y
  | VNum x, VNum y => float_leb x y
  | VBool x, VBool y => implb x y
  | VTime x, VTime y => (x <=? y)%Z
  | _, _ => (kind_rank a <=? kind_rank b)%nat
  end.

Definition pair_leb (a b : value * value) : bool :=
  if decide (a.1 = b.1) then value_leb a.2 b.2 else value_leb a.1 b.1.

Definition value_le (a b : value) : Prop := value_leb a b = true.
Definition pair_le (a b : value * value) : Prop := pair_leb a b = true.
Definition more_frequent {A : Type} (a b : A * nat) : Prop := (b.2 ≤ a.2)%nat.

Global Instance value_le_dec : RelDecision value_le.
Proof. intros a b. unfold value_le. apply _. Defined.
Global Instance pair_le_dec : RelDecision pair_le.
Proof. intros a b. unfold pair_le. apply _. Defined.
Global Instance more_frequent_dec {A : Type} : RelDecision (@more_frequent A).
Proof. intros a b. unfold more_frequent. apply _. Defined.

(** The number of occurrences of [k]. *)
Definition occurrences {A : Type} `{EqDecision A} (k : A) (l : list A) : nat :=
  length (filter (fun x => x = k) l).

Definition count_value (n : nat) : value := VNum (Float.of_Z (Z.of_nat n)).

(** The group keys of [groupby]: rows with a missing key are dropped
    ([dropna=True]) and the keys come out sorted ([sort=True]). *)
Definition present (l : list value) : list value :=
  filter (fun v => isna v = false) l.

Definition group_keys (keys : list value) : list value :=
  merge_sort value_le (distinct (present keys)).

Definition present_pairs (l : list (value * value)) : list (value * value) :=
  filter (fun p => isna p.1 = false ∧ isna p.2 = false) l.

Definition group_keys2 (keys : list (value * value)) : list (value * value) :=
  merge_sort pair_le (distinct (present_pairs keys)).

(** [df.groupby([a, b]).size()] as the list of (key, size). *)
Definition groupby_size2 (df : DataFrame) (a b : string)
  : result (list ((value * value) * nat)) :=
  sa ← getitem df a;
  sb ← getitem df b;
  let keys := zip (values sa) (values sb) in
  Ok ((fun k => (k, occurrences k keys)) <$> group_keys2 keys).

(** [.reset_index(name=...)] of the above. *)
Definition size_table (a b name : string) (g : list ((value * value) * nat))
  : table :=
  [(a, (fun r => r.1.1) <$> g); (b, (fun r => r.1.2) <$> g);
   (name, (fun r => count_value r.2) <$> g)].

(** Sorting by decreasing count, entries of equal count staying in their
    order. *)
Fixpoint insert_by_count {A : Type} (x : A * nat) (l : list (A * nat))
  : list (A * nat) :=
  match l with
  | [] => [x]
  | y :: l' =>
      if decide (y.2 ≤ x.2)%nat then x :: l else y :: insert_by_count x l'
  end.

Definition sort_by_count {A : Type} (l : list (A * nat)) : list (A * nat) :=
  foldr insert_by_count [] l.

(** [series.value_counts()]: the distinct present values with their counts,
    most frequent first, values of equal count in the order of their
    first appearance.  (pandas sorts the counts with numpy's quicksort,
    which keeps that order on the short tables of distinct values a
    categorical column gives and documents none beyond them; no
    statement below depends on the order among equal counts.) *)
Definition value_counts (s : Series) : list (value * nat) :=
  let vs := present (values s) in
  sort_by_count ((fun k => (k, occurrences k vs)) <$> distinct vs).

(** [.reset_index()] followed by [.columns = [label, 'count']]. *)
Definition counts_table (label : string) (c : list (value * nat)) : table :=
  [(label, fst <$> c); ("count", (fun r => count_value r.2) <$> c)].

(** The cells of a column as floats, for arithmetic.  [load_data] leaves
    the numeric columns [float64] or [bool]; the mean of a text column is a
    TypeError. *)
Definition numeric_values (s : Series) : result (list float) :=
  match s with
  | FloatS l => Ok l
  | BoolS l => Ok ((fun b : bool => Float.of_Z (if b then 1 else 0)) <$> l)
  | ObjectS _ | DatetimeS _ =>
      Raise (TypeError "agg function failed [how->mean]")
  end.

(** The mean of the cells that are not NaN ([skipna=True]); NaN when there
    is none.  Sum and quotient are exact. *)
Definition mean (l : list float) : float :=
  let xs := filter (fun f => Float.is_nan f = false) l in
  match xs with
  | [] => NaN
  | _ => Float.div_count (foldr Float.add (Float.of_Z 0) xs) (length xs)
  end.

(** [df.groupby(by)[col].mean()] as the list of (key, mean). *)
Definition groupby_mean (df : DataFrame) (by_ col : string)
  : result (list (value * float)) :=
  sk ← getitem df by_;
  sv ← getitem df col;
  xs ← numeric_values sv;
  let rows := zip (values sk) xs in
  Ok ((fun k => (k, mean (snd <$> filter (fun r => r.1 = k) rows)))
        <$> group_keys (values sk)).

Definition mean_table (by_ col : string) (g : list (value * float)) : table :=
  [(by_, fst <$> g); (col, (fun r => VNum r.2) <$> g)].

(** [df.dropna(subset=[col])] *)
Definition dropna (df : DataFrame) (col : string) : result DataFrame :=
  s ← getitem df col;
  Ok (frame_mask df ((fun v => negb (isna v)) <$> values s)).

(** [df[labels]] for a list of labels. *)
Definition select (df : DataFrame) (labels : list string)
  : result (list (string * Series)) :=
  map_result (fun l => s ← getitem df l; Ok (l, s)) labels.

(** ** Figures *)

Definition labels_dict : Type := list (string * string).

Inductive Figure : Type :=
  | Bar (data_frame : table) (x y color : string)
        (title : string) (labels : labels_dict)
  | Pie (data_frame : table) (values_ names : string)
        (title : string) (hole : option Qc) (labels : labels_dict)
  | GoPie (labels_ : list value) (values_ : list value) (pull : list Qc)
          (hole : Qc) (line_color : string) (line_width : Z)
          (title_text : string)
  | Scatter (data_frame : table) (x y : string) (size : option string)
            (color hover_name : string) (title : string) (labels : labels_dict)
  | Box (data_frame : table) (x y color : string)
        (title : string) (labels : labels_dict)
  | Imshow (img : list (list float)) (text_auto : string) (title : string)
           (color_continuous_scale : string) (aspect : string).

(** plotly express looks every column argument up in the data frame and
    raises a ValueError when it is not a column.  Its checks on the cells
    themselves (a marker size is a non-negative number) are not modelled:
    a builder that fails here fails in plotly, and one that succeeds here
    may still fail there. *)
Definition px_column (data_frame : table) (arg col : string) : result unit :=
  match filter (fun c => c.1 = col) data_frame with
  | [] => Raise (ValueError ("Value of '" +:+ arg +:+
                  "' is not the name of a column in 'data_frame': " +:+ col))
  | [_] => Ok ()
  | _ => Raise (DuplicateLabel col)
  end.

Definition px_bar (d : table) (x y color title : string) (l : labels_dict)
  : result Figure :=
  px_column d "x" x;; px_column d "y" y;; px_column d "color" color;;
  Ok (Bar d x y color title l).

Definition px_pie (d : table) (values_ names title : string)
    (hole : option Qc) (l : labels_dict) : result Figure :=
  px_column d "names" names;; px_column d "values" values_;;
  Ok (Pie d values_ names title hole l).

Definition px_scatter (d : table) (x y : string) (size : option string)
    (color hover_name title : string) (l : labels_dict) : result Figure :=
  px_column d "x" x;; px_column d "y" y;;
  from_option (px_column d "size") (Ok ()) size;;
  px_column d "color" color;;
  px_column d "hover_name" hover_name;;
  Ok (Scatter d x y size color hover_name title l).

Definition px_box (d : table) (x y color title : string) (l : labels_dict)
  : result Figure :=
  px_column d "x" x;; px_column d "y" y;; px_column d "color" color;;
  Ok (Box d x y color title l).

(** The data frame and the hover column of a plotly express figure. *)
Definition figure_data (f : Figure) : table :=
  match f with
  | Bar d _ _ _ _ _ | Pie d _ _ _ _ _ | Scatter d _ _ _ _ _ _ _
  | Box d _ _ _ _ _ => d
  | GoPie _ _ _ _ _ _ _ | Imshow _ _ _ _ _ => []
  end.

Definition hover_name_of (f : Figure) : option string :=
  match f with
  | Scatter _ _ _ _ _ h _ _ => Some h
  | _ => None
  end.

(** plotly draws each slice of a pie with the share [value / sum of the
    values]. *)
Definition Qc_of_nat (n : nat) : Qc := Q2Qc (inject_Z (Z.of_nat n)).

Definition pie_shares (c : list (value * nat)) : list Qc :=
  let total := Qc_of_nat (sum_list (snd <$> c)) in
  (fun r => (Qc_of_nat r.2 / total)%Qc) <$> c.

Definition sum_Qc (l : list Qc) : Qc := foldr Qcplus (Q2Qc 0) l.

(** ** The script monad *)

Inductive event : Type :=
  | st_set_page_config (page_title layout : string)
  | st_success (body : string)
  | st_error (body : string)
  | st_warning (body : string)
  | st_sidebar_header (body : string)
  | st_sidebar_multiselect (label : string) (options default_ : list value)
  | st_title (body : string)
  | st_markdown (body : string)
  | st_header (body : string)
  | st_subheader (body : string)
  | st_columns (spec : nat)
  | st_plotly_chart (fig : Figure).

(** How a run of the script ends: at its last line, at [st.stop()], or with
    an exception nothing catches. *)
Inductive outcome (A : Type) : Type :=
  | Done (a : A)
  | Stopped
  | Failed (e : exn).
Arguments Done {A} a.
Arguments Stopped {A}.
Arguments Failed {A} e.

Record script (A : Type) : Type := Script {
  log : list event;
  ending : outcome A
}.
Arguments Script {A} log ending.
Arguments log {A} s.
Arguments ending {A} s.

Global Instance script_ret : MRet script := fun A a => Script [] (Done a).
Global Instance script_bind : MBind script := fun A B f m =>
  match m with
  | Script l (Done a) => let '(Script l' r) := f a in Script (l ++ l') r
  | Script l Stopped => Script l Stopped
  | Script l (Failed e) => Script l (Failed e)
  end.

Definition emit (e : event) : script unit := Script [e] (Done ()).
Definition st_stop {A : Type} : script A := Script [] Stopped.
Definition lift {A : Type} (r : result A) : script A :=
  match r with
  | Ok a => Script [] (Done a)
  | Raise e => Script [] (Failed e)
  end.

(** The state of a multiselect widget: untouched ([None], it returns its
    default) or holding the user's selection. *)
Definition widget : Type := option (list value).

Definition multiselect (label : string) (options default_ : list value)
    (w : widget) : script (list value) :=
  emit (st_sidebar_multiselect label options default_);;
  mret (default default_ w).

Record selections : Type := mkSelections {
  groups_widget : widget;
  room_types_widget : widget
}.

(** The script's two frame variables once the filters have run. *)
Record env : Type := mkEnv {
  data : DataFrame;
  filtered_data : DataFrame
}.

Definition is_chart (e : event) : bool :=
  match e with st_plotly_chart _ => true | _ => false end.

Definition is_multiselect (e : event) : bool :=
  match e with st_sidebar_multiselect _ _ _ => true | _ => false end.

(** ** Auxiliary notions of the proofs *)

Definition fraction_text (c : option (list digit)) : string :=
  match c with Some c => "." +:+ digits_text c | None => EmptyString end.

(** Text at which a digit part ends. *)
Definition ends_digits (s : string) : Prop :=
  match s with
  | EmptyString => True
  | String c _ => Float.digit_of c = None /\ Ascii.eqb c "_" = false
  end.

Fixpoint no_space (s : string) : bool :=
  match s with
  | EmptyString => true
  | String c r => negb (Text.is_space c) && no_space r
  end.

Definition starts_number (c : ascii) : Prop :=
  c = "."%char \/ exists d, c = digit_char d.

(** A frame in which every column has one cell per row. *)
Definition well_formed (df : DataFrame) : Prop :=
  Forall (fun c => length (values c.2) = nrows df) (columns df).

Definition loader_exception (e : exn) : Prop :=
  match e with
  | KeyError _ | DuplicateLabel _ | ValueError _ => True
  | _ => False
  end.

(** A column the numeric coercion accepts: every text cell of a text
    column is a float literal once ['$'] and [','] are removed. *)
Definition coercible (s : Series) : Prop :=
  match s with
  | ObjectS l =>
      Forall (fun o => match o with
                       | Some t => is_Some (Float.of_string (strip_currency t))
                       | None => True
                       end) l
  | _ => True
  end.

(** No white space at either end. *)
Definition trimmed (s : string) : Prop :=
  match s with
  | EmptyString => True
  | String c _ => Text.is_space c = false
  end /\ Text.rstrip s = s.

(** Whether the character occurs in the text. *)
Fixpoint has_char (c : ascii) (s : string) : bool :=
  match s with
  | EmptyString => false
  | String c' r => Ascii.eqb c' c || has_char c r
  end.

(** ** Fixtures

    Five listings in two groups, as [pd.read_csv] returns them for a file
    with the header of the source data set: text prices, a missing
    [reviews_per_month] on every Brooklyn row. *)

Module Fixture.

Definition listings_with (name_label : string)
    (price3 room3 : option string) : DataFrame :=
  mkDataFrame [0; 1; 2; 3; 4]%nat
    [(name_label,
      ObjectS [Some "Loft"; Some "Studio"; Some "Garden flat";
               Some "Attic"; Some "Penthouse"]);
     ("neighbourhood group",
      ObjectS [Some "Manhattan"; Some "Manhattan"; Some "Brooklyn";
               Some "Brooklyn"; Some "Manhattan"]);
     ("room type",
      ObjectS [Some "Entire home/apt"; Some "Private room";
               Some "Entire home/apt"; room3; Some "Entire home/apt"]);
     ("price",
      ObjectS [Some "$2,000"; Some "$1,200.50"; Some "$150"; price3;
               Some "$3,000"]);
     ("service fee",
      ObjectS [Some "$400"; Some "$240"; Some "$30"; Some "$16"; None]);
     ("minimum nights",
      FloatS (Float.of_Z <$> [2; 1; 3; 30; 7]));
     ("number of reviews",
      FloatS (Float.of_Z <$> [10; 0; 5; 2; 40]));
     ("reviews per month",
      FloatS [Fin (Q2Qc (3 # 2)); Float.of_Z 1; NaN; NaN; Float.of_Z 2]);
     ("last review",
      ObjectS [Some "2021-05-01"; None; Some "2020-01-15"; None;
               Some "2022-03-09"]);
     ("availability 365",
      FloatS (Float.of_Z <$> [100; 365; 0; 12; 200]));
     ("instant_bookable", BoolS [true; false; false; true; true])].

Definition listings : DataFrame :=
  listings_with "NAME" (Some "$80") (Some "Shared room").

(** One price that is no number. *)
Definition bad_price : DataFrame :=
  listings_with "NAME" (Some "abc") (Some "Shared room").

(** The title column labelled [name], as the data model of the
    specification has it. *)
Definition lowercase_name : DataFrame :=
  listings_with "name" (Some "$80") (Some "Shared room").

(** One listing without a room type. *)
Definition missing_room_type : DataFrame :=
  listings_with "NAME" (Some "$80") None.

(** One price of sixteen digits, an odd whole number above [2^53]. *)
Definition big_price : DataFrame :=
  listings_with "NAME" (Some "$9,007,199,254,740,993") (Some "Shared room").

Definition big_amount : amount :=
  mkAmount [[D9]; [D0; D0; D7]; [D1; D9; D9]; [D2; D5; D4]; [D7; D4; D0];
            [D9; D9; D3]] None.

(** Ten cents. *)
Definition dime : amount := mkAmount [[D0]] (Some [D1; D0]).

(** The same tables once loaded (with [no_dates] below for the dates):
    labels normalised, prices and fees as numbers. *)
Definition loaded_with (name_label : string) (room3 : option string)
  : DataFrame :=
  mkDataFrame [0; 1; 2; 3; 4]%nat
    [(name_label,
      ObjectS [Some "Loft"; Some "Studio"; Some "Garden flat";
               Some "Attic"; Some "Penthouse"]);
     ("neighbourhood_group",
      ObjectS [Some "Manhattan"; Some "Manhattan"; Some "Brooklyn";
               Some "Brooklyn"; Some "Manhattan"]);
     ("room_type",
      ObjectS [Some "Entire home/apt"; Some "Private room";
               Some "Entire home/apt"; room3; Some "Entire home/apt"]);
     ("price",
      FloatS [Float.of_Z 2000; Fin (Q2Qc (2401 # 2)); Float.of_Z 150;
              Float.of_Z 80; Float.of_Z 3000]);
     ("service_fee",
      FloatS [Float.of_Z 400; Float.of_Z 240; Float.of_Z 30; Float.of_Z 16;
              NaN]);
     ("minimum_nights",
      FloatS (Float.of_Z <$> [2; 1; 3; 30; 7]));
     ("number_of_reviews",
      FloatS (Float.of_Z <$> [10; 0; 5; 2; 40]));
     ("reviews_per_month",
      FloatS [Fin (Q2Qc (3 # 2)); Float.of_Z 1; NaN; NaN; Float.of_Z 2]);
     ("last_review", DatetimeS [None; None; None; None; None]);
     ("availability_365",
      FloatS (Float.of_Z <$> [100; 365; 0; 12; 200]));
     ("instant_bookable", BoolS [true; false; false; true; true])].

Definition loaded : DataFrame := loaded_with "NAME" (Some "Shared room").
Definition loaded_lowercase_name : DataFrame :=
  loaded_with "name" (Some "Shared room").
Definition loaded_missing_room_type : DataFrame := loaded_with "NAME" None.

(** The cells of the [price] column of [listings]. *)
Definition price_cells : list (option amount) :=
  [Some (mkAmount [[D2]; [D0; D0; D0]] None);
   Some (mkAmount [[D1]; [D2; D0; D0]] (Some [D5; D0]));
   Some (mkAmount [[D1; D5; D0]] None);
   Some (mkAmount [[D8; D0]] None);
   Some (mkAmount [[D3]; [D0; D0; D0]] None)].

(** Stand-ins for the two pandas functions the model leaves open. *)
Definition no_dates (s : Series) : list (option Z) :=
  (fun _ => None) <$> values s.

Definition no_corr (cols : list (string * Series)) : list (list float) :=
  (fun _ => (fun _ => NaN) <$> cols) <$> cols.

Definition untouched : selections := mkSelections None None.

Definition only_manhattan : selections :=
  mkSelections (Some [VStr "Manhattan"]) None.

Definition no_groups : selections := mkSelections (Some []) None.

End Fixture.

(** The two messages of the script. *)
Definition not_found_message : string :=
  "Error: The file `airbnb_project_cleaned.csv` was not found. Please make sure it's in the same directory.".

Definition empty_warning : string :=
  "No data matches the selected filters. Please adjust your selections.".

Section dashboard.

(** [pd.to_datetime(series, errors='coerce')]: the instants in
    nanoseconds, [None] for NaT; and [DataFrame.corr()], the matrix of
    Pearson coefficients.  Neither the format inference of the first nor
    the square roots of the second are modelled: the theorems hold for
    any two such functions.  Dates written with differing UTC offsets,
    which pandas 2 returns as a column of objects, are left out. *)
Context (to_datetime_coerce : Series -> list (option Z)).
Context (corr : list (string * Series) -> list (list float)).

Definition load_data (file : option DataFrame) : result DataFrame :=
  df ← read_csv file;
  let df := normalize_columns df in
  df ← for_each coerce_column df numeric_cols;
  last_review ← getitem df "last_review";
  Ok (setitem df "last_review" (DatetimeS (to_datetime_coerce last_review))).

(** Lines 45-50: the guarded load. *)
Definition guarded_load (file : option DataFrame) : script DataFrame :=
  match load_data file with
  | Ok df => emit (st_success "Data loaded successfully!");; mret df
  | Raise FileNotFoundError =>
      emit (st_error not_found_message);;
      st_stop
  | Raise e => lift (Raise e)
  end.

(** Lines 52-71: the sidebar filters. *)
Definition group_options (data : DataFrame) : result (list value) :=
  unique <$> getitem data "neighbourhood_group".

Definition filter_groups (data : DataFrame) (selected_groups : list value)
  : result DataFrame :=
  s ← getitem data "neighbourhood_group";
  Ok (frame_mask data (isin s selected_groups)).

Definition room_type_options (filtered_data : DataFrame)
  : result (list value) :=
  unique <$> getitem filtered_data "room_type".

Definition filter_room_types (filtered_data : DataFrame)
    (selected_room_types : list value) : result DataFrame :=
  s ← getitem filtered_data "room_type";
  Ok (frame_mask filtered_data (isin s selected_room_types)).

Definition filter_stage (data : DataFrame) (ui : selections) : script env :=
  emit (st_sidebar_header "Filter Options");;
  unique_neighbourhood_groups ← lift (group_options data);
  selected_groups ←
    multiselect "Select Neighbourhood Group(s)"
      unique_neighbourhood_groups unique_neighbourhood_groups
      (groups_widget ui);
  filtered_data ← lift (filter_groups data selected_groups);
  unique_room_types ← lift (room_type_options filtered_data);
  selected_room_types ←
    multiselect "Select Room Type(s)"
      unique_room_types unique_room_types (room_types_widget ui);
  filtered_data ← lift (filter_room_types filtered_data selected_room_types);
  mret (mkEnv data filtered_data).

(** Lines 85-95 *)
Definition fig_bar (filtered_data : DataFrame) : result Figure :=
  g ← groupby_size2 filtered_data "neighbourhood_group" "room_type";
  px_bar (size_table "neighbourhood_group" "room_type" "count" g)
    "neighbourhood_group" "count" "room_type"
    "Count of Room Types by Neighbourhood Group"
    [("count", "Number of Listings");
     ("neighbourhood_group", "Neighbourhood Group");
     ("room_type", "Room Type")].

(** Lines 97-108 *)
Definition room_type_counts (filtered_data : DataFrame)
  : result (list (value * nat)) :=
  value_counts <$> getitem filtered_data "room_type".

Definition fig_pie_room_type (filtered_data : DataFrame) : result Figure :=
  c ← room_type_counts filtered_data;
  px_pie (counts_table "room_type" c) "count" "room_type"
    "Distribution of Room Types" (Some (Q2Qc (4 # 10))) [].

(** Lines 111-127 *)
Definition fig_pie_group (filtered_data : DataFrame) : result Figure :=
  neighbourhood_counts ←
    value_counts <$> getitem filtered_data "neighbourhood_group";
  Ok (GoPie (fst <$> neighbourhood_counts)
            ((fun r => count_value r.2) <$> neighbourhood_counts)
            (replicate (length neighbourhood_counts) (Q2Qc (1 # 10)))
            (Q2Qc (3 # 10)) "#000000" 1
            "Distribution of Neighbourhood Groups").

(** Lines 129-140 *)
Definition fig_pie_instant (filtered_data : DataFrame) : result Figure :=
  c ← value_counts <$> getitem filtered_data "instant_bookable";
  px_pie (counts_table "instant_bookable" c) "count" "instant_bookable"
    "Listings by Instant Bookability" None
    [("instant_bookable", "Instant Bookable")].

(** Lines 148-159 *)
Definition avg_reviews_by_group (filtered_data : DataFrame)
  : result (list (value * float)) :=
  groupby_mean filtered_data "neighbourhood_group" "reviews_per_month".

Definition fig_avg_reviews (filtered_data : DataFrame) : result Figure :=
  g ← avg_reviews_by_group filtered_data;
  px_bar (mean_table "neighbourhood_group" "reviews_per_month" g)
    "neighbourhood_group" "reviews_per_month" "reviews_per_month"
    "Average Reviews Per Month by Neighbourhood Group"
    [("reviews_per_month", "Average Reviews per Month")].

(** Lines 161-173 *)
Definition bubble_frame (filtered_data : DataFrame) : result DataFrame :=
  dropna filtered_data "reviews_per_month".

Definition fig_bubble (filtered_data : DataFrame) : result Figure :=
  d ← bubble_frame filtered_data;
  px_scatter (frame_table d) "minimum_nights" "price"
    (Some "reviews_per_month") "room_type" "NAME"
    "Price vs. Minimum Nights (Bubble Size by Reviews/Month)"
    [("minimum_nights", "Minimum Nights"); ("price", "Price ($)");
     ("reviews_per_month", "Reviews per Month")].

(** Lines 175-185 *)
Definition fig_scatter (filtered_data : DataFrame) : result Figure :=
  px_scatter (frame_table filtered_data) "availability_365" "price"
    None "room_type" "NAME"
    "Price vs. Availability 365 (Color by Room Type)"
    [("availability_365", "Availability (Days)"); ("price", "Price ($)")].

(** Lines 193-203 *)
Definition fig_box (filtered_data : DataFrame) : result Figure :=
  px_box (frame_table filtered_data) "neighbourhood_group" "minimum_nights"
    "neighbourhood_group" "Minimum Nights per Neighbourhood Group"
    [("minimum_nights", "Minimum Nights");
     ("neighbourhood_group", "Neighbourhood Group")].

(** Lines 205-215 *)
Definition fig_heatmap (filtered_data : DataFrame) : result Figure :=
  numeric_df ← corr <$> select filtered_data numeric_cols;
  Ok (Imshow numeric_df ".2f" "Correlation Heatmap of Numeric Features"
             "RdBu_r" "auto").

(** [st.plotly_chart(fig, ...)] around a builder. *)
Definition plot (fig : result Figure) : script unit :=
  f ← lift fig; emit (st_plotly_chart f).

(** Lines 81-215: the three sections of charts. *)
Definition charts (filtered_data : DataFrame) : script unit :=
  emit (st_header "1. Listing Distributions");;
  emit (st_columns 2);;
  emit (st_subheader "Room Type Distribution by Neighbourhood Group");;
  plot (fig_bar filtered_data);;
  emit (st_subheader "Percentage Distribution of Room Types");;
  plot (fig_pie_room_type filtered_data);;
  emit (st_columns 2);;
  emit (st_subheader "Distribution of Neighbourhood Groups (Exploding Pie)");;
  plot (fig_pie_group filtered_data);;
  emit (st_subheader "Instant Bookable Listings");;
  plot (fig_pie_instant filtered_data);;
  emit (st_markdown "---");;
  emit (st_header "2. Price and Review Analysis");;
  emit (st_columns 2);;
  emit (st_subheader "Average Reviews per Month");;
  plot (fig_avg_reviews filtered_data);;
  emit (st_subheader "Price vs. Minimum Nights (Bubble Plot)");;
  plot (fig_bubble filtered_data);;
  emit (st_subheader "Price vs. Availability (Color by Room Type)");;
  plot (fig_scatter filtered_data);;
  emit (st_markdown "---");;
  emit (st_header "3. Advanced Visualizations");;
  emit (st_columns 2);;
  emit (st_subheader "Minimum Nights per Neighbourhood Group");;
  plot (fig_box filtered_data);;
  emit (st_subheader "Correlation Heatmap");;
  plot (fig_heatmap filtered_data).

(** The whole script, top to bottom; [file] is what sits at
    [airbnb_project_cleaned.csv]. *)
Definition dashboard (file : option DataFrame) (ui : selections)
  : script env :=
  emit (st_set_page_config "Airbnb Listings Dashboard" "wide");;
  data ← guarded_load file;
  e ← filter_stage data ui;
  emit (st_title "Airbnb Listings Dashboard");;
  emit (st_markdown "Explore key metrics and distributions of Airbnb listings using this interactive dashboard.");;
  (if empty (filtered_data e) then
     emit (st_warning empty_warning);;
     st_stop
   else mret ());;
  charts (filtered_data e);;
  mret e.

(** ** Boolean indexing *)

Lemma bool_index_nil_r {A} (m : list bool) : bool_index m (@nil A) = [].
Proof. by destruct m as [|[] ?]. Qed.

Lemma bool_index_fmap {A B} (f : A -> B) m (l : list A) :
  f <$> bool_index m l = bool_index m (f <$> l).
Proof.
  revert l. induction m as [|b m IH]; intros [|x l]; simpl; try done.
  destruct b; simpl; by rewrite IH.
Qed.

Lemma bool_index_sublist {A} m (l : list A) : bool_index m l `sublist_of` l.
Proof.
  revert l. induction m as [|b m IH]; intros [|x l]; simpl;
    try apply sublist_nil_l.
  destruct b; [by apply sublist_skip | by apply sublist_cons].
Qed.

Lemma bool_index_length_le {A} m (l : list A) :
  (length (bool_index m l) ≤ length l)%nat.
Proof. apply sublist_length, bool_index_sublist. Qed.

Lemma bool_index_all_false {A} m (l : list A) :
  Forall (fun b => b = false) m -> bool_index m l = [].
Proof.
  intros H. revert l. induction H as [|b m -> _ IH]; intros [|x l]; simpl; auto.
Qed.

Lemma values_series_mask m s :
  values (series_mask m s) = bool_index m (values s).
Proof. destruct s; simpl; by rewrite bool_index_fmap. Qed.

Lemma filter_label_fmap {A B} (f : A -> B) label (cols : list (string * A)) :
  filter (fun c => c.1 = label) (prod_map id f <$> cols)
  = prod_map id f <$> filter (fun c => c.1 = label) cols.
Proof.
  induction cols as [|[n a] cols IH]; [done|].
  rewrite fmap_cons, !filter_cons. simpl.
  destruct (decide (n = label)); rewrite IH; done.
Qed.

Lemma getitem_frame_mask df m label :
  getitem (frame_mask df m) label = series_mask m <$> getitem df label.
Proof.
  unfold getitem, frame_mask. simpl. rewrite filter_label_fmap.
  destruct (filter _ (columns df)) as [|[n a] [|? ?]]; done.
Qed.

Lemma rows_of_cons i idx cols :
  rows_of (i :: idx) cols
  = (i, prod_map id head <$> cols) :: rows_of idx (prod_map id tail <$> cols).
Proof. done. Qed.

Lemma bool_index_cons {A} (b : bool) m (x : A) l :
  bool_index (b :: m) (x :: l)
  = if b then x :: bool_index m l else bool_index m l.
Proof. done. Qed.

Lemma rows_of_mask m idx cols :
  rows_of (bool_index m idx) (prod_map id (bool_index m) <$> cols)
  = bool_index m (rows_of idx cols).
Proof.
  revert idx cols. induction m as [|b m IH]; intros [|i idx] cols;
    try done.
  assert (Htail : prod_map id tail <$> (prod_map id (bool_index (true :: m)) <$> cols)
            = prod_map id (bool_index m) <$> (prod_map id tail <$> cols)).
  { rewrite <- !list_fmap_compose. apply list_fmap_ext.
    intros _ [n [|x l]] _; simpl; by rewrite ?bool_index_nil_r. }
  assert (Hskip : prod_map id (bool_index (false :: m)) <$> cols
            = prod_map id (bool_index m) <$> (prod_map id tail <$> cols)).
  { rewrite <- !list_fmap_compose. apply list_fmap_ext.
    intros _ [n [|x l]] _; simpl; by rewrite ?bool_index_nil_r. }
  rewrite !bool_index_cons. destruct b.
  - rewrite !rows_of_cons, bool_index_cons, Htail, IH. f_equal. f_equal.
    rewrite <- !list_fmap_compose. apply list_fmap_ext.
    by intros _ [n [|x l]] _.
  - by rewrite rows_of_cons, bool_index_cons, Hskip, IH.
Qed.

Lemma rows_frame_mask df m : rows (frame_mask df m) = bool_index m (rows df).
Proof.
  unfold rows, frame_mask. simpl. rewrite <- rows_of_mask. f_equal.
  rewrite <- !list_fmap_compose. apply list_fmap_ext.
  intros _ [n s] _. simpl. by rewrite values_series_mask.
Qed.

Lemma nrows_frame_mask_le df m : (nrows (frame_mask df m) ≤ nrows df)%nat.
Proof. apply bool_index_length_le. Qed.

Lemma bool_index_mono_length {A} mA mB (idx : list A) :
  Forall2 (fun a b : bool => a = true -> b = true) mA mB ->
  (length (bool_index mA idx) ≤ length (bool_index mB idx))%nat.
Proof.
  intros H. revert idx.
  induction H as [|a b mA mB Hab _ IH]; intros [|i idx]; try done.
  rewrite !bool_index_cons. specialize (IH idx).
  destruct a, b; simpl; first [lia | by specialize (Hab eq_refl)].
Qed.

Lemma bool_index_mono_length2 {A B} (g : B -> bool) mA mB
    (vs : list B) (idx : list A) :
  Forall2 (fun a b : bool => a = true -> b = true) mA mB ->
  (length (bool_index (g <$> bool_index mA vs) (bool_index mA idx))
   ≤ length (bool_index (g <$> bool_index mB vs) (bool_index mB idx)))%nat.
Proof.
  intros H. revert vs idx.
  induction H as [|a b mA mB Hab _ IH]; intros [|v vs] [|i idx];
    rewrite ?bool_index_nil_r; try done.
  rewrite !bool_index_cons. specialize (IH vs idx).
  destruct a, b; try (by specialize (Hab eq_refl)); try done.
  - rewrite !fmap_cons, !bool_index_cons. destruct (g v); simpl; lia.
  - rewrite !fmap_cons, !bool_index_cons. destruct (g v); simpl; lia.
Qed.

Lemma isin_mono s (A B : list value) :
  (forall v, v ∈ A -> v ∈ B) ->
  Forall2 (fun a b : bool => a = true -> b = true) (isin s A) (isin s B).
Proof.
  intros H. unfold isin. apply Forall2_fmap, Forall_Forall2_diag, Forall_forall.
  intros v _ Hv. apply bool_decide_eq_true. apply bool_decide_eq_true in Hv. auto.
Qed.

(** ** The filter stage, unfolded *)

Lemma filter_groups_ok data sel fd :
  filter_groups data sel = Ok fd ->
  exists gs, getitem data "neighbourhood_group" = Ok gs
             /\ fd = frame_mask data (isin gs sel).
Proof.
  unfold filter_groups. destruct (getitem data _) as [gs|]; simpl; [|done].
  intros [= <-]. eauto.
Qed.

Lemma filter_room_types_ok fd sel fd' :
  filter_room_types fd sel = Ok fd' ->
  exists rs, getitem fd "room_type" = Ok rs
             /\ fd' = frame_mask fd (isin rs sel).
Proof.
  unfold filter_room_types. destruct (getitem fd _) as [rs|]; simpl; [|done].
  intros [= <-]. eauto.
Qed.

(** What a run of the filter stage that reaches its end has done. *)
Lemma filter_stage_done data ui l e :
  filter_stage data ui = Script l (Done e) ->
  exists gs rs,
    let selected_groups := default (unique gs) (groups_widget ui) in
    let fd := frame_mask data (isin gs selected_groups) in
    let selected_room_types := default (unique rs) (room_types_widget ui) in
    getitem data "neighbourhood_group" = Ok gs
    /\ getitem fd "room_type" = Ok rs
    /\ e = mkEnv data (frame_mask fd (isin rs selected_room_types))
    /\ l = [st_sidebar_header "Filter Options";
            st_sidebar_multiselect "Select Neighbourhood Group(s)"
              (unique gs) (unique gs);
            st_sidebar_multiselect "Select Room Type(s)"
              (unique rs) (unique rs)].
Proof.
  unfold filter_stage, group_options, filter_groups, room_type_options,
    filter_room_types.
  destruct (getitem data "neighbourhood_group") as [gs|] eqn:Hg; [|done].
  cbn -[getitem unique isin frame_mask].
  destruct (getitem (frame_mask data _) "room_type") as [rs|] eqn:Hr; [|done].
  cbn -[getitem unique isin frame_mask].
  intros [= <- <-]. exists gs, rs. cbn zeta. done.
Qed.

(** ** Distinct values *)

Lemma elem_of_distinct {A} `{EqDecision A} (x : A) l :
  x ∈ distinct l <-> x ∈ l.
Proof.
  induction l as [|y l IH]; simpl; [done|].
  rewrite !elem_of_cons, list_elem_of_filter, IH.
  destruct (decide (x = y)) as [->|Hne]; [by split; left|].
  split; [intros [?|[_ ?]] | intros [?|?]]; try done; by right.
Qed.

Lemma NoDup_distinct {A} `{EqDecision A} (l : list A) : NoDup (distinct l).
Proof.
  induction l as [|y l IH]; simpl; [constructor|].
  constructor; [|by apply NoDup_filter].
  rewrite list_elem_of_filter. by intros [Hne _].
Qed.

Lemma elem_of_bool_index {A} (x : A) m l :
  x ∈ bool_index m l <-> exists i, m !! i = Some true /\ l !! i = Some x.
Proof.
  revert l. induction m as [|b m IH]; intros [|y l].
  - split; [by intros ?%elem_of_nil | by intros (i & ? & ?)].
  - split; [by intros ?%elem_of_nil | by intros (i & ? & ?)].
  - rewrite bool_index_nil_r.
    split; [by intros ?%elem_of_nil | by intros (i & ? & ?)].
  - rewrite bool_index_cons. destruct b.
    + rewrite elem_of_cons, IH. split.
      * intros [->|(i & ? & ?)]; [by exists 0%nat | by exists (S i)].
      * intros ([|i] & Hm & Hl); simpl in *; [left; congruence | right; eauto].
    + rewrite IH. split.
      * intros (i & ? & ?). by exists (S i).
      * intros ([|i] & Hm & Hl); simpl in *; [done | eauto].
Qed.

Lemma isin_lookup_true s sel i :
  isin s sel !! i = Some true <-> exists g, values s !! i = Some g /\ g ∈ sel.
Proof.
  unfold isin. rewrite list_lookup_fmap.
  destruct (values s !! i) as [g|]; simpl.
  - split.
    + intros [= H%bool_decide_eq_true]. eauto.
    + intros (g' & [= <-] & H). f_equal. by apply bool_decide_eq_true.
  - split; [done | by intros (g & ? & _)].
Qed.

Lemma isin_nil s : Forall (fun b => b = false) (isin s []).
Proof.
  unfold isin. apply Forall_fmap, Forall_forall. intros v _.
  apply bool_decide_eq_false. by intros ?%elem_of_nil.
Qed.

(** ** The filter stage *)

(** C3: the group filter is monotone in the selection: if every selected
    group of [A] is also selected in [B], filtering by [A] keeps at most
    as many rows as filtering by [B]; the same holds after the room-type
    filter with any one room-type selection. *)
Theorem group_filter_monotone df (A B : list value) fa fb :
  (forall v, v ∈ A -> v ∈ B) ->
  filter_groups df A = Ok fa ->
  filter_groups df B = Ok fb ->
  (nrows fa ≤ nrows fb)%nat
  /\ forall R fa' fb',
       filter_room_types fa R = Ok fa' ->
       filter_room_types fb R = Ok fb' ->
       (nrows fa' ≤ nrows fb')%nat.
Proof.
  intros HAB (gs & Hgs & ->)%filter_groups_ok (gs' & Hgs' & ->)%filter_groups_ok.
  assert (gs' = gs) as -> by congruence.
  split.
  - apply bool_index_mono_length. by apply isin_mono.
  - intros R fa' fb' (ra & Hra & ->)%filter_room_types_ok
      (rb & Hrb & ->)%filter_room_types_ok.
    rewrite getitem_frame_mask in Hra, Hrb.
    destruct (getitem df "room_type") as [rs|]; [|done].
    injection Hra as <-. injection Hrb as <-.
    unfold nrows, frame_mask, isin; simpl. rewrite !values_series_mask.
    apply bool_index_mono_length2. by apply isin_mono.
Qed.

(** C7: the filter stage returns rows of the loaded table, in the table's
    order, and leaves the loaded table as it was, so that a later
    application of the filters starts from the same table. *)
Theorem filter_stage_subset_in_order df ui l e :
  filter_stage df ui = Script l (Done e) ->
  rows (filtered_data e) `sublist_of` rows df
  /\ data e = df
  /\ forall ui', filter_stage (data e) ui' = filter_stage df ui'.
Proof.
  intros (gs & rs & Hgs & Hrs & -> & _)%filter_stage_done. simpl.
  split; [|done].
  rewrite !rows_frame_mask.
  etrans; apply bool_index_sublist.
Qed.

(** C4: the room-type options offered in the sidebar are the distinct
    [room_type] values of the rows whose group is selected; a narrower
    group selection can only give a narrower set of options. *)
Theorem room_type_options_of_filtered df ui l e :
  filter_stage df ui = Script l (Done e) ->
  exists gs rs opts,
    getitem df "neighbourhood_group" = Ok gs
    /\ getitem df "room_type" = Ok rs
    /\ l !! 2%nat = Some (st_sidebar_multiselect "Select Room Type(s)" opts opts)
    /\ NoDup opts
    /\ (forall v, v ∈ opts <->
          exists i g, values gs !! i = Some g
                      /\ g ∈ default (unique gs) (groups_widget ui)
                      /\ values rs !! i = Some v)
    /\ (forall ui' l' e' opts' dflt',
          filter_stage df ui' = Script l' (Done e') ->
          l' !! 2%nat
            = Some (st_sidebar_multiselect "Select Room Type(s)" opts' dflt') ->
          (forall g, g ∈ default (unique gs) (groups_widget ui) ->
                     g ∈ default (unique gs) (groups_widget ui')) ->
          forall v, v ∈ opts -> v ∈ opts').
Proof.
  intros (gs & rs' & Hgs & Hrs & -> & ->)%filter_stage_done.
  cbn zeta in Hrs. rewrite getitem_frame_mask in Hrs.
  destruct (getitem df "room_type") as [rs|] eqn:Hroom; [|done].
  injection Hrs as <-.
  assert (Hchar : forall w v,
    v ∈ unique (series_mask (isin gs (default (unique gs) w)) rs) <->
    exists i g, values gs !! i = Some g
                /\ g ∈ default (unique gs) w /\ values rs !! i = Some v).
  { intros w v. unfold unique.
    rewrite elem_of_distinct, values_series_mask, elem_of_bool_index.
    split.
    - intros (i & (g & ? & ?)%isin_lookup_true & ?). eauto.
    - intros (i & g & ? & ? & ?). exists i. split; [|done].
      apply isin_lookup_true. eauto. }
  exists gs, rs, (unique (series_mask (isin gs (default (unique gs) (groups_widget ui))) rs)).
  split_and!; try done.
  - apply NoDup_distinct.
  - intros ui' l' e' opts' dflt' (gs2 & rs2 & Hgs2 & Hrs2 & _ & ->)%filter_stage_done.
    cbn zeta in Hrs2. rewrite getitem_frame_mask, Hroom in Hrs2.
    assert (gs2 = gs) as -> by congruence.
    injection Hrs2 as <-. intros [= <- _] Hsub v.
    rewrite !Hchar. intros (i & g & ? & ? & ?). eauto 10.
Qed.

(** ** The run of the script *)

(** C6: when the source file is absent the run shows the "not found"
    error and halts there: no filter widget and no chart follows. *)
Theorem missing_file_halts ui :
  dashboard None ui
  = Script [st_set_page_config "Airbnb Listings Dashboard" "wide";
            st_error not_found_message] Stopped
  /\ Forall (fun ev => is_chart ev = false /\ is_multiselect ev = false)
            (log (dashboard None ui)).
Proof. split; [done|]. repeat constructor. Qed.

Lemma dashboard_empty file ui df l e :
  load_data file = Ok df ->
  filter_stage df ui = Script l (Done e) ->
  empty (filtered_data e) = true ->
  dashboard file ui
  = Script (st_set_page_config "Airbnb Listings Dashboard" "wide"
            :: st_success "Data loaded successfully!"
            :: l ++ [st_title "Airbnb Listings Dashboard";
                     st_markdown "Explore key metrics and distributions of Airbnb listings using this interactive dashboard.";
                     st_warning empty_warning]) Stopped.
Proof.
  intros Hload Hfilter Hempty. unfold dashboard, guarded_load.
  rewrite Hload. cbn -[filter_stage charts empty]. rewrite Hfilter.
  cbn -[charts empty]. rewrite Hempty. cbn -[charts]. done.
Qed.

(** C5: an empty group selection or an empty room-type selection leaves
    no row; and whenever the filtered table is empty the run shows the
    empty-result warning and halts without building any chart. *)
Theorem empty_selection_halts file ui df l e :
  load_data file = Ok df ->
  filter_stage df ui = Script l (Done e) ->
  (groups_widget ui = Some [] \/ room_types_widget ui = Some [] ->
     nrows (filtered_data e) = 0%nat /\ empty (filtered_data e) = true)
  /\ (empty (filtered_data e) = true ->
        ending (dashboard file ui) = Stopped
        /\ last (log (dashboard file ui)) = Some (st_warning empty_warning)
        /\ Forall (fun ev => is_chart ev = false) (log (dashboard file ui))).
Proof.
  intros Hload Hfilter. split.
  - apply filter_stage_done in Hfilter as (gs & rs & Hgs & Hrs & -> & _).
    cbn zeta in *. intros Hsel.
    assert (Hidx : index (frame_mask (frame_mask df (isin gs (default (unique gs) (groups_widget ui))))
                   (isin rs (default (unique rs) (room_types_widget ui)))) = []).
    { destruct Hsel as [-> | ->]; simpl.
      - rewrite (bool_index_all_false (isin gs [])) by apply isin_nil.
        by rewrite bool_index_nil_r.
      - apply bool_index_all_false, isin_nil. }
    unfold nrows, empty. simpl filtered_data. rewrite Hidx. done.
  - intros Hempty. rewrite (dashboard_empty _ _ _ _ _ Hload Hfilter Hempty).
    apply filter_stage_done in Hfilter as (gs & rs & _ & _ & _ & ->).
    split_and!; [done|done|]. repeat constructor.
Qed.

(** ** Rounding to binary64 *)

(** *** Powers of two *)

Lemma pow2_pos e : (0 < 2 ^ e)%Q.
Proof. by apply Qpower_0_lt. Qed.

Lemma pow2_le a b : a <= b -> (2 ^ a <= 2 ^ b)%Q.
Proof. intros H. by apply Qpower_le_compat_l. Qed.

Lemma pow2_lt a b : a < b -> (2 ^ a < 2 ^ b)%Q.
Proof. intros H. by apply Qpower_lt_compat_l. Qed.

Lemma pow2_plus a b : (2 ^ (a + b) == 2 ^ a * 2 ^ b)%Q.
Proof. by apply Qpower_plus. Qed.

Lemma pow2_succ a : (2 ^ (a + 1) == 2 * 2 ^ a)%Q.
Proof. rewrite pow2_plus. change (2 ^ 1)%Q with 2%Q. ring. Qed.

Lemma pow2_inject a : 0 <= a -> (inject_Z (2 ^ a) == 2 ^ a)%Q.
Proof. intros H. by rewrite Zpower_Qpower. Qed.

(** *** The nearest integer *)

Lemma nearest_even_floor x :
  Float.nearest_even x = Qfloor x \/ Float.nearest_even x = Qfloor x + 1.
Proof.
  unfold Float.nearest_even. destruct (_ ?= _)%Q; [|auto..].
  destruct (Z.even _); auto.
Qed.

Lemma nearest_even_half x :
  (Qabs (x - inject_Z (Float.nearest_even x)) <= 1 # 2)%Q.
Proof.
  unfold Float.nearest_even.
  pose proof (Qfloor_le x) as Hlo. pose proof (Qlt_floor x) as Hhi.
  rewrite inject_Z_plus in Hhi. change (inject_Z 1) with 1%Q in Hhi.
  destruct (_ ?= _)%Q eqn:E.
  - apply Qeq_alt in E.
    destruct (Z.even _); rewrite ?inject_Z_plus; change (inject_Z 1) with 1%Q;
      apply Qabs_case; intros; lra.
  - apply Qlt_alt in E. apply Qabs_case; intros; lra.
  - apply Qgt_alt in E. rewrite inject_Z_plus. change (inject_Z 1) with 1%Q.
    apply Qabs_case; intros; lra.
Qed.

Lemma nearest_even_tie x :
  (x - inject_Z (Float.nearest_even x) == 1 # 2)%Q ->
  Z.even (Float.nearest_even x) = true.
Proof.
  unfold Float.nearest_even.
  pose proof (Qlt_floor x) as Hhi.
  rewrite inject_Z_plus in Hhi. change (inject_Z 1) with 1%Q in Hhi.
  destruct (_ ?= _)%Q eqn:E.
  - apply Qeq_alt in E. destruct (Z.even (Qfloor x)) eqn:Ev; [done|].
    rewrite inject_Z_plus. change (inject_Z 1) with 1%Q. intros H. lra.
  - apply Qlt_alt in E. intros H. lra.
  - rewrite inject_Z_plus. change (inject_Z 1) with 1%Q. intros H. lra.
Qed.

Lemma integer_beside (k f : Z) :
  (inject_Z k <= inject_Z f \/ inject_Z f + 1 <= inject_Z k)%Q.
Proof.
  destruct (Z_le_gt_dec k f) as [H|H].
  - left. by rewrite <- Zle_Qle.
  - right. change 1%Q with (inject_Z 1). rewrite <- inject_Z_plus, <- Zle_Qle. lia.
Qed.

Lemma nearest_even_nearest x k :
  (Qabs (x - inject_Z (Float.nearest_even x)) <= Qabs (x - inject_Z k))%Q.
Proof.
  unfold Float.nearest_even.
  pose proof (Qfloor_le x) as Hlo. pose proof (Qlt_floor x) as Hhi.
  rewrite inject_Z_plus in Hhi. change (inject_Z 1) with 1%Q in Hhi.
  pose proof (integer_beside k (Qfloor x)) as Hk.
  destruct (_ ?= _)%Q eqn:E.
  - apply Qeq_alt in E.
    destruct (Z.even _); rewrite ?inject_Z_plus; change (inject_Z 1) with 1%Q;
      destruct Hk; apply Qabs_case; intros ?; apply Qabs_case; intros; lra.
  - apply Qlt_alt in E.
    destruct Hk; apply Qabs_case; intros ?; apply Qabs_case; intros; lra.
  - apply Qgt_alt in E. rewrite inject_Z_plus. change (inject_Z 1) with 1%Q.
    destruct Hk; apply Qabs_case; intros ?; apply Qabs_case; intros; lra.
Qed.

Lemma nearest_even_le x k : (x <= inject_Z k)%Q -> Float.nearest_even x <= k.
Proof.
  intros Hx. pose proof (nearest_even_nearest x k) as H.
  pose proof (nearest_even_half x) as Hhalf.
  destruct (Z_le_gt_dec (Float.nearest_even x) k) as [|Hgt]; [done|exfalso].
  assert (Hm : (inject_Z k + 1 <= inject_Z (Float.nearest_even x))%Q).
  { change 1%Q with (inject_Z 1). rewrite <- inject_Z_plus, <- Zle_Qle. lia. }
  revert Hhalf. apply Qabs_case; intros; lra.
Qed.

Lemma nearest_even_ge x k : (inject_Z k <= x)%Q -> k <= Float.nearest_even x.
Proof.
  intros Hx. pose proof (nearest_even_half x) as Hhalf.
  destruct (Z_le_gt_dec k (Float.nearest_even x)) as [|Hgt]; [done|exfalso].
  assert (Hm : (inject_Z (Float.nearest_even x) + 1 <= inject_Z k)%Q).
  { change 1%Q with (inject_Z 1). rewrite <- inject_Z_plus, <- Zle_Qle. lia. }
  revert Hhalf. apply Qabs_case; intros; lra.
Qed.

(** *** The binary logarithm *)

Lemma ilog2_spec x :
  (0 < x)%Q ->
  (2 ^ Float.ilog2 x <= x)%Q /\ (x < 2 ^ (Float.ilog2 x + 1))%Q.
Proof.
  destruct x as [n d]. intros Hx.
  assert (Hn : 0 < n) by (unfold Qlt in Hx; simpl in Hx; lia).
  unfold Float.ilog2. cbn [Qnum Qden].
  set (a := Z.log2 n). set (b := Z.log2 (Z.pos d)).
  destruct (Z.log2_spec n Hn) as [Ha1 Ha2]. fold a in Ha1; fold a in Ha2.
  destruct (Z.log2_spec (Z.pos d) eq_refl) as [Hb1 Hb2]. fold b in Hb1; fold b in Hb2.
  assert (Ha0 : 0 <= a) by apply Z.log2_nonneg.
  assert (Hb0 : 0 <= b) by apply Z.log2_nonneg.
  rewrite Zle_Qle in Ha1; rewrite Zle_Qle in Hb1.
  rewrite Zlt_Qlt in Ha2; rewrite Zlt_Qlt in Hb2.
  replace (Z.succ a) with (a + 1) in Ha2 by lia.
  replace (Z.succ b) with (b + 1) in Hb2 by lia.
  rewrite pow2_inject in Ha1 by lia. rewrite pow2_inject in Hb1 by lia.
  rewrite pow2_inject, pow2_succ in Ha2 by lia.
  rewrite pow2_inject, pow2_succ in Hb2 by lia.
  pose proof (pow2_pos a) as HA. pose proof (pow2_pos b) as HB.
  pose proof (pow2_pos (a - b)) as HK.
  assert (HKB : (2 ^ (a - b) * 2 ^ b == 2 ^ a)%Q).
  { rewrite <- pow2_plus. by replace (a - b + b) with a by lia. }
  assert (Hxd : ((n # d) * inject_Z (Z.pos d) == inject_Z n)%Q).
  { rewrite (Qmake_Qdiv n d). field. done. }
  revert Ha1 Ha2 Hb1 Hb2 HA HB HK HKB Hxd Hx.
  generalize (2 ^ a)%Q (2 ^ b)%Q (inject_Z n) (inject_Z (Z.pos d)).
  intros A B N D Ha1 Ha2 Hb1 Hb2 HA HB HK HKB Hxd Hx.
  destruct (_ ?= _)%Q eqn:E.
  - apply Qeq_alt in E. rewrite pow2_succ. split; [lra|]. nra.
  - apply Qlt_alt in E. replace (a - b - 1 + 1) with (a - b) by lia.
    split; [|done].
    assert (H2 : (2 * 2 ^ (a - b - 1) == 2 ^ (a - b))%Q).
    { rewrite <- pow2_succ. by replace (a - b - 1 + 1) with (a - b) by lia. }
    nra.
  - apply Qgt_alt in E. rewrite pow2_succ. split; [lra|]. nra.
Qed.

(** *** Scaling to the significand *)

Lemma scaled_bounds x :
  (0 < x)%Q ->
  let e := Z.max (Float.ilog2 x - 52) (-1074) in
  let y := (x / 2 ^ e)%Q in
  (x == y * 2 ^ e)%Q /\ (0 < y)%Q /\ (y < 2 ^ 53)%Q
  /\ (-1074 < e -> (2 ^ 52 <= y)%Q /\ (2 ^ (e + 52) <= x)%Q).
Proof.
  intros Hx e y. destruct (ilog2_spec x Hx) as [Hlo Hhi].
  pose proof (pow2_pos e) as He.
  assert (Hxy : (x == y * 2 ^ e)%Q) by (unfold y; field; lra).
  assert (Hup : (2 ^ (Float.ilog2 x + 1) <= 2 ^ e * 2 ^ 53)%Q).
  { rewrite <- pow2_plus. apply pow2_le. lia. }
  split_and!; [done| | |].
  - nra.
  - nra.
  - intros Hn. assert (Heq : Float.ilog2 x = e + 52) by lia.
    rewrite Heq in Hlo. split; [|done].
    rewrite pow2_plus in Hlo. nra.
Qed.

(** *** Rounding *)

Lemma binary64_proper q q' : (q == q')%Q -> binary64 q -> binary64 q'.
Proof. intros Hq (m & e & Hm & He & Hv). exists m, e. by rewrite <- Hq. Qed.

Lemma Qabs_scale a b c :
  (0 < c)%Q -> (Qabs a <= Qabs b)%Q -> (Qabs (a * c) <= Qabs (b * c))%Q.
Proof.
  intros Hc H. rewrite !Qabs_Qmult, (Qabs_pos c) by lra.
  apply Qmult_le_compat_r; [done | lra].
Qed.

(** Every multiple of [2^e] is at least as far from [x] as the rounded
    significand times [2^e]. *)
Lemma nearest_multiple x e k :
  (0 < x)%Q ->
  (Qabs (x - inject_Z (Float.nearest_even (x / 2 ^ e)) * 2 ^ e)
   <= Qabs (x - inject_Z k * 2 ^ e))%Q.
Proof.
  intros Hx. pose proof (pow2_pos e) as He.
  set (y := (x / 2 ^ e)%Q).
  assert (Hxy : (x == y * 2 ^ e)%Q) by (unfold y; field; lra).
  rewrite Hxy at 1 2.
  assert (E : forall a : Q, (y * 2 ^ e - a * 2 ^ e == (y - a) * 2 ^ e)%Q)
    by (intros a; ring).
  rewrite !E.
  apply Qabs_scale; [done | apply nearest_even_nearest].
Qed.

Lemma binary64_bound r :
  binary64 r -> (Qabs r <= 2 ^ 1024 - 2 ^ 971)%Q.
Proof.
  intros (m & e & Hm & He & ->).
  pose proof (pow2_pos e) as Hpe.
  rewrite Qabs_Qmult, (Qabs_pos (2 ^ e)) by lra.
  assert (Hm' : (Qabs (inject_Z m) <= inject_Z (2 ^ 53 - 1))%Q).
  { apply Qabs_case; intros _; [|rewrite <- inject_Z_opp];
      rewrite <- Zle_Qle; lia. }
  assert (Hpe' : (2 ^ e <= 2 ^ 971)%Q) by (apply pow2_le; lia).
  assert (Hm0 : (0 <= Qabs (inject_Z m))%Q) by apply Qabs_nonneg.
  assert (Hc : (inject_Z (2 ^ 53 - 1) * 2 ^ 971 == 2 ^ 1024 - 2 ^ 971)%Q)
    by reflexivity.
  rewrite <- Hc.
  assert (H53 : (0 <= inject_Z (2 ^ 53 - 1))%Q) by (by apply Qle_bool_iff).
  revert Hm' Hpe' Hm0 H53 Hpe.
  generalize (Qabs (inject_Z m)) (inject_Z (2 ^ 53 - 1)) (2 ^ e)%Q (2 ^ 971)%Q.
  intros. nra.
Qed.

Lemma this_of_Q r : (this (Q2Qc (Qred r)) == r)%Q.
Proof. simpl. by rewrite !Qred_correct. Qed.

Lemma round_pos_nearest x : (0 < x)%Q -> nearest x (Float.round_pos x).
Proof.
  intros Hx. unfold Float.round_pos.
  destruct (scaled_bounds x Hx) as (Hxy & Hy0 & Hy53 & Hnormal).
  pose proof (nearest_multiple x (Z.max (Float.ilog2 x - 52) (-1074))) as Hnear.
  set (e := Z.max (Float.ilog2 x - 52) (-1074)) in *.
  set (y := (x / 2 ^ e)%Q) in *.
  pose proof (nearest_even_half y) as Hhalf.
  set (m := Float.nearest_even y) in *.
  assert (He : -1074 <= e) by lia.
  pose proof (pow2_pos e) as Hpe.
  assert (Hm0 : 0 <= m).
  { apply nearest_even_ge. change (inject_Z 0) with 0%Q. lra. }
  assert (Hm53 : m <= 2 ^ 53).
  { apply nearest_even_le. rewrite pow2_inject by done. lra. }
  destruct (Qle_bool _ _) eqn:Eov.
  - apply Qle_bool_iff in Eov. change (2 ^ 1024 - 2 ^ 970 <= x)%Q.
    destruct (Z_le_gt_dec e 971) as [Hle|Hgt].
    + assert (Hp : (2 ^ e <= 2 ^ 971)%Q) by (by apply pow2_le).
      assert (Hc : (2 ^ 971 == 2 * 2 ^ 970)%Q) by reflexivity.
      assert (Hlow : (inject_Z m - (1 # 2) <= y)%Q).
      { revert Hhalf. apply Qabs_case; intros; lra. }
      assert (Hprod : (0 <= (y - (inject_Z m - (1 # 2))) * 2 ^ e)%Q).
      { apply Qmult_le_0_compat; lra. }
      clear Hnear Hnormal Hhalf. clearbody y m.
      revert Hxy Hprod Hp Hc Eov Hpe.
      generalize (2 ^ e)%Q (2 ^ 971)%Q (2 ^ 970)%Q (2 ^ 1024)%Q (inject_Z m).
      intros E P971 P970 P1024 M. intros. lra.
    + destruct Hnormal as [_ Hlow]; [lia|].
      assert (Hp : (2 ^ 1024 <= 2 ^ (e + 52))%Q) by (apply pow2_le; lia).
      assert (H970 : (0 < 2 ^ 970)%Q) by apply pow2_pos.
      lra.
  - assert (Hr : (inject_Z m * 2 ^ e < 2 ^ 1024)%Q).
    { apply Qnot_le_lt. intros H%Qle_bool_iff. congruence. }
    clear Eov. unfold Float.of_Q, nearest.
    assert (He971 : e <= 971).
    { destruct (Z_le_gt_dec e 971) as [|Hgt]; [done|exfalso].
      destruct Hnormal as [Hlow _]; [lia|].
      assert (Hm52 : 2 ^ 52 <= m).
      { apply nearest_even_ge. rewrite pow2_inject by done. done. }
      rewrite Zle_Qle in Hm52.
      assert (Hp : (2 ^ 972 <= 2 ^ e)%Q) by (apply pow2_le; lia).
      assert (Hc : (inject_Z (2 ^ 52) * 2 ^ 972 == 2 ^ 1024)%Q) by reflexivity.
      assert (H52 : (0 < inject_Z (2 ^ 52))%Q) by reflexivity.
      revert Hr Hp Hc H52 Hm52 Hpe.
      generalize (2 ^ e)%Q (2 ^ 972)%Q (2 ^ 1024)%Q (inject_Z (2 ^ 52)) (inject_Z m).
      intros. nra. }
    assert (Hb : binary64 (inject_Z m * 2 ^ e)).
    { destruct (Z.eq_dec m (2 ^ 53)) as [Hm|Hm].
      - exists (2 ^ 52), (e + 1). split; [done|].
        assert (e + 1 <= 971).
        { destruct (Z_le_gt_dec (e + 1) 971) as [|Hgt]; [done|exfalso].
          assert (Hp : (2 ^ 971 <= 2 ^ e)%Q) by (apply pow2_le; lia).
          rewrite Hm in Hr.
          assert (Hc : (inject_Z (2 ^ 53) * 2 ^ 971 == 2 ^ 1024)%Q) by reflexivity.
          assert (H53 : (0 < inject_Z (2 ^ 53))%Q) by reflexivity.
          revert Hr Hp Hc H53.
          generalize (2 ^ e)%Q (2 ^ 971)%Q (2 ^ 1024)%Q (inject_Z (2 ^ 53)).
          intros. nra. }
        split; [lia|]. rewrite Hm, pow2_succ.
        assert (Hc : (inject_Z (2 ^ 53) == 2 * inject_Z (2 ^ 52))%Q) by reflexivity.
        rewrite Hc. ring.
      - exists m, e. split; [lia|]. by split. }
    split.
    { eapply binary64_proper; [|exact Hb]. by rewrite this_of_Q. }
    split.
    { rewrite Qabs_pos by lra. apply Qnot_le_lt. intros Hbig.
      destruct (Z_le_gt_dec e 970) as [Hle|Hgt].
      - assert (Hp : (2 ^ e <= 2 ^ 970)%Q) by (by apply pow2_le).
        assert (Hc : (2 ^ 53 * 2 ^ 970 < 2 ^ 1024 - 2 ^ 970)%Q) by reflexivity.
        assert (Hprod : (y * 2 ^ e <= 2 ^ 53 * 2 ^ 970)%Q).
        { assert (H53 : (0 < 2 ^ 53)%Q) by reflexivity.
          revert Hy0 Hy53 Hp Hpe H53.
          generalize (2 ^ e)%Q (2 ^ 970)%Q (2 ^ 53)%Q. intros. nra. }
        lra.
      - assert (e = 971) as Heq by lia. clearbody e. subst e.
        assert (Hc : (inject_Z (2 ^ 53) * 2 ^ 971 == 2 ^ 1024)%Q) by reflexivity.
        assert (Hc' : ((inject_Z (2 ^ 53) - (1 # 2)) * 2 ^ 971
                       == 2 ^ 1024 - 2 ^ 970)%Q) by reflexivity.
        assert (Hm' : (inject_Z m < inject_Z (2 ^ 53))%Q).
        { revert Hr Hc Hpe.
          generalize (2 ^ 971)%Q (2 ^ 1024)%Q (inject_Z (2 ^ 53)) (inject_Z m).
          intros. nra. }
        rewrite <- Zlt_Qlt in Hm'.
        assert (Hy : (inject_Z (2 ^ 53) - (1 # 2) <= y)%Q).
        { revert Hbig Hxy Hc' Hpe. clearbody y.
          generalize (2 ^ 971)%Q (2 ^ 1024 - 2 ^ 970)%Q (inject_Z (2 ^ 53)).
          intros. nra. }
        assert (Hm1 : 2 ^ 53 <= m + 1).
        { rewrite Zle_Qle, inject_Z_plus. change (inject_Z 1) with 1%Q.
          revert Hhalf. apply Qabs_case; intros; lra. }
        assert (Hmeq : m = 2 ^ 53 - 1) by lia.
        assert (Hq : (inject_Z m + 1 == inject_Z (2 ^ 53))%Q).
        { change 1%Q with (inject_Z 1). rewrite <- inject_Z_plus.
          by replace (m + 1) with (2 ^ 53) by lia. }
        assert (Htie : (y - inject_Z m == 1 # 2)%Q).
        { revert Hhalf. apply Qabs_case; intros; lra. }
        apply nearest_even_tie in Htie. fold m in Htie. rewrite Hmeq in Htie.
        discriminate Htie. }
    intros r' Hr'. rewrite this_of_Q.
    destruct Hr' as (m' & e' & Hm' & He' & Hv').
    destruct (Z_le_gt_dec e e') as [Hee|Hee].
    + rewrite Hv'.
      assert (Hk : (inject_Z m' * 2 ^ e' == inject_Z (m' * 2 ^ (e' - e)) * 2 ^ e)%Q).
      { rewrite inject_Z_mult, pow2_inject by lia.
        rewrite <- Qmult_assoc, <- pow2_plus.
        by replace (e' - e + e) with e' by lia. }
      rewrite Hk. apply Hnear. done.
    + destruct Hnormal as [Hlow _]; [lia|].
      eapply Qle_trans; [apply (Hnear (2 ^ 52)); done|].
      rewrite Hv'.
      assert (Hb' : (inject_Z m' * 2 ^ e' < inject_Z (2 ^ 52) * 2 ^ e)%Q).
      { assert (Hp : (2 * 2 ^ e' <= 2 ^ e)%Q).
        { rewrite <- pow2_succ. apply pow2_le. lia. }
        assert (Hm53' : (inject_Z m' < 2 * inject_Z (2 ^ 52))%Q).
        { change 2%Q with (inject_Z 2). rewrite <- inject_Z_mult, <- Zlt_Qlt. lia. }
        pose proof (pow2_pos e') as Hpe'.
        assert (H52 : (0 < inject_Z (2 ^ 52))%Q) by reflexivity.
        revert Hp Hm53' Hpe' H52.
        generalize (2 ^ e)%Q (2 ^ e')%Q (inject_Z (2 ^ 52)) (inject_Z m').
        intros. nra. }
      assert (Hx52 : (inject_Z (2 ^ 52) * 2 ^ e <= x)%Q).
      { rewrite pow2_inject by done. rewrite Hxy. nra. }
      apply Qabs_case; intros ?; apply Qabs_case; intros; lra.
Qed.

Lemma nearest_proper v v' f : (v == v')%Q -> nearest v f -> nearest v' f.
Proof.
  intros Hv. destruct f as [r| | |]; unfold nearest; [|by rewrite Hv..|done].
  intros (Hb & Hlt & Hnear). split; [done|]. split; [by rewrite <- Hv|].
  intros r' Hr'. rewrite <- Hv. by apply Hnear.
Qed.

Lemma binary64_opp r : binary64 r -> binary64 (- r).
Proof.
  intros (m & e & Hm & He & Hv). exists (- m), e. split; [lia|]. split; [done|].
  rewrite Hv, inject_Z_opp. ring.
Qed.

Lemma nearest_neg v f : nearest v f -> nearest (- v) (Float.neg f).
Proof.
  destruct f as [r| | |]; unfold nearest, Float.neg; [| | |done].
  - intros (Hb & Hlt & Hnear).
    assert (Hr : (this (- r)%Qc == - this r)%Q).
    { unfold Qcopp. cbn [this Q2Qc]. apply Qred_correct. }
    split; [eapply binary64_proper; [symmetry; exact Hr | by apply binary64_opp]|].
    split; [by rewrite Qabs_opp|].
    intros r' Hr'. rewrite Hr.
    assert (E1 : (- v - - r == - (v - r))%Q) by ring.
    assert (E2 : (- v - r' == - (v - - r'))%Q) by ring.
    rewrite E1, E2, !Qabs_opp. apply Hnear. by apply binary64_opp.
  - intros H. lra.
  - intros H. lra.
Qed.

Lemma binary64_0 : binary64 0.
Proof. exists 0, 0. split; [done|]. split; [lia|]. reflexivity. Qed.

(** [round] gives the float64 nearest to the rational; beyond the
    largest, an infinity. *)
Lemma round_nearest v : nearest v (Float.round v).
Proof.
  unfold Float.round. destruct (v ?= 0)%Q eqn:E.
  - apply Qeq_alt in E. apply (nearest_proper 0); [by symmetry|].
    unfold Float.of_Z, nearest. split; [apply binary64_0|]. split; [reflexivity|].
    intros r' _. apply Qabs_nonneg.
  - apply Qlt_alt in E. apply (nearest_proper (- - v)); [ring|].
    apply nearest_neg, round_pos_nearest. lra.
  - apply Qgt_alt in E. by apply round_pos_nearest.
Qed.

(** A float64 number is its own nearest. *)
Lemma nearest_exact v f : nearest v f -> binary64 v -> f = Fin (Q2Qc v).
Proof.
  intros Hf Hv. pose proof (binary64_bound v Hv) as Hbound.
  assert (Hc : (2 ^ 1024 - 2 ^ 971 < 2 ^ 1024 - 2 ^ 970)%Q) by reflexivity.
  destruct f as [r| | |]; unfold nearest in Hf.
  - destruct Hf as (_ & _ & Hnear). f_equal. apply Qc_is_canon.
    cbn [this Q2Qc]. rewrite Qred_correct.
    specialize (Hnear v Hv). revert Hnear.
    assert (E : (v - v == 0)%Q) by ring. rewrite E.
    change (Qabs 0) with 0%Q. apply Qabs_case; intros; lra.
  - revert Hbound. apply Qabs_case; intros; lra.
  - revert Hbound. apply Qabs_case; intros; lra.
  - done.
Qed.

(** ** The float parser on currency text *)

Lemma append_cons x (a b : string) : String x a +:+ b = String x (a +:+ b).
Proof. done. Qed.

Lemma append_empty_l (a : string) : "" +:+ a = a.
Proof. done. Qed.

Lemma append_assoc (a b c : string) : (a +:+ b) +:+ c = a +:+ (b +:+ c).
Proof.
  induction a as [|x a IH]; [done|]. by rewrite !append_cons, IH.
Qed.

Lemma append_empty_r (a : string) : a +:+ "" = a.
Proof. induction a as [|x a IH]; [done|]. by rewrite append_cons, IH. Qed.

Lemma replace_append old new (a b : string) :
  Text.replace old new (a +:+ b)
  = Text.replace old new a +:+ Text.replace old new b.
Proof.
  induction a as [|x a IH]; [done|].
  rewrite append_cons. simpl.
  destruct (Ascii.eqb x old); rewrite IH; [by rewrite append_assoc | done].
Qed.

Lemma digits_text_app (a b : list digit) :
  digits_text (a ++ b) = digits_text a +:+ digits_text b.
Proof. induction a as [|x a IH]; [done|]. simpl. by rewrite IH. Qed.

Lemma replace_dollar_digits ds :
  Text.replace "$" "" (digits_text ds) = digits_text ds.
Proof. induction ds as [|d ds IH]; simpl; [done|]. rewrite IH. by destruct d. Qed.

Lemma replace_comma_digits ds :
  Text.replace "," "" (digits_text ds) = digits_text ds.
Proof. induction ds as [|d ds IH]; simpl; [done|]. rewrite IH. by destruct d. Qed.

Lemma replace_dollar_groups gs :
  Text.replace "$" "" (groups_text gs) = groups_text gs.
Proof.
  induction gs as [|g [|g' gs] IH]; [done | apply replace_dollar_digits |].
  change (groups_text (g :: g' :: gs))
    with (digits_text g +:+ "," +:+ groups_text (g' :: gs)).
  by rewrite !replace_append, replace_dollar_digits, IH.
Qed.

Lemma replace_comma_groups gs :
  Text.replace "," "" (groups_text gs) = digits_text (concat gs).
Proof.
  induction gs as [|g [|g' gs] IH]; [done | |].
  - simpl. by rewrite app_nil_r, replace_comma_digits.
  - change (groups_text (g :: g' :: gs))
      with (digits_text g +:+ "," +:+ groups_text (g' :: gs)).
    rewrite !replace_append, replace_comma_digits, IH.
    change (concat (g :: g' :: gs)) with (g ++ concat (g' :: gs)).
    by rewrite digits_text_app.
Qed.

Lemma strip_currency_text a :
  strip_currency (currency_text a)
  = digits_text (concat (groups a)) +:+ fraction_text (cents a).
Proof.
  unfold strip_currency, currency_text.
  rewrite !replace_append, replace_dollar_groups, replace_comma_groups.
  change (Text.replace "," "" (Text.replace "$" "" "$")) with EmptyString.
  rewrite append_empty_l. f_equal.
  destruct (cents a) as [c|]; [|done].
  rewrite !replace_append, replace_dollar_digits.
  change (Text.replace "$" "" ".") with ".".
  by rewrite replace_comma_digits.
Qed.

(** *** Scanning digits *)

Lemma digit_of_char d : Float.digit_of (digit_char d) = Some (digit_val d).
Proof. by destruct d. Qed.

Lemma scan_more_digits ds rest :
  ends_digits rest ->
  Float.scan_more (digits_text ds +:+ rest) = (digit_val <$> ds, rest).
Proof.
  intros Hrest. induction ds as [|d ds IH].
  - rewrite append_empty_l. destruct rest as [|c r]; [done|].
    destruct Hrest as [Hd Hu]. simpl. by rewrite Hd, Hu.
  - simpl digits_text. rewrite append_cons. simpl.
    by rewrite digit_of_char, IH.
Qed.

Lemma scan_digitpart_digits ds rest :
  ends_digits rest ->
  Float.scan_digitpart (digits_text ds +:+ rest) = (digit_val <$> ds, rest).
Proof.
  intros Hrest. destruct ds as [|d ds].
  - rewrite append_empty_l. destruct rest as [|c r]; [done|].
    destruct Hrest as [Hd Hu]. simpl. by rewrite Hd.
  - simpl digits_text. rewrite append_cons. unfold Float.scan_digitpart.
    by rewrite digit_of_char, scan_more_digits.
Qed.

Lemma digits_value_snoc ds d :
  Float.digits_value (ds ++ [d]) = 10 * Float.digits_value ds + d.
Proof. unfold Float.digits_value. by rewrite fold_left_app. Qed.

Lemma fold_digits_from acc ds :
  fold_left (fun a d => 10 * a + d) (digit_val <$> ds) acc
  = acc * 10 ^ Z.of_nat (length ds) + number_of ds.
Proof.
  revert acc. induction ds as [|d ds IH]; intros acc.
  - simpl. lia.
  - cbn [fmap list_fmap fold_left number_of length]. rewrite IH.
    rewrite Nat2Z.inj_succ, Z.pow_succ_r by lia. lia.
Qed.

Lemma digits_value_number ds :
  Float.digits_value (digit_val <$> ds) = number_of ds.
Proof. unfold Float.digits_value. rewrite fold_digits_from. lia. Qed.

Lemma digits_value_number_app a b :
  Float.digits_value (digit_val <$> (a ++ b))
  = number_of a * 10 ^ Z.of_nat (length b) + number_of b.
Proof.
  unfold Float.digits_value. rewrite fmap_app, fold_left_app.
  rewrite fold_digits_from. change (fold_left _ (digit_val <$> a) 0)
    with (Float.digits_value (digit_val <$> a)).
  by rewrite digits_value_number.
Qed.

(** *** White space *)

(** What [float] strips, [str.strip] strips. *)
Lemma is_space_text c : Text.is_space c = false -> Float.is_space c = false.
Proof. by destruct c as [[] [] [] [] [] [] [] []]. Qed.

Lemma strip_no_space s : no_space s = true -> Float.strip s = s.
Proof.
  intros H. unfold Float.strip.
  assert (Float.lstrip s = s) as ->.
  { destruct s as [|c r]; [done|]. simpl in *.
    apply andb_true_iff in H as [Hc _]. apply negb_true_iff in Hc.
    by rewrite (is_space_text c Hc). }
  induction s as [|c r IH]; [done|]. simpl in *.
  apply andb_true_iff in H as [Hc Hr]. rewrite (IH Hr).
  apply negb_true_iff in Hc. by rewrite (is_space_text c Hc).
Qed.

Lemma no_space_append a b :
  no_space (a +:+ b) = no_space a && no_space b.
Proof.
  induction a as [|c a IH]; [done|]. rewrite append_cons. simpl.
  by rewrite IH, andb_assoc.
Qed.

Lemma no_space_digits ds : no_space (digits_text ds) = true.
Proof. induction ds as [|d ds IH]; [done|]. simpl. rewrite IH. by destruct d. Qed.

Lemma no_space_fraction c : no_space (fraction_text c) = true.
Proof.
  destruct c as [c|]; [|done]. unfold fraction_text.
  rewrite no_space_append, no_space_digits. done.
Qed.

(** *** The number *)

Lemma scale10_neg m k :
  (this (Float.scale10 m (- Z.of_nat k))
   == inject_Z m / inject_Z (10 ^ Z.of_nat k))%Q.
Proof.
  unfold Float.scale10. destruct k as [|k].
  - change (Z.of_nat 0) with 0. change (- 0) with 0.
    change (0 <=? 0) with true. cbn iota.
    rewrite !Z.pow_0_r, Z.mul_1_r. unfold Q2Qc. cbn [this].
    rewrite Qred_correct. change (inject_Z 1) with 1%Q. field.
  - assert (Hpos : 0 < 10 ^ Z.of_nat (S k)) by (apply Z.pow_pos_nonneg; lia).
    destruct (0 <=? - Z.of_nat (S k)) eqn:E; [apply Z.leb_le in E; lia|].
    rewrite Z.opp_involutive. unfold Q2Qc. cbn [this].
    rewrite Qred_correct, Qmake_Qdiv, Z2Pos.id by done. reflexivity.
Qed.

Lemma parse_number_currency a :
  has_digit a ->
  exists q : Qc,
    Float.parse_number
      (digits_text (concat (groups a)) +:+ fraction_text (cents a))
    = Some (Float.round q)
    /\ (this q == currency_value a)%Q.
Proof.
  destruct a as [gs c]. unfold has_digit, currency_value. simpl.
  set (ip := concat gs). intros Hne. unfold Float.parse_number.
  destruct c as [f|]; simpl fraction_text.
  - rewrite scan_digitpart_digits by done.
    change ("." +:+ digits_text f) with (String "." (digits_text f)).
    cbn iota beta. change (Ascii.eqb "." ".") with true. cbn iota.
    rewrite <- (append_empty_r (digits_text f)).
    rewrite scan_digitpart_digits by done.
    rewrite <- fmap_app.
    destruct (digit_val <$> ip ++ f) as [|z zs] eqn:E.
    { apply fmap_nil_inv in E. simpl in Hne. done. }
    rewrite <- E. simpl Float.scan_exponent. cbn iota.
    rewrite length_fmap. eexists. split; [done|].
    rewrite Z.sub_0_l, scale10_neg, digits_value_number_app.
    assert (Hpos : 0 < 10 ^ Z.of_nat (length f)) by (apply Z.pow_pos_nonneg; lia).
    rewrite inject_Z_plus, inject_Z_mult. field.
    intros H. unfold Qeq in H. simpl in H. lia.
  - rewrite scan_digitpart_digits by done. cbn iota beta.
    rewrite app_nil_r.
    destruct (digit_val <$> ip) as [|z zs] eqn:E.
    { apply fmap_nil_inv in E. simpl in Hne. rewrite app_nil_r in Hne. done. }
    rewrite <- E. simpl Float.scan_exponent. cbn iota.
    eexists. split; [done|].
    change (0 - Z.of_nat (length (@nil Z))) with (- Z.of_nat 0).
    rewrite scale10_neg, digits_value_number. change (inject_Z (10 ^ Z.of_nat 0)) with 1%Q. field.
Qed.

Lemma parse_unsigned_number c r :
  starts_number c ->
  Float.parse_unsigned (String c r) = Float.parse_number (String c r).
Proof.
  intros [-> | [d ->]]; unfold Float.parse_unsigned; [done|].
  by destruct d.
Qed.

Lemma of_string_number c r :
  starts_number c ->
  no_space (String c r) = true ->
  Float.of_string (String c r) = Float.parse_number (String c r).
Proof.
  intros Hc Hs. unfold Float.of_string. rewrite (strip_no_space _ Hs).
  rewrite <- (parse_unsigned_number c r Hc).
  destruct Hc as [-> | [d ->]]; [done | by destruct d].
Qed.

Lemma currency_digits_start a :
  has_digit a ->
  exists c r,
    digits_text (concat (groups a)) +:+ fraction_text (cents a) = String c r
    /\ starts_number c.
Proof.
  destruct a as [gs c]. unfold has_digit. simpl.
  destruct (concat gs) as [|d ip].
  - destruct c as [f|]; [|done]. intros _. exists "."%char, (digits_text f).
    split; [done | by left].
  - intros _. eexists _, _. split; [done|]. right. by exists d.
Qed.

Lemma of_string_currency a :
  has_digit a ->
  exists q : Qc,
    Float.of_string (strip_currency (currency_text a)) = Some (Float.round q)
    /\ (this q == currency_value a)%Q.
Proof.
  intros Ha. destruct (parse_number_currency a Ha) as (q & Hq & Hv).
  destruct (currency_digits_start a Ha) as (c & r & Ht & Hc).
  exists q. split; [|done]. rewrite strip_currency_text.
  assert (Hs : no_space (digits_text (concat (groups a)) +:+ fraction_text (cents a)) = true).
  { by rewrite no_space_append, no_space_digits, no_space_fraction. }
  rewrite Ht in *. rewrite (of_string_number c r Hc Hs), Hq. done.
Qed.

(** *** The column *)

Lemma str_replace_currency (cells : list (option string)) :
  str_replace "," "" (str_replace "$" "" cells)
  = fmap (M := option) strip_currency <$> cells.
Proof.
  unfold str_replace. rewrite <- list_fmap_compose.
  apply list_fmap_ext. by intros _ [t|] _.
Qed.

Lemma astype_float_currency (cells : list (option amount)) :
  Forall (from_option has_digit True) cells ->
  exists fs,
    astype_float
      (fmap (M := option) strip_currency
         <$> (fmap (M := option) currency_text <$> cells)) = Ok fs
    /\ Forall2 stands_for cells fs.
Proof.
  induction 1 as [|cell cells Hcell _ (fs & Hfs & Hrel)].
  - exists []. split; [done | constructor].
  - unfold astype_float in *. rewrite !fmap_cons. cbn [map_result].
    rewrite Hfs. destruct cell as [a|]; simpl in Hcell |- *.
    + destruct (of_string_currency a Hcell) as (q & -> & Hq).
      exists (Float.round q :: fs). split; [done|]. constructor; [|done].
      apply (nearest_proper q); [done | apply round_nearest].
    + exists (NaN :: fs). split; [done|]. by constructor.
Qed.

(** ** Missing values and group means *)

Lemma Forall_bool_index_self {A} (p : A -> bool) (l : list A) :
  Forall (fun x => p x = true) (bool_index (p <$> l) l).
Proof.
  induction l as [|x l IH]; [constructor|].
  rewrite fmap_cons, bool_index_cons.
  destruct (p x) eqn:E; [by constructor | done].
Qed.

Lemma dropna_ok fd col d :
  dropna fd col = Ok d ->
  exists s, getitem fd col = Ok s
            /\ d = frame_mask fd ((fun v => negb (isna v)) <$> values s).
Proof.
  unfold dropna. destruct (getitem fd col) as [s|]; simpl; [|done].
  intros [= <-]. eauto.
Qed.

Lemma elem_of_group_keys k keys :
  k ∈ group_keys keys <-> k ∈ keys /\ isna k = false.
Proof.
  unfold group_keys, present.
  rewrite merge_sort_Permutation, elem_of_distinct, list_elem_of_filter.
  tauto.
Qed.

Lemma groupby_mean_ok fd by_ col g :
  groupby_mean fd by_ col = Ok g ->
  exists sk sv xs,
    getitem fd by_ = Ok sk /\ getitem fd col = Ok sv
    /\ numeric_values sv = Ok xs
    /\ g = (fun k => (k, mean (snd <$> filter (fun r => r.1 = k)
                                 (zip (values sk) xs))))
             <$> group_keys (values sk).
Proof.
  unfold groupby_mean.
  destruct (getitem fd by_) as [sk|]; simpl; [|done].
  destruct (getitem fd col) as [sv|]; simpl; [|done].
  destruct (numeric_values sv) as [xs|] eqn:Hxs; simpl; [|done].
  intros [= <-]. by exists sk, sv, xs.
Qed.

(** ** Counting *)

Lemma occurrences_cons {A} `{EqDecision A} (k x : A) l :
  occurrences k (x :: l)
  = ((if decide (x = k) then 1 else 0) + occurrences k l)%nat.
Proof.
  unfold occurrences. rewrite filter_cons. by destruct (decide (x = k)).
Qed.

Lemma sum_indicator {A} `{EqDecision A} (x : A) ks :
  NoDup ks -> x ∈ ks ->
  sum_list_with (fun k => if decide (x = k) then 1 else 0)%nat ks = 1%nat.
Proof.
  induction 1 as [|k ks Hk Hks IH]; [by intros ?%elem_of_nil|].
  simpl. intros [->|Hx]%elem_of_cons.
  - rewrite decide_True by done. f_equal.
    clear IH Hks. induction ks as [|k' ks IH]; [done|]. simpl.
    apply not_elem_of_cons in Hk as [Hne Hk].
    rewrite decide_False by done. by apply IH.
  - rewrite decide_False by (intros ->; done). by apply IH.
Qed.

Lemma sum_list_with_plus {A} (f g : A -> nat) l :
  sum_list_with (fun k => f k + g k)%nat l
  = (sum_list_with f l + sum_list_with g l)%nat.
Proof. induction l as [|x l IH]; simpl; lia. Qed.

Lemma sum_list_with_ext {A} (f g : A -> nat) l :
  Forall (fun k => f k = g k) l -> sum_list_with f l = sum_list_with g l.
Proof. induction 1 as [|x l Hx _ IH]; simpl; [done | by rewrite Hx, IH]. Qed.

Lemma sum_list_fmap {A} (f : A -> nat) l :
  sum_list (f <$> l) = sum_list_with f l.
Proof. induction l as [|x l IH]; [done|]. simpl in *. by f_equal. Qed.

(** Every element is counted once under its own key. *)
Lemma sum_occurrences {A} `{EqDecision A} (ks l : list A) :
  NoDup ks -> (forall x, x ∈ l -> x ∈ ks) ->
  sum_list_with (fun k => occurrences k l) ks = length l.
Proof.
  intros Hks. induction l as [|x l IH]; intros Hl.
  - clear. induction ks; simpl; auto.
  - rewrite (sum_list_with_ext _ (fun k => (if decide (x = k) then 1 else 0)
                                          + occurrences k l)%nat).
    2:{ apply Forall_forall. intros k _. apply occurrences_cons. }
    rewrite sum_list_with_plus, sum_indicator, IH; simpl; auto.
    + intros y Hy. apply Hl. by right.
    + apply Hl. by left.
Qed.

Lemma occurrences_filter {A} `{EqDecision A} (P : A -> Prop)
    `{forall x, Decision (P x)} (k : A) l :
  P k -> occurrences k (filter P l) = occurrences k l.
Proof.
  intros Hk. unfold occurrences. induction l as [|x l IH]; [done|].
  rewrite !filter_cons. destruct (decide (P x)) as [Hx|Hx].
  - rewrite filter_cons. destruct (decide (x = k)); simpl; by rewrite IH.
  - rewrite decide_False by (intros ->; done). done.
Qed.

Lemma sum_distinct_occurrences {A} `{EqDecision A} (l : list A) :
  sum_list_with (fun k => occurrences k l) (distinct l) = length l.
Proof.
  apply sum_occurrences; [apply NoDup_distinct|].
  intros x. by rewrite elem_of_distinct.
Qed.

Lemma length_filter_all {A} (P : A -> Prop) `{forall x, Decision (P x)} l :
  Forall P l -> filter P l = l.
Proof.
  induction 1 as [|x l Hx _ IH]; [done|].
  by rewrite filter_cons, decide_True, IH.
Qed.

(** ** Shares *)

Lemma Qc_of_nat_plus a b : Qc_of_nat (a + b) = (Qc_of_nat a + Qc_of_nat b)%Qc.
Proof.
  apply Qc_is_canon. unfold Qc_of_nat, Qcplus, Q2Qc. cbn [this].
  rewrite !Qred_correct, Nat2Z.inj_add, inject_Z_plus. reflexivity.
Qed.

Lemma Qc_of_nat_nonzero n : (0 < n)%nat -> Qc_of_nat n <> Q2Qc 0.
Proof.
  intros Hn H. apply Q2Qc_eq_iff in H. unfold Qeq in H. simpl in H. lia.
Qed.

Lemma sum_shares (T : Qc) (c : list (value * nat)) :
  sum_Qc ((fun r => (Qc_of_nat r.2 / T)%Qc) <$> c)
  = (Qc_of_nat (sum_list (snd <$> c)) / T)%Qc.
Proof.
  induction c as [|r c IH].
  - simpl. unfold Qcdiv. by rewrite Qcmult_0_l.
  - rewrite !fmap_cons. cbn [sum_Qc foldr sum_list_with].
    change (foldr Qcplus (Q2Qc 0) ?l) with (sum_Qc l). rewrite IH.
    change (id (r.2)) with (r.2). rewrite Qc_of_nat_plus.
    unfold Qcdiv. by rewrite Qcmult_plus_distr_l.
Qed.

Lemma pie_shares_total c :
  (0 < sum_list (snd <$> c))%nat -> sum_Qc (pie_shares c) = Q2Qc 1.
Proof.
  intros Hpos. unfold pie_shares.
  rewrite (sum_shares (Qc_of_nat (sum_list (snd <$> c))) c).
  unfold Qcdiv. apply Qcmult_inv_r. by apply Qc_of_nat_nonzero.
Qed.

Lemma getitem_elem_of df label s :
  getitem df label = Ok s -> (label, s) ∈ columns df.
Proof.
  unfold getitem.
  destruct (filter _ (columns df)) as [|[n s'] [|? ?]] eqn:E; try done.
  intros [= <-].
  assert (H : (n, s') ∈ filter (fun c => c.1 = label) (columns df))
    by (rewrite E; by left).
  apply list_elem_of_filter in H as [Hn H]. simpl in Hn. by subst.
Qed.

Lemma getitem_length df label s :
  well_formed df -> getitem df label = Ok s -> length (values s) = nrows df.
Proof.
  intros Hwf H%getitem_elem_of.
  by apply (proj1 (Forall_forall _ _) Hwf) in H.
Qed.

Lemma groupby_size2_ok fd a b g :
  groupby_size2 fd a b = Ok g ->
  exists sa sb,
    getitem fd a = Ok sa /\ getitem fd b = Ok sb
    /\ g = (fun k => (k, occurrences k (zip (values sa) (values sb))))
             <$> group_keys2 (zip (values sa) (values sb)).
Proof.
  unfold groupby_size2.
  destruct (getitem fd a) as [sa|]; simpl; [|done].
  destruct (getitem fd b) as [sb|]; simpl; [|done].
  intros [= <-]. by exists sa, sb.
Qed.

Lemma sum_group_sizes (keys : list (value * value)) :
  sum_list (((fun k => (k, occurrences k keys)) <$> group_keys2 keys).*2)
  = length (present_pairs keys).
Proof.
  rewrite <- list_fmap_compose, sum_list_fmap. unfold group_keys2.
  rewrite merge_sort_Permutation. simpl.
  rewrite <- (sum_distinct_occurrences (present_pairs keys)).
  apply sum_list_with_ext, Forall_forall. intros k Hk.
  rewrite elem_of_distinct in Hk. unfold present_pairs in *.
  apply list_elem_of_filter in Hk as [Hk _].
  symmetry. by apply (occurrences_filter _ k keys).
Qed.

Lemma insert_by_count_Permutation {A} (x : A * nat) l :
  insert_by_count x l ≡ₚ x :: l.
Proof.
  induction l as [|y l IH]; [done|]. cbn [insert_by_count].
  destruct (decide _); [done|]. rewrite IH. apply Permutation_swap.
Qed.

Lemma sort_by_count_Permutation {A} (l : list (A * nat)) :
  sort_by_count l ≡ₚ l.
Proof.
  induction l as [|x l IH]; [done|]. cbn [sort_by_count foldr].
  fold (sort_by_count l). by rewrite insert_by_count_Permutation, IH.
Qed.

Lemma Sorted_insert_by_count {A} (x : A * nat) l :
  Sorted more_frequent l -> Sorted more_frequent (insert_by_count x l).
Proof.
  induction 1 as [|y l Hl IH Hhd]; [by repeat constructor|].
  cbn [insert_by_count]. destruct (decide _) as [Hle|Hgt].
  - constructor; [by constructor|]. by constructor.
  - constructor; [done|].
    destruct Hhd as [|z l Hyz]; cbn [insert_by_count].
    + constructor. unfold more_frequent. lia.
    + destruct (decide _); constructor; [unfold more_frequent; lia | done].
Qed.

Lemma Sorted_sort_by_count {A} (l : list (A * nat)) :
  Sorted more_frequent (sort_by_count l).
Proof.
  induction l as [|x l IH]; [constructor|]. by apply Sorted_insert_by_count.
Qed.

Lemma sum_value_counts s :
  sum_list ((value_counts s).*2) = length (present (values s)).
Proof.
  unfold value_counts. rewrite sort_by_count_Permutation.
  rewrite <- list_fmap_compose, sum_list_fmap. simpl.
  apply sum_distinct_occurrences.
Qed.

Lemma present_all l : Forall (fun v => isna v = false) l -> present l = l.
Proof. apply length_filter_all. Qed.

Lemma present_pairs_all (a b : list value) :
  Forall (fun v => isna v = false) a -> Forall (fun v => isna v = false) b ->
  present_pairs (zip a b) = zip a b.
Proof.
  intros Ha Hb. apply length_filter_all.
  apply Forall_forall. intros [x y] Hxy.
  split; simpl.
  - apply (proj1 (Forall_forall _ _) Ha). by apply elem_of_zip_l in Hxy.
  - apply (proj1 (Forall_forall _ _) Hb). by apply elem_of_zip_r in Hxy.
Qed.

(** C10, amended: the sizes of the (group, room type) groups sum to the
    number of rows in which neither key is missing, and the room-type
    counts to the number of rows with a room type; on a well-formed table
    without missing keys both sums are the number of rows.  When some row
    is counted, the shares of the donut pie sum to 1. *)
Theorem counts_sum_to_present_rows fd :
  (forall g,
     groupby_size2 fd "neighbourhood_group" "room_type" = Ok g ->
     exists gs rs,
       getitem fd "neighbourhood_group" = Ok gs
       /\ getitem fd "room_type" = Ok rs
       /\ sum_list (g.*2)
          = length (present_pairs (zip (values gs) (values rs)))
       /\ (well_formed fd ->
           Forall (fun v => isna v = false) (values gs) ->
           Forall (fun v => isna v = false) (values rs) ->
           sum_list (g.*2) = nrows fd))
  /\ (forall c,
        room_type_counts fd = Ok c ->
        exists rs,
          getitem fd "room_type" = Ok rs
          /\ sum_list (c.*2) = length (present (values rs))
          /\ (well_formed fd ->
              Forall (fun v => isna v = false) (values rs) ->
              sum_list (c.*2) = nrows fd)
          /\ ((0 < sum_list (c.*2))%nat -> sum_Qc (pie_shares c) = Q2Qc 1)).
Proof.
  split.
  - intros g (gs & rs & Hgs & Hrs & ->)%groupby_size2_ok.
    exists gs, rs. split_and!; try done.
    + apply sum_group_sizes.
    + intros Hwf Hg Hr. rewrite sum_group_sizes, present_pairs_all by done.
      rewrite length_zip, (getitem_length _ _ _ Hwf Hgs),
        (getitem_length _ _ _ Hwf Hrs). lia.
  - intros c Hc. unfold room_type_counts in Hc.
    destruct (getitem fd "room_type") as [rs|] eqn:Hrs; [|done].
    injection Hc as <-. exists rs. split_and!; try done.
    + apply sum_value_counts.
    + intros Hwf Hr. rewrite sum_value_counts, present_all by done.
      by apply (getitem_length _ _ _ Hwf Hrs).
    + apply pie_shares_total.
Qed.

(** ** Hover labels *)

Lemma px_column_ok d arg col :
  px_column d arg col = Ok () ->
  exists cells, filter (fun c => c.1 = col) d = [(col, cells)].
Proof.
  unfold px_column.
  destruct (filter _ d) as [|[n cells] [|? ?]] eqn:E; try done.
  intros _. exists cells.
  assert (H : (n, cells) ∈ filter (fun c => c.1 = col) d)
    by (rewrite E; by left).
  apply list_elem_of_filter in H as [Hn _]. simpl in Hn. by subst.
Qed.

Lemma px_scatter_ok d x y size color hover title l f :
  px_scatter d x y size color hover title l = Ok f ->
  f = Scatter d x y size color hover title l
  /\ px_column d "hover_name" hover = Ok ().
Proof.
  unfold px_scatter.
  destruct (px_column d "x" x) as [[]|]; simpl; [|done].
  destruct (px_column d "y" y) as [[]|]; simpl; [|done].
  destruct (from_option _ _ size) as [[]|]; simpl; [|done].
  destruct (px_column d "color" color) as [[]|]; simpl; [|done].
  destruct (px_column d "hover_name" hover) as [[]|]; simpl; [|done].
  by intros [= <-].
Qed.

Lemma px_column_frame_table df arg col :
  px_column (frame_table df) arg col = Ok () ->
  exists s, getitem df col = Ok s.
Proof.
  unfold px_column, frame_table, getitem, table. rewrite filter_label_fmap.
  destruct (filter _ (columns df)) as [|[n s] [|? ?]]; try done. eauto.
Qed.

(** C9, amended: the bubble scatter and the availability scatter take
    their hover labels from the column labelled [NAME], in upper case; a
    table they accept has exactly one such column. *)
Theorem scatter_hover_is_NAME fd f :
  fig_bubble fd = Ok f \/ fig_scatter fd = Ok f ->
  hover_name_of f = Some "NAME"
  /\ (exists cells,
        filter (fun c => c.1 = "NAME") (figure_data f) = [("NAME", cells)])
  /\ exists s, getitem fd "NAME" = Ok s.
Proof.
  intros [H|H].
  - unfold fig_bubble in H.
    destruct (bubble_frame fd) as [d|] eqn:Hd; [|done]. simpl in H.
    apply px_scatter_ok in H as [-> Hcol].
    split_and!; [done | by apply px_column_ok in Hcol |].
    apply px_column_frame_table in Hcol as [s Hs].
    apply dropna_ok in Hd as (rpm & _ & ->).
    rewrite getitem_frame_mask in Hs.
    destruct (getitem fd "NAME") as [s'|]; [eauto | done].
  - unfold fig_scatter in H.
    apply px_scatter_ok in H as [-> Hcol].
    split_and!; [done | by apply px_column_ok in Hcol |].
    by apply px_column_frame_table in Hcol.
Qed.

(** ** The loader on a dirty cell *)

(** C1: the loader on a file whose every column is present and whose
    [price] column holds one cell that is no number: [astype(float)]
    raises, the load fails as a whole. *)
Theorem load_raises_on_unparseable_cell :
  load_data (Some Fixture.bad_price)
  = Raise (ValueError "could not convert string to float: abc").
Proof. reflexivity. Qed.

(** ** Column assignment *)

Lemma getitem_filter df label s :
  getitem df label = Ok s
  <-> filter (fun c => c.1 = label) (columns df) = [(label, s)].
Proof.
  unfold getitem. split.
  - destruct (filter _ (columns df)) as [|[n s'] [|? ?]] eqn:E; try done.
    intros [= <-].
    assert (H : (n, s') ∈ filter (fun c => c.1 = label) (columns df))
      by (rewrite E; by left).
    apply list_elem_of_filter in H as [Hn _]. simpl in Hn. by subst.
  - by intros ->.
Qed.

Lemma filter_assign_ne label label' s cols :
  label <> label' ->
  filter (fun c => c.1 = label') (assign label s cols)
  = filter (fun c => c.1 = label') cols.
Proof.
  intros Hne. induction cols as [|[n s'] cols IH].
  - cbn [assign]. rewrite filter_cons. by rewrite decide_False.
  - cbn [assign fst]. destruct (decide (n = label)) as [->|Hn].
    + rewrite !filter_cons. by rewrite !decide_False.
    + rewrite !filter_cons. simpl. destruct (decide (n = label')); by rewrite IH.
Qed.

Lemma filter_assign_eq label s s0 cols :
  filter (fun c => c.1 = label) cols = [(label, s0)] ->
  filter (fun c => c.1 = label) (assign label s cols) = [(label, s)].
Proof.
  induction cols as [|[n s'] cols IH]; [done|].
  cbn [assign fst]. rewrite filter_cons. simpl.
  destruct (decide (n = label)) as [->|Hn].
  - intros [= -> Hrest]. rewrite filter_cons. simpl.
    rewrite decide_True by done. by rewrite Hrest.
  - intros H. rewrite filter_cons. simpl. rewrite decide_False by done. auto.
Qed.

Lemma assign_same label s cols :
  filter (fun c => c.1 = label) cols = [(label, s)] ->
  assign label s cols = cols.
Proof.
  induction cols as [|[n s'] cols IH]; [done|].
  cbn [assign fst]. rewrite filter_cons. simpl.
  destruct (decide (n = label)) as [->|Hn].
  - by intros [= -> _].
  - intros H. by rewrite IH.
Qed.

Lemma assign_labels label s cols :
  label ∈ cols.*1 -> (assign label s cols).*1 = cols.*1.
Proof.
  induction cols as [|[n s'] cols IH]; [by intros ?%elem_of_nil|].
  cbn [assign fst]. destruct (decide (n = label)) as [->|Hne]; [done|].
  rewrite !fmap_cons. intros [?|H]%elem_of_cons; [simpl in *; congruence|].
  by rewrite IH.
Qed.

Lemma getitem_label df label s : getitem df label = Ok s -> label ∈ (columns df).*1.
Proof.
  intros H%getitem_elem_of. apply list_elem_of_fmap. by exists (label, s).
Qed.

(** Reading back the column just assigned, and any other column. *)
Lemma getitem_setitem_eq df label s s0 :
  getitem df label = Ok s0 -> getitem (setitem df label s) label = Ok s.
Proof.
  rewrite !getitem_filter. unfold setitem. simpl. apply filter_assign_eq.
Qed.

Lemma getitem_setitem_ne df label label' s :
  label <> label' -> getitem (setitem df label s) label' = getitem df label'.
Proof.
  intros Hne. unfold getitem, setitem. simpl. by rewrite filter_assign_ne.
Qed.

Lemma setitem_same df label s :
  getitem df label = Ok s -> setitem df label s = df.
Proof.
  rewrite getitem_filter. intros H. unfold setitem.
  rewrite (assign_same _ _ _ H). by destruct df.
Qed.

(** ** What the two review charts plot *)

Lemma px_bar_ok d x y color title l f :
  px_bar d x y color title l = Ok f -> f = Bar d x y color title l.
Proof.
  unfold px_bar.
  destruct (px_column d "x" x) as [[]|]; simpl; [|done].
  destruct (px_column d "y" y) as [[]|]; simpl; [|done].
  destruct (px_column d "color" color) as [[]|]; simpl; [|done].
  by intros [= <-].
Qed.

Lemma frame_table_mask df m :
  frame_table (frame_mask df m) = prod_map id (bool_index m) <$> frame_table df.
Proof.
  unfold frame_table, frame_mask. simpl. rewrite <- !list_fmap_compose.
  apply list_fmap_ext. intros _ [n s] _. simpl.
  by rewrite values_series_mask.
Qed.

Lemma NoDup_group_keys keys : NoDup (group_keys keys).
Proof.
  unfold group_keys. rewrite merge_sort_Permutation. apply NoDup_distinct.
Qed.

Lemma mean_all_missing l :
  Forall (fun f => Float.is_nan f = true) l -> mean l = NaN.
Proof.
  intros H. unfold mean.
  assert (filter (fun f => Float.is_nan f = false) l = []) as ->; [|done].
  induction H as [|f l Hf _ IH]; [done|].
  rewrite filter_cons, decide_False; [done | congruence].
Qed.

(** C8: the bubble scatter plots the filtered table without the rows whose
    [reviews_per_month] is missing: every column of its data is the column
    of the filtered table at the rows where [reviews_per_month] is present,
    and its size column has no missing cell.  The bar chart of mean
    reviews per month is computed from all rows: it has one bar for every
    group that occurs in the filtered table, and a group all of whose
    [reviews_per_month] cells are missing has its bar, of height NaN. *)
Theorem bubble_drops_missing_mean_keeps fd :
  (forall fig,
     fig_bubble fd = Ok fig ->
     exists rpm,
       getitem fd "reviews_per_month" = Ok rpm
       /\ figure_data fig
          = prod_map id (bool_index ((fun v => negb (isna v)) <$> values rpm))
              <$> frame_table fd
       /\ exists sizes,
            filter (fun c => c.1 = "reviews_per_month") (figure_data fig)
            = [("reviews_per_month", sizes)]
            /\ sizes
               = bool_index ((fun v => negb (isna v)) <$> values rpm)
                   (values rpm)
            /\ Forall (fun v => isna v = false) sizes)
  /\ (forall fig,
        fig_avg_reviews fd = Ok fig ->
        exists gs rpm xs (bars : list (value * float)),
          getitem fd "neighbourhood_group" = Ok gs
          /\ getitem fd "reviews_per_month" = Ok rpm
          /\ numeric_values rpm = Ok xs
          /\ figure_data fig
             = [("neighbourhood_group", bars.*1);
                ("reviews_per_month", VNum <$> bars.*2)]
          /\ NoDup bars.*1
          /\ (forall k, k ∈ bars.*1 <-> k ∈ values gs /\ isna k = false)
          /\ (forall k m,
                (k, m) ∈ bars ->
                Forall (fun f => Float.is_nan f = true)
                  (snd <$> filter (fun r => r.1 = k) (zip (values gs) xs)) ->
                m = NaN)).
Proof.
  clear to_datetime_coerce corr. split.
  - intros fig Hfig. unfold fig_bubble, bubble_frame in Hfig.
    destruct (dropna fd "reviews_per_month") as [d|] eqn:Hd; [|done].
    cbn [mbind result_bind] in Hfig.
    apply dropna_ok in Hd as (rpm & Hrpm & ->).
    apply px_scatter_ok in Hfig as [-> _].
    exists rpm. split; [done|]. cbn [figure_data].
    split; [apply frame_table_mask|].
    eexists. split_and!; [|done|].
    + rewrite frame_table_mask. unfold frame_table, table.
      rewrite !filter_label_fmap.
      apply getitem_filter in Hrpm. by rewrite Hrpm.
    + eapply Forall_impl; [apply Forall_bool_index_self|].
      intros v. simpl. by destruct (isna v).
  - intros fig Hfig. unfold fig_avg_reviews, avg_reviews_by_group in Hfig.
    destruct (groupby_mean fd _ _) as [g|] eqn:Hg; [|done].
    cbn [mbind result_bind] in Hfig.
    apply groupby_mean_ok in Hg as (sk & sv & xs & Hsk & Hsv & Hxs & ->).
    apply px_bar_ok in Hfig as ->.
    exists sk, sv, xs. eexists. split_and!; [done|done|done| |..].
    + cbn [figure_data]. unfold mean_table.
      by rewrite <- (list_fmap_compose snd VNum).
    + rewrite <- list_fmap_compose.
      rewrite (list_fmap_ext _ id (group_keys (values sk))) by done.
      rewrite list_fmap_id. apply NoDup_group_keys.
    + intros k. rewrite <- list_fmap_compose.
      rewrite (list_fmap_ext _ id (group_keys (values sk))) by done.
      rewrite list_fmap_id. apply elem_of_group_keys.
    + intros k m (k' & [= -> ->] & _)%list_elem_of_fmap.
      apply mean_all_missing.
Qed.

(** ** The loop over the numeric columns *)

Lemma coerce_column_ok df col df' :
  coerce_column df col = Ok df' ->
  exists s s', getitem df col = Ok s /\ coerce_numeric s = Ok s'
               /\ df' = setitem df col s'.
Proof.
  unfold coerce_column.
  destruct (getitem df col) as [s|]; simpl; [|done].
  destruct (coerce_numeric s) as [s'|] eqn:E; simpl; [|done].
  intros [= <-]. by exists s, s'.
Qed.

Lemma coerce_numeric_idem s s' :
  coerce_numeric s = Ok s' -> coerce_numeric s' = Ok s'.
Proof.
  destruct s as [l|l|l|l]; simpl.
  - by intros [= <-].
  - by intros [= <-].
  - destruct (astype_float _); simpl; [|done]. by intros [= <-].
  - by intros [= <-].
Qed.

Lemma coerce_numeric_dtype s s' :
  coerce_numeric s = Ok s' -> is_object s' = false.
Proof.
  destruct s as [l|l|l|l]; simpl.
  - by intros [= <-].
  - by intros [= <-].
  - destruct (astype_float _); simpl; [|done]. by intros [= <-].
  - by intros [= <-].
Qed.

Lemma for_each_coerce_ok cols : forall df df',
  for_each coerce_column df cols = Ok df' ->
  index df' = index df
  /\ (columns df').*1 = (columns df).*1
  /\ (forall c, c ∉ cols -> getitem df' c = getitem df c)
  /\ (forall c, c ∈ cols ->
        exists s s', getitem df c = Ok s /\ coerce_numeric s = Ok s'
                     /\ getitem df' c = Ok s').
Proof.
  induction cols as [|c0 cols IH]; intros df df'.
  - intros [= <-]. split_and!; try done. by intros c ?%elem_of_nil.
  - cbn [for_each]. destruct (coerce_column df c0) as [df1|] eqn:E1; [|done].
    simpl. intros Hrest.
    apply coerce_column_ok in E1 as (s0 & s0' & Hs0 & Hc0 & ->).
    destruct (IH _ _ Hrest) as (Hidx & Hlab & Hout & Hin).
    split_and!.
    + by rewrite Hidx.
    + rewrite Hlab. simpl. apply assign_labels. by eapply getitem_label.
    + intros c Hc. apply not_elem_of_cons in Hc as [Hne Hc].
      rewrite (Hout c Hc). by apply getitem_setitem_ne.
    + intros c Hc. destruct (decide (c ∈ cols)) as [Hcols|Hcols].
      * destruct (Hin c Hcols) as (s1 & s1' & Hs1 & Hc1 & Hget).
        destruct (decide (c = c0)) as [->|Hne].
        -- rewrite (getitem_setitem_eq _ _ _ _ Hs0) in Hs1.
           injection Hs1 as <-.
           rewrite (coerce_numeric_idem _ _ Hc0) in Hc1. injection Hc1 as <-.
           by exists s0, s0'.
        -- rewrite getitem_setitem_ne in Hs1 by done. by exists s1, s1'.
      * apply elem_of_cons in Hc as [->|Hc]; [|done].
        exists s0, s0'. split_and!; try done.
        rewrite (Hout c0 Hcols). by eapply getitem_setitem_eq.
Qed.

Lemma for_each_fixed cols df :
  (forall c, c ∈ cols -> coerce_column df c = Ok df) ->
  for_each coerce_column df cols = Ok df.
Proof.
  induction cols as [|c cols IH]; intros H; [done|]. cbn [for_each].
  rewrite (H c) by (by left). cbn [mbind result_bind].
  apply IH. intros c' Hc'. apply H. by right.
Qed.

(** ** The loader *)

Lemma load_data_ok file df' :
  load_data file = Ok df' <->
  exists df df1 lr,
    file = Some df
    /\ for_each coerce_column (normalize_columns df) numeric_cols = Ok df1
    /\ getitem df1 "last_review" = Ok lr
    /\ df' = setitem df1 "last_review" (DatetimeS (to_datetime_coerce lr)).
Proof.
  unfold load_data. split.
  - destruct file as [df|]; [|done]. cbn [read_csv mbind result_bind].
    destruct (for_each _ _ _) as [df1|] eqn:E1; [|done]. cbn [mbind result_bind].
    destruct (getitem df1 _) as [lr|] eqn:E2; [|done]. cbn [mbind result_bind].
    intros [= <-]. by exists df, df1, lr.
  - intros (df & df1 & lr & -> & E1 & E2 & ->).
    cbn [read_csv mbind result_bind]. rewrite E1. cbn [mbind result_bind].
    by rewrite E2.
Qed.

Lemma last_review_not_numeric : "last_review" ∉ numeric_cols.
Proof. unfold numeric_cols. rewrite !not_elem_of_cons. split_and!; try done. apply not_elem_of_nil. Qed.

Lemma normalize_columns_labels df :
  (columns (normalize_columns df)).*1 = normalize_label <$> (columns df).*1.
Proof.
  unfold normalize_columns. simpl. rewrite <- !list_fmap_compose.
  apply list_fmap_ext. by intros _ [n s] _.
Qed.

(** The loader relabels the columns and converts cells; it adds, drops or
    reorders neither rows nor columns. *)
Theorem load_keeps_shape file df' :
  load_data file = Ok df' ->
  exists df,
    file = Some df
    /\ index df' = index df
    /\ (columns df').*1 = normalize_label <$> (columns df).*1.
Proof.
  intros (df & df1 & lr & -> & Hloop & Hlr & ->)%load_data_ok.
  apply for_each_coerce_ok in Hloop as (Hidx & Hlab & _ & _).
  exists df. split_and!; [done|done|]. simpl.
  rewrite assign_labels by (by eapply getitem_label).
  by rewrite Hlab, normalize_columns_labels.
Qed.


(** *** Currency cells through the loader *)

Lemma stands_for_exactly cell f :
  stands_for cell f ->
  from_option (fun a => binary64 (currency_value a)) True cell ->
  exactly cell f.
Proof.
  destruct cell as [a|]; [|done]. simpl. intros Hf Ha.
  rewrite (nearest_exact _ _ Hf Ha). eexists. split; [done|].
  cbn [this Q2Qc]. apply Qred_correct.
Qed.

(** C2, as the code has it.  The coercion of a column of
    currency-formatted text (with blank cells) succeeds and gives the
    float column of the float64 values nearest to the amounts, blank cells
    staying missing; where the amount is a float64 number, as every whole
    amount below [2^53] is, the cell is exactly the amount.  In a loaded
    table each of the six numeric columns is the coercion of the column of
    the file, which for a float or bool column is that column unchanged;
    coercing it again changes nothing, and so does the whole loop run on
    the loaded table. *)
Theorem currency_coercion_rounds_idempotent :
  (forall cells : list (option amount),
     Forall (from_option has_digit True) cells ->
     exists fs,
       coerce_numeric (ObjectS (fmap (M := option) currency_text <$> cells))
       = Ok (FloatS fs)
       /\ Forall2 stands_for cells fs
       /\ Forall2
            (fun cell f =>
               from_option (fun a => binary64 (currency_value a)) True cell
               -> exactly cell f)
            cells fs)
  /\ (forall file data col,
        load_data file = Ok data ->
        col ∈ ["price"; "service_fee"; "minimum_nights"; "number_of_reviews";
               "reviews_per_month"; "availability_365"] ->
        exists raw s s',
          file = Some raw
          /\ getitem (normalize_columns raw) col = Ok s
          /\ coerce_numeric s = Ok s'
          /\ getitem data col = Ok s'
          /\ ((exists l, s = FloatS l) \/ (exists l, s = BoolS l) -> s' = s)
          /\ coerce_numeric s' = Ok s'
          /\ for_each coerce_column data numeric_cols = Ok data).
Proof.
  split.
  - intros cells Hcells. unfold coerce_numeric.
    rewrite str_replace_currency.
    destruct (astype_float_currency cells Hcells) as (fs & -> & Hrel).
    exists fs. split_and!; [done|done|].
    eapply Forall2_impl; [exact Hrel|]. apply stands_for_exactly.
  - intros file data col
      (raw & df1 & lr & -> & Hloop & Hlr & ->)%load_data_ok Hcol.
    change (col ∈ numeric_cols) in Hcol.
    apply for_each_coerce_ok in Hloop as (_ & _ & _ & Hin).
    assert (Hget : forall c, c ∈ numeric_cols ->
              getitem (setitem df1 "last_review"
                         (DatetimeS (to_datetime_coerce lr))) c
              = getitem df1 c).
    { intros c Hc. apply getitem_setitem_ne. intros <-.
      by apply last_review_not_numeric. }
    destruct (Hin col Hcol) as (s & s' & Hs & Hco & Hs').
    exists raw, s, s'. split_and!; [done|done|done|by rewrite Hget|..].
    + intros [[l ->] | [l ->]]; simpl in Hco; by injection Hco as <-.
    + by eapply coerce_numeric_idem.
    + apply for_each_fixed. intros c Hc.
      destruct (Hin c Hc) as (sc & sc' & _ & Hcoc & Hsc').
      unfold coerce_column. rewrite (Hget c Hc), Hsc'. cbn [mbind result_bind].
      rewrite (coerce_numeric_idem _ _ Hcoc). cbn [mbind result_bind].
      rewrite setitem_same; [done|]. by rewrite (Hget c Hc).
Qed.

(** *** Which exceptions the loader raises *)

Lemma getitem_raise df label e :
  getitem df label = Raise e -> e = KeyError label \/ e = DuplicateLabel label.
Proof.
  unfold getitem. destruct (filter _ (columns df)) as [|? [|? ?]]; try done.
  - intros [= <-]. by left.
  - intros [= <-]. by right.
Qed.

Lemma astype_float_raise l e :
  astype_float l = Raise e -> exists msg, e = ValueError msg.
Proof.
  unfold astype_float. induction l as [|o l IH]; [done|]. cbn [map_result].
  destruct (cell_to_float o) as [f|e'] eqn:Ho.
  - cbn [mbind result_bind]. destruct (map_result cell_to_float l); [done|].
    cbn [mbind result_bind]. intros [= <-]. by apply IH.
  - cbn [mbind result_bind]. intros [= <-].
    destruct o as [t|]; [|done]. simpl in Ho.
    destruct (Float.of_string t); [done|]. injection Ho as <-. eauto.
Qed.

Lemma coerce_numeric_raise s e :
  coerce_numeric s = Raise e -> exists msg, e = ValueError msg.
Proof.
  destruct s as [l|l|l|l]; simpl; try done.
  destruct (astype_float _) as [fs|e'] eqn:E; simpl; [done|].
  intros [= <-]. by eapply astype_float_raise.
Qed.

Lemma coerce_column_raise df col e :
  coerce_column df col = Raise e -> loader_exception e.
Proof.
  unfold coerce_column.
  destruct (getitem df col) as [s|e'] eqn:E; simpl.
  - destruct (coerce_numeric s) as [s'|e'] eqn:E'; simpl; [done|].
    intros [= <-]. by apply coerce_numeric_raise in E' as [msg ->].
  - intros [= <-]. by apply getitem_raise in E as [-> | ->].
Qed.

Lemma for_each_coerce_raise cols : forall df e,
  for_each coerce_column df cols = Raise e -> loader_exception e.
Proof.
  induction cols as [|c cols IH]; intros df e; [done|]. cbn [for_each].
  destruct (coerce_column df c) as [df1|e'] eqn:E; simpl.
  - apply IH.
  - intros [= <-]. by eapply coerce_column_raise.
Qed.

Lemma load_data_raise df e :
  load_data (Some df) = Raise e -> loader_exception e.
Proof.
  unfold load_data. cbn [read_csv mbind result_bind].
  destruct (for_each _ _ _) as [df1|e'] eqn:E1; cbn [mbind result_bind].
  - destruct (getitem df1 _) as [lr|e'] eqn:E2; cbn [mbind result_bind]; [done|].
    intros [= <-]. by apply getitem_raise in E2 as [-> | ->].
  - intros [= <-]. by eapply for_each_coerce_raise.
Qed.

(** ** Logs of the script monad *)

Lemma bind_done {A B} (m : script A) (f : A -> script B) l b :
  m ≫= f = Script l (Done b) ->
  exists a l1 l2,
    m = Script l1 (Done a) /\ f a = Script l2 (Done b) /\ l = l1 ++ l2.
Proof.
  destruct m as [l1 [a| |e]]; cbn [mbind script_bind]; try done.
  destruct (f a) as [l2 r] eqn:E. intros [= <- ->]. by exists a, l1, l2.
Qed.

Lemma log_bind_Forall {A B} (P : event -> Prop) (m : script A)
    (f : A -> script B) :
  Forall P (log m) -> (forall a, Forall P (log (f a))) ->
  Forall P (log (m ≫= f)).
Proof.
  destruct m as [l1 [a| |e]]; cbn [mbind script_bind log]; try done.
  intros H1 H2. specialize (H2 a). destruct (f a) as [l2 r].
  apply Forall_app. by split.
Qed.

Lemma bind_never_stops {A B} (m : script A) (f : A -> script B) :
  ending m <> Stopped -> (forall a, ending (f a) <> Stopped) ->
  ending (m ≫= f) <> Stopped.
Proof.
  destruct m as [l1 [a| |e]]; cbn [mbind script_bind ending]; try done.
  intros _ H2. specialize (H2 a). by destruct (f a) as [l2 r].
Qed.

Lemma log_lift {A} (P : event -> Prop) (r : result A) : Forall P (log (lift r)).
Proof. destruct r; constructor. Qed.

Lemma log_emit (P : event -> Prop) e : P e -> Forall P (log (emit e)).
Proof. by repeat constructor. Qed.

Lemma log_plot (P : event -> Prop) r :
  (forall f, P (st_plotly_chart f)) -> Forall P (log (plot r)).
Proof.
  intros H. unfold plot. apply log_bind_Forall; [apply log_lift|].
  intros f. by apply log_emit.
Qed.

Lemma log_multiselect (P : event -> Prop) label options dflt w :
  P (st_sidebar_multiselect label options dflt) ->
  Forall P (log (multiselect label options dflt w)).
Proof. intros H. unfold multiselect. by repeat constructor. Qed.

(** Events a predicate on logs may ignore: everything but messages. *)
Ltac log_events :=
  repeat first
    [ apply log_bind_Forall; [|intros ?]
    | apply log_lift
    | apply log_plot; intros ?
    | apply log_multiselect
    | apply log_emit
    | apply Forall_nil_2 ].

Lemma charts_log (P : event -> Prop) fd :
  (forall b, P (st_header b)) -> (forall b, P (st_subheader b)) ->
  (forall b, P (st_markdown b)) -> (forall n, P (st_columns n)) ->
  (forall f, P (st_plotly_chart f)) ->
  Forall P (log (charts fd)).
Proof. intros. unfold charts. log_events; auto. Qed.

Lemma filter_stage_log (P : event -> Prop) df ui :
  (forall b, P (st_sidebar_header b)) ->
  (forall a b c, P (st_sidebar_multiselect a b c)) ->
  Forall P (log (filter_stage df ui)).
Proof. intros. unfold filter_stage. log_events; auto. Qed.

Lemma ending_lift {A} (r : result A) : ending (lift r) <> Stopped.
Proof. by destruct r. Qed.

Lemma plot_never_stops r : ending (plot r) <> Stopped.
Proof.
  unfold plot. apply bind_never_stops; [apply ending_lift | done].
Qed.

Ltac never_stops :=
  repeat first
    [ apply bind_never_stops; [|intros ?]
    | apply ending_lift
    | apply plot_never_stops
    | done ].

Lemma charts_never_stop fd : ending (charts fd) <> Stopped.
Proof. unfold charts. never_stops. Qed.

Lemma filter_stage_never_stops df ui : ending (filter_stage df ui) <> Stopped.
Proof. unfold filter_stage, multiselect. never_stops. Qed.

(** The "not found" message is shown exactly when the file is absent; any
    other failure of the loader escapes the [try]: the run is aborted by
    the exception, after [st.set_page_config] and without any message. *)
Theorem only_missing_file_is_reported file ui :
  (load_data file = Raise FileNotFoundError <-> file = None)
  /\ (st_error not_found_message ∈ log (dashboard file ui) <-> file = None)
  /\ (forall e, load_data file = Raise e -> file <> None ->
        dashboard file ui
        = Script [st_set_page_config "Airbnb Listings Dashboard" "wide"]
                 (Failed e)).
Proof.
  assert (Hfnf : load_data file = Raise FileNotFoundError <-> file = None).
  { split; [|by intros ->]. destruct file as [df|]; [|done].
    by intros ?%load_data_raise. }
  assert (Hfail : forall e, load_data file = Raise e -> file <> None ->
    dashboard file ui
    = Script [st_set_page_config "Airbnb Listings Dashboard" "wide"] (Failed e)).
  { intros e He Hfile. unfold dashboard, guarded_load. rewrite He.
    destruct e; try done. by apply Hfnf in He. }
  split_and!; [done| |done].
  split; [|by intros ->; right; left].
  destruct file as [df|]; [|done]. intros Hin. exfalso.
  destruct (load_data (Some df)) as [d|e] eqn:Hload.
  - assert (HF : Forall (fun ev => ev <> st_error not_found_message)
                     (log (dashboard (Some df) ui))).
    { unfold dashboard, guarded_load. rewrite Hload.
      log_events; try done;
        first [ by apply filter_stage_log | by apply charts_log
              | destruct (empty _); log_events; done ]. }
    by apply (proj1 (Forall_forall _ _) HF _ Hin).
  - rewrite (Hfail e) in Hin by done.
    apply list_elem_of_singleton in Hin. done.
Qed.

(** ** Runs that reach the last line, and runs that halt *)

Lemma emit_done e l a : emit e = Script l (Done a) -> l = [e].
Proof. by intros [= <-]. Qed.

Lemma lift_done {A} (r : result A) l a :
  lift r = Script l (Done a) -> r = Ok a /\ l = [].
Proof. destruct r; [|done]. by intros [= <- <-]. Qed.

Lemma plot_done r l a :
  plot r = Script l (Done a) -> exists f, r = Ok f /\ l = [st_plotly_chart f].
Proof. destruct r as [f|e]; [|done]. intros [= <-]. by exists f. Qed.

Lemma guarded_load_done file l df :
  guarded_load file = Script l (Done df) ->
  load_data file = Ok df /\ l = [st_success "Data loaded successfully!"].
Proof.
  unfold guarded_load. destruct (load_data file) as [d|e]; simpl.
  - by intros [= <- <-].
  - by destruct e.
Qed.

Lemma empty_check_done fd l a :
  (if empty fd then emit (st_warning empty_warning);; st_stop else mret ())
  = Script l (Done a) ->
  empty fd = false /\ l = [].
Proof. destruct (empty fd); [done|]. by intros [= <-]. Qed.

Ltac split_done H :=
  let a := fresh "a" in
  let l1 := fresh "l" in
  let l2 := fresh "l" in
  let Hm := fresh "Hm" in
  apply bind_done in H as (a & l1 & l2 & Hm & H & ->).

Lemma charts_done fd l a :
  charts fd = Script l (Done a) ->
  length (filter (fun ev => is_chart ev = true) l) = 9%nat
  /\ (exists f, fig_scatter fd = Ok f)
  /\ (exists f, fig_pie_instant fd = Ok f).
Proof.
  unfold charts. intros H. repeat split_done H.
  repeat match goal with
         | H : emit _ = Script _ (Done _) |- _ => apply emit_done in H as ->
         | H : lift _ = Script _ (Done _) |- _ => apply lift_done in H as [H ->]
         | H : plot _ = Script _ (Done _) |- _ =>
             let f := fresh "f" in
             let Hf := fresh "Hf" in
             apply plot_done in H as (f & Hf & ->)
         end.
  split; [done|]. eauto.
Qed.

Lemma filter_none {A} (p : A -> bool) (l : list A) :
  Forall (fun x => p x = false) l -> filter (fun x => p x = true) l = [].
Proof.
  induction 1 as [|x l Hx _ IH]; [done|].
  rewrite filter_cons, decide_False by (by rewrite Hx). done.
Qed.

(** A run reaches the last line of the script only if the file was
    loaded, the filtered table is not empty and the columns [NAME] and
    [instant_bookable] exist; it has then drawn nine charts and shown
    neither the warning nor the error. *)
Theorem completed_run file ui l e :
  dashboard file ui = Script l (Done e) ->
  load_data file = Ok (data e)
  /\ (exists lf, filter_stage (data e) ui = Script lf (Done e))
  /\ empty (filtered_data e) = false
  /\ length (filter (fun ev => is_chart ev = true) l) = 9%nat
  /\ length (filter (fun ev => is_multiselect ev = true) l) = 2%nat
  /\ (exists s, getitem (data e) "NAME" = Ok s)
  /\ (exists s, getitem (data e) "instant_bookable" = Ok s)
  /\ (st_warning empty_warning ∉ l)
  /\ (st_error not_found_message ∉ l).
Proof.
  unfold dashboard. intros H.
  split_done H. apply emit_done in Hm as ->.
  split_done H. apply guarded_load_done in Hm as [Hload ->].
  split_done H. rename a1 into e1, Hm into Hfilter.
  split_done H. apply emit_done in Hm as ->.
  split_done H. apply emit_done in Hm as ->.
  split_done H. apply empty_check_done in Hm as [Hempty ->].
  split_done H. rename Hm into Hcharts. injection H as <- <-.
  pose proof Hfilter as (gs & rs & Hgs & Hrs & He & ->)%filter_stage_done.
  assert (Hdata : data e1 = a0) by (by rewrite He). rewrite Hdata.
  assert (Hlog : log (charts (filtered_data e1)) = l0) by (by rewrite Hcharts).
  apply charts_done in Hcharts as (Hnine & [f Hscatter] & [f' Hinstant]).
  assert (Hcols : forall label,
    (exists s, getitem (filtered_data e1) label = Ok s) ->
    exists s, getitem a0 label = Ok s).
  { intros label [s Hs]. rewrite He in Hs. cbn [filtered_data] in Hs.
    rewrite !getitem_frame_mask in Hs.
    destruct (getitem a0 label) as [s'|]; [eauto | done]. }
  assert (Hquiet : Forall (fun ev => is_multiselect ev = false
                                     /\ ev <> st_warning empty_warning
                                     /\ ev <> st_error not_found_message) l0).
  { rewrite <- Hlog. by apply charts_log. }
  rewrite app_nil_r. cbn [app].
  assert (Hcharts : length (filter (fun ev => is_chart ev = true) l0) = 9%nat
                    -> length (filter (fun ev => is_chart ev = true)
                         (st_set_page_config "Airbnb Listings Dashboard" "wide"
                          :: st_success "Data loaded successfully!"
                          :: st_sidebar_header "Filter Options"
                          :: st_sidebar_multiselect "Select Neighbourhood Group(s)"
                               (unique gs) (unique gs)
                          :: st_sidebar_multiselect "Select Room Type(s)"
                               (unique rs) (unique rs)
                          :: st_title "Airbnb Listings Dashboard"
                          :: st_markdown "Explore key metrics and distributions of Airbnb listings using this interactive dashboard."
                          :: l0)) = 9%nat).
  { rewrite !filter_cons. by simpl. }
  assert (Hwidgets : length (filter (fun ev => is_multiselect ev = true)
                         (st_set_page_config "Airbnb Listings Dashboard" "wide"
                          :: st_success "Data loaded successfully!"
                          :: st_sidebar_header "Filter Options"
                          :: st_sidebar_multiselect "Select Neighbourhood Group(s)"
                               (unique gs) (unique gs)
                          :: st_sidebar_multiselect "Select Room Type(s)"
                               (unique rs) (unique rs)
                          :: st_title "Airbnb Listings Dashboard"
                          :: st_markdown "Explore key metrics and distributions of Airbnb listings using this interactive dashboard."
                          :: l0)) = 2%nat).
  { rewrite !filter_cons. simpl. rewrite filter_none; [done|].
    eapply Forall_impl; [exact Hquiet|]. by intros ev (? & _). }
  assert (Hname : exists s, getitem a0 "NAME" = Ok s).
  { apply Hcols. unfold fig_scatter in Hscatter.
    apply px_scatter_ok in Hscatter as [_ Hcol].
    by apply px_column_frame_table in Hcol. }
  assert (Hib : exists s, getitem a0 "instant_bookable" = Ok s).
  { apply Hcols. unfold fig_pie_instant in Hinstant.
    destruct (getitem (filtered_data e1) "instant_bookable") as [s|];
      [eauto | done]. }
  assert (Hnowarn : forall msg,
            (msg = st_warning empty_warning \/ msg = st_error not_found_message) ->
            msg ∉ st_set_page_config "Airbnb Listings Dashboard" "wide"
                  :: st_success "Data loaded successfully!"
                  :: st_sidebar_header "Filter Options"
                  :: st_sidebar_multiselect "Select Neighbourhood Group(s)"
                       (unique gs) (unique gs)
                  :: st_sidebar_multiselect "Select Room Type(s)"
                       (unique rs) (unique rs)
                  :: st_title "Airbnb Listings Dashboard"
                  :: st_markdown "Explore key metrics and distributions of Airbnb listings using this interactive dashboard."
                  :: l0).
  { intros msg Hmsg. rewrite !not_elem_of_cons.
    split_and!; try (by destruct Hmsg as [-> | ->]).
    intros Hin. apply (proj1 (Forall_forall _ _) Hquiet) in Hin as (_ & ? & ?).
    by destruct Hmsg. }
  split_and!; eauto.
Qed.

(** A run halts at [st.stop()] for one of two reasons only: the file is
    absent, or it was loaded and the filtered table is empty.  A halted
    run has drawn no chart, and its last event is the message. *)
Theorem halted_run file ui :
  ending (dashboard file ui) = Stopped ->
  Forall (fun ev => is_chart ev = false) (log (dashboard file ui))
  /\ ((file = None
       /\ last (log (dashboard file ui)) = Some (st_error not_found_message))
      \/ (exists df lf e,
            load_data file = Ok df
            /\ filter_stage df ui = Script lf (Done e)
            /\ empty (filtered_data e) = true
            /\ last (log (dashboard file ui))
               = Some (st_warning empty_warning))).
Proof.
  destruct file as [df0|]; [|intros _; split; [repeat constructor | by left]].
  destruct (load_data (Some df0)) as [df|e0] eqn:Hload.
  2:{ intros H. exfalso. revert H. unfold dashboard, guarded_load.
      rewrite Hload. apply load_data_raise in Hload. by destruct e0. }
  destruct (filter_stage df ui) as [lf [e| |e0]] eqn:Hfilter.
  - destruct (empty (filtered_data e)) eqn:Hempty.
    + intros _. rewrite (dashboard_empty _ _ _ _ _ Hload Hfilter Hempty).
      cbn [log]. split.
      * apply filter_stage_done in Hfilter as (gs & rs & _ & _ & _ & ->).
        repeat constructor.
      * right. exists df, lf, e. split_and!; try done.
        apply filter_stage_done in Hfilter as (gs & rs & _ & _ & _ & ->).
        done.
    + intros H. exfalso. revert H. unfold dashboard, guarded_load.
      rewrite Hload. cbn -[filter_stage charts empty]. rewrite Hfilter.
      cbn -[charts empty]. rewrite Hempty. cbn -[charts].
      pose proof (charts_never_stop (filtered_data e)) as Hc.
      destruct (charts (filtered_data e)) as [lc [[]| |ec]]; done.
  - pose proof (filter_stage_never_stops df ui) as Hn.
    by rewrite Hfilter in Hn.
  - intros H. exfalso. revert H. unfold dashboard, guarded_load.
    rewrite Hload. cbn -[filter_stage charts empty]. by rewrite Hfilter.
Qed.

(** ** When the loader succeeds *)

Lemma map_result_ok {A B} (f : A -> result B) l :
  (exists l', map_result f l = Ok l') <-> Forall (fun x => exists y, f x = Ok y) l.
Proof.
  induction l as [|x l IH].
  - split; [constructor | by exists []].
  - cbn [map_result]. rewrite Forall_cons, <- IH. split.
    + intros [l' H]. destruct (f x) as [y|]; [|done]. cbn [mbind result_bind] in H.
      destruct (map_result f l) as [ys|]; [|done]. eauto.
    + intros [[y ->] [ys ->]]. by eexists.
Qed.

Lemma coerce_numeric_ok_iff s :
  (exists s', coerce_numeric s = Ok s') <-> coercible s.
Proof.
  destruct s as [l|l|l|l]; simpl; try (split; [done | eauto]).
  rewrite str_replace_currency. unfold astype_float. split.
  - intros [s' H].
    destruct (map_result _ _) as [fs|] eqn:E; [|done].
    assert (Hall : exists fs, map_result cell_to_float
                     (fmap (M := option) strip_currency <$> l) = Ok fs) by eauto.
    apply map_result_ok in Hall. rewrite Forall_fmap in Hall.
    eapply Forall_impl; [exact Hall|]. intros [t|] [f Hf]; [|done]. simpl in Hf.
    destruct (Float.of_string (strip_currency t)); [eauto | done].
  - intros Hall.
    assert (Hok : exists fs, map_result cell_to_float
                    (fmap (M := option) strip_currency <$> l) = Ok fs).
    { apply map_result_ok. rewrite Forall_fmap.
      eapply Forall_impl; [exact Hall|]. intros [t|]; simpl; [|eauto].
      intros [f ->]. eauto. }
    destruct Hok as [fs ->]. by eexists.
Qed.

Lemma coercible_coerced s s' : coerce_numeric s = Ok s' -> coercible s'.
Proof.
  intros H%coerce_numeric_dtype. by destruct s'.
Qed.

Lemma for_each_coerce_succeeds cols : forall df,
  (forall c, c ∈ cols -> exists s, getitem df c = Ok s /\ coercible s) ->
  exists df', for_each coerce_column df cols = Ok df'.
Proof.
  induction cols as [|c0 cols IH]; intros df Hcols; [by eexists|].
  cbn [for_each]. destruct (Hcols c0) as (s0 & Hs0 & Hco0); [by left|].
  apply coerce_numeric_ok_iff in Hco0 as [s0' Hs0'].
  assert (Hstep : coerce_column df c0 = Ok (setitem df c0 s0')).
  { unfold coerce_column. rewrite Hs0. cbn [mbind result_bind].
    by rewrite Hs0'. }
  rewrite Hstep. cbn [mbind result_bind].
  apply IH. intros c Hc. destruct (decide (c = c0)) as [->|Hne].
  - exists s0'. split; [by eapply getitem_setitem_eq | by eapply coercible_coerced].
  - rewrite getitem_setitem_ne by done. apply Hcols. by right.
Qed.

(** The loader succeeds on a file exactly when, after the labels are
    normalised, each of the six numeric columns and [last_review] is
    present once, and every text cell of a numeric column is a float
    literal once ['$'] and [','] are removed. *)
Theorem load_succeeds_iff df :
  (exists df', load_data (Some df) = Ok df') <->
  (forall c, c ∈ numeric_cols ->
     exists s, getitem (normalize_columns df) c = Ok s /\ coercible s)
  /\ exists s, getitem (normalize_columns df) "last_review" = Ok s.
Proof.
  split.
  - intros [df' (df0 & df1 & lr & [= <-] & Hloop & Hlr & _)%load_data_ok].
    apply for_each_coerce_ok in Hloop as (_ & _ & Hout & Hin). split.
    + intros c Hc. destruct (Hin c Hc) as (s & s' & Hs & Hco & _).
      exists s. split; [done|]. apply coerce_numeric_ok_iff. eauto.
    + exists lr. rewrite <- Hout; [done | apply last_review_not_numeric].
  - intros [Hcols [lr Hlr]].
    destruct (for_each_coerce_succeeds _ _ Hcols) as [df1 Hloop].
    eexists. apply load_data_ok. exists df, df1, lr. split_and!; try done.
    apply for_each_coerce_ok in Hloop as (_ & _ & Hout & _).
    rewrite Hout; [done | apply last_review_not_numeric].
Qed.

(** The loop over the numeric columns is idempotent on tables: run on the
    table it returned, it returns that table again. *)
Theorem coercion_loop_idempotent df df' :
  for_each coerce_column df numeric_cols = Ok df' ->
  for_each coerce_column df' numeric_cols = Ok df'.
Proof.
  intros (_ & _ & _ & Hin)%for_each_coerce_ok.
  apply for_each_fixed. intros c Hc.
  destruct (Hin c Hc) as (s & s' & _ & Hco & Hget).
  unfold coerce_column. rewrite Hget. cbn [mbind result_bind].
  rewrite (coerce_numeric_idem _ _ Hco). cbn [mbind result_bind].
  by rewrite (setitem_same _ _ _ Hget).
Qed.

(** ** Well-formed frames *)

Lemma bool_index_length_eq {A B} m (l : list A) (l' : list B) :
  length l = length l' -> length (bool_index m l) = length (bool_index m l').
Proof.
  revert l l'. induction m as [|b m IH]; intros [|x l] [|y l'] H; try done.
  rewrite !bool_index_cons. injection H as H.
  destruct b; simpl; auto.
Qed.

Lemma frame_mask_well_formed df m :
  well_formed df -> well_formed (frame_mask df m).
Proof.
  unfold well_formed, frame_mask, nrows. simpl. intros H.
  apply Forall_fmap. eapply Forall_impl; [exact H|].
  intros [n s] Hs. simpl in *. rewrite values_series_mask.
  by apply bool_index_length_eq.
Qed.

Lemma map_result_length {A B} (f : A -> result B) l l' :
  map_result f l = Ok l' -> length l' = length l.
Proof.
  revert l'. induction l as [|x l IH]; intros l'; [by intros [= <-]|].
  cbn [map_result]. destruct (f x) as [y|]; [|done]. cbn [mbind result_bind].
  destruct (map_result f l) as [ys|]; [|done]. cbn [mbind result_bind].
  intros [= <-]. simpl. by rewrite (IH ys).
Qed.

Lemma coerce_numeric_length s s' :
  coerce_numeric s = Ok s' -> length (values s') = length (values s).
Proof.
  destruct s as [l|l|l|l]; simpl.
  - by intros [= <-].
  - by intros [= <-].
  - destruct (astype_float _) as [fs|] eqn:E; simpl; [|done]. intros [= <-].
    apply map_result_length in E. simpl. unfold str_replace in E.
    by rewrite !length_fmap in *.
  - intros [= <-]. simpl. by rewrite !length_fmap.
Qed.

Lemma setitem_well_formed df label s :
  well_formed df -> length (values s) = nrows df ->
  well_formed (setitem df label s).
Proof.
  unfold well_formed, setitem, nrows. simpl. intros H Hs.
  induction H as [|[n s'] cols Hc Hcols IH]; cbn [assign fst].
  - by repeat constructor.
  - destruct (decide (n = label)); by constructor.
Qed.

Lemma for_each_coerce_well_formed cols : forall df df',
  well_formed df -> for_each coerce_column df cols = Ok df' -> well_formed df'.
Proof.
  induction cols as [|c cols IH]; intros df df' Hwf; [by intros [= <-]|].
  cbn [for_each]. destruct (coerce_column df c) as [df1|] eqn:E; [|done].
  cbn [mbind result_bind]. apply IH.
  apply coerce_column_ok in E as (s & s' & Hs & Hco & ->).
  apply setitem_well_formed; [done|].
  rewrite (coerce_numeric_length _ _ Hco). by eapply getitem_length.
Qed.

Lemma normalize_columns_well_formed df :
  well_formed df -> well_formed (normalize_columns df).
Proof.
  unfold well_formed, normalize_columns, nrows. simpl. intros H.
  apply Forall_fmap. eapply Forall_impl; [exact H|]. by intros [n s].
Qed.

(** Every column having one cell per row is an invariant of the pipeline:
    if the frame read from the file has it, and date parsing returns one
    value per cell, the loaded table has it and so has every filtered
    table. *)
Theorem pipeline_keeps_well_formed df df' :
  (forall s, length (to_datetime_coerce s) = length (values s)) ->
  well_formed df ->
  load_data (Some df) = Ok df' ->
  well_formed df'
  /\ forall ui l e,
       filter_stage df' ui = Script l (Done e) -> well_formed (filtered_data e).
Proof.
  intros Hdates Hwf (df0 & df1 & lr & [= <-] & Hloop & Hlr & ->)%load_data_ok.
  assert (Hwf1 : well_formed df1).
  { eapply for_each_coerce_well_formed; [|exact Hloop].
    by apply normalize_columns_well_formed. }
  assert (Hwf' : well_formed (setitem df1 "last_review"
                                (DatetimeS (to_datetime_coerce lr)))).
  { apply setitem_well_formed; [done|]. simpl.
    rewrite length_fmap, Hdates. by eapply getitem_length. }
  split; [done|].
  intros ui l e (gs & rs & _ & _ & -> & _)%filter_stage_done. simpl.
  by do 2 apply frame_mask_well_formed.
Qed.

(** ** Selections that keep everything *)

Lemma bool_index_all_true {A} m (l : list A) :
  Forall (fun b => b = true) m -> (length l ≤ length m)%nat ->
  bool_index m l = l.
Proof.
  intros H. revert l. induction H as [|b m -> _ IH]; intros [|x l] Hl; try done.
  - simpl in Hl. lia.
  - rewrite bool_index_cons. f_equal. apply IH. simpl in Hl. lia.
Qed.

Lemma isin_unique_all s : Forall (fun b => b = true) (isin s (unique s)).
Proof.
  unfold isin, unique. apply Forall_fmap, Forall_forall. intros v Hv. simpl.
  apply bool_decide_eq_true. by apply elem_of_distinct.
Qed.

Lemma series_mask_all s m :
  Forall (fun b => b = true) m -> (length (values s) ≤ length m)%nat ->
  series_mask m s = s.
Proof.
  intros Hm Hl. destruct s as [l|l|l|l]; simpl in *; rewrite length_fmap in Hl;
    by rewrite bool_index_all_true.
Qed.

Lemma frame_mask_all df m :
  well_formed df -> Forall (fun b => b = true) m -> length m = nrows df ->
  frame_mask df m = df.
Proof.
  intros Hwf Hm Hl. destruct df as [idx cols]. unfold frame_mask, nrows in *.
  simpl in *. f_equal.
  - apply bool_index_all_true; [done | lia].
  - rewrite <- (list_fmap_id cols) at 2. apply list_fmap_ext.
    intros i [n s] Hi. simpl. f_equal. apply series_mask_all; [done|].
    apply list_elem_of_lookup_2 in Hi.
    apply (proj1 (Forall_forall _ _) Hwf) in Hi. unfold nrows in Hi.
    simpl in Hi. lia.
Qed.

(** With both widgets untouched (each returns its default, all the
    options) the filter stage keeps the whole table. *)
Theorem untouched_filters_keep_all df l e :
  well_formed df ->
  filter_stage df (mkSelections None None) = Script l (Done e) ->
  filtered_data e = df.
Proof.
  intros Hwf (gs & rs & Hgs & Hrs & -> & _)%filter_stage_done.
  cbn [groups_widget room_types_widget default from_option] in *.
  cbn [filtered_data].
  assert (H1 : frame_mask df (isin gs (unique gs)) = df).
  { apply frame_mask_all; [done | apply isin_unique_all|].
    unfold isin. rewrite length_fmap. by eapply getitem_length. }
  rewrite H1 in *. apply frame_mask_all; [done | apply isin_unique_all|].
  unfold isin. rewrite length_fmap. by eapply getitem_length.
Qed.

(** ** The two filters together *)

Lemma bool_index_twice {A} m1 m2 (l : list A) :
  bool_index (bool_index m1 m2) (bool_index m1 l)
  = bool_index (zip_with andb m1 m2) l.
Proof.
  revert m2 l. induction m1 as [|b m1 IH]; intros [|b2 m2] [|x l];
    rewrite ?bool_index_nil_r; try done.
  rewrite !bool_index_cons. cbn [zip_with]. rewrite bool_index_cons.
  destruct b; cbn [andb]; [|apply IH]. rewrite bool_index_cons.
  destruct b2; by rewrite IH.
Qed.

Lemma isin_series_mask m s sel :
  isin (series_mask m s) sel = bool_index m (isin s sel).
Proof. unfold isin. by rewrite values_series_mask, bool_index_fmap. Qed.

Lemma series_mask_twice m1 m2 s :
  series_mask (bool_index m1 m2) (series_mask m1 s)
  = series_mask (zip_with andb m1 m2) s.
Proof. destruct s; simpl; by rewrite bool_index_twice. Qed.

Lemma frame_mask_twice df m1 m2 :
  frame_mask (frame_mask df m1) (bool_index m1 m2)
  = frame_mask df (zip_with andb m1 m2).
Proof.
  unfold frame_mask. simpl. rewrite bool_index_twice. f_equal.
  rewrite <- list_fmap_compose. apply list_fmap_ext.
  intros _ [n s] _. simpl. by rewrite series_mask_twice.
Qed.

Lemma zip_with_andb_comm m1 m2 : zip_with andb m1 m2 = zip_with andb m2 m1.
Proof.
  revert m2. induction m1 as [|b m1 IH]; intros [|b2 m2]; try done.
  simpl. by rewrite IH, andb_comm.
Qed.

(** Filtering by group and then by room type keeps exactly the rows that
    pass both tests, whatever the order: the two filters, applied in the
    other order with the same selections, give the same table. *)
Theorem filters_commute df (G R : list value) fd :
  (filter_groups df G ≫= fun d => filter_room_types d R) = Ok fd <->
  (filter_room_types df R ≫= fun d => filter_groups d G) = Ok fd.
Proof.
  unfold filter_groups, filter_room_types.
  destruct (getitem df "neighbourhood_group") as [gs|] eqn:Hgs;
    destruct (getitem df "room_type") as [rs|] eqn:Hrs;
    cbn [mbind result_bind]; rewrite ?getitem_frame_mask, ?Hgs, ?Hrs;
    cbn [mbind result_bind fmap result_fmap]; try done.
  rewrite !isin_series_mask, !frame_mask_twice.
  by rewrite (zip_with_andb_comm (isin rs R)).
Qed.

(** The filter stage as one mask: row [i] is kept exactly when its group
    is among the selected groups and its room type among the selected room
    types. *)
Theorem filter_stage_is_conjunction df ui l e :
  filter_stage df ui = Script l (Done e) ->
  exists gs rs G R,
    getitem df "neighbourhood_group" = Ok gs
    /\ getitem df "room_type" = Ok rs
    /\ filtered_data e = frame_mask df (zip_with andb (isin gs G) (isin rs R))
    /\ rows (filtered_data e)
       = bool_index (zip_with andb (isin gs G) (isin rs R)) (rows df)
    /\ G = default (unique gs) (groups_widget ui)
    /\ R = default (unique (series_mask (isin gs G) rs)) (room_types_widget ui).
Proof.
  intros (gs & rs' & Hgs & Hrs & -> & _)%filter_stage_done.
  cbn zeta in Hrs. rewrite getitem_frame_mask in Hrs.
  destruct (getitem df "room_type") as [rs|] eqn:Hroom; [|done].
  injection Hrs as <-.
  eexists gs, rs, _, _. split_and!; try done.
  - cbn [filtered_data]. by rewrite isin_series_mask, frame_mask_twice.
  - cbn [filtered_data].
    by rewrite isin_series_mask, frame_mask_twice, rows_frame_mask.
Qed.

(** ** The shape of the count aggregates *)


Lemma float_leb_total a b : float_leb a b = true \/ float_leb b a = true.
Proof.
  destruct a as [x| | |], b as [y| | |]; simpl; auto.
  destruct (total Qcle x y); [left | right]; by apply bool_decide_eq_true.
Qed.

Lemma value_leb_total a b : value_leb a b = true \/ value_leb b a = true.
Proof.
  destruct a as [x|x|x|x|], b as [y|y|y|y|]; simpl; auto.
  - apply String.leb_total.
  - apply float_leb_total.
  - destruct x, y; auto.
  - destruct (Z.leb_spec x y); [by left|]. right. apply Z.leb_le. lia.
Qed.

Global Instance value_le_total : Total value_le.
Proof. intros a b. apply value_leb_total. Qed.

Global Instance pair_le_total : Total pair_le.
Proof.
  intros a b. unfold pair_le, pair_leb.
  destruct (decide (a.1 = b.1)) as [E|E].
  - rewrite decide_True by done. apply value_leb_total.
  - rewrite decide_False by (intros ?; by apply E). apply value_leb_total.
Qed.

Lemma occurrences_pos {A} `{EqDecision A} (k : A) l :
  k ∈ l -> (0 < occurrences k l)%nat.
Proof.
  intros Hk. unfold occurrences.
  assert (H : k ∈ filter (fun x => x = k) l) by (by apply list_elem_of_filter).
  destruct (filter _ l); [by apply elem_of_nil in H | simpl; lia].
Qed.

Lemma counted_elem_of {A} `{EqDecision A} (l : list A) k n :
  (k, n) ∈ (fun k => (k, occurrences k l)) <$> distinct l
  <-> k ∈ l /\ n = occurrences k l.
Proof.
  rewrite list_elem_of_fmap. split.
  - intros (k' & [= -> ->] & Hk). by rewrite elem_of_distinct in Hk.
  - intros [Hk ->]. exists k. split; [done|]. by rewrite elem_of_distinct.
Qed.

Lemma counted_keys {A} `{EqDecision A} (l : list A) :
  ((fun k => (k, occurrences k l)) <$> distinct l).*1 = distinct l.
Proof.
  rewrite <- list_fmap_compose. rewrite <- (list_fmap_id (distinct l)) at 2.
  by apply list_fmap_ext.
Qed.

(** A pie built from [value_counts] has one slice for each value that
    occurs in the column and is not missing; the slice holds the number of
    rows with that value, which is at least 1; the slices come most
    frequent first. *)
Theorem value_counts_spec s :
  NoDup (value_counts s).*1
  /\ (forall k n, (k, n) ∈ value_counts s <->
        k ∈ values s /\ isna k = false /\ n = occurrences k (values s))
  /\ Forall (fun r => (0 < r.2)%nat) (value_counts s)
  /\ Sorted more_frequent (value_counts s).
Proof.
  unfold value_counts. set (vs := present (values s)).
  assert (Hperm : sort_by_count
                    ((fun k => (k, occurrences k vs)) <$> distinct vs)
                  ≡ₚ (fun k => (k, occurrences k vs)) <$> distinct vs)
    by apply sort_by_count_Permutation.
  assert (Hchar : forall k n,
    (k, n) ∈ (fun k => (k, occurrences k vs)) <$> distinct vs <->
    k ∈ values s /\ isna k = false /\ n = occurrences k (values s)).
  { intros k n. rewrite counted_elem_of. unfold vs, present.
    rewrite list_elem_of_filter. split.
    - intros [[Hna Hk] ->]. split_and!; try done.
      by apply (occurrences_filter (fun v => isna v = false)).
    - intros (Hk & Hna & ->). split; [done|]. symmetry.
      by apply (occurrences_filter (fun v => isna v = false)). }
  split_and!.
  - rewrite Hperm, counted_keys. apply NoDup_distinct.
  - intros k n. by rewrite Hperm.
  - rewrite Hperm. apply Forall_forall. intros [k n] Hkn.
    apply counted_elem_of in Hkn as [Hk ->]. by apply occurrences_pos.
  - apply Sorted_sort_by_count.
Qed.

(** The grouped bar chart has one entry for each (group, room type) pair
    that occurs in a row where neither is missing; the entry holds the
    number of such rows, at least 1; entries are sorted by key. *)
Theorem group_sizes_spec fd a b g :
  groupby_size2 fd a b = Ok g ->
  exists sa sb,
    getitem fd a = Ok sa /\ getitem fd b = Ok sb
    /\ NoDup g.*1
    /\ (forall k n, (k, n) ∈ g <->
          k ∈ zip (values sa) (values sb)
          /\ isna k.1 = false /\ isna k.2 = false
          /\ n = occurrences k (zip (values sa) (values sb)))
    /\ Forall (fun r => (0 < r.2)%nat) g
    /\ Sorted pair_le g.*1.
Proof.
  clear to_datetime_coerce corr.
  intros (sa & sb & Hsa & Hsb & ->)%groupby_size2_ok.
  exists sa, sb. set (keys := zip (values sa) (values sb)).
  assert (Hkeys : forall k, k ∈ group_keys2 keys <->
            k ∈ keys /\ isna k.1 = false /\ isna k.2 = false).
  { intros k. unfold group_keys2, present_pairs.
    rewrite merge_sort_Permutation, elem_of_distinct, list_elem_of_filter.
    tauto. }
  assert (Hfst : ((fun k => (k, occurrences k keys)) <$> group_keys2 keys).*1
                 = group_keys2 keys).
  { rewrite <- list_fmap_compose.
    rewrite <- (list_fmap_id (group_keys2 keys)) at 2. by apply list_fmap_ext. }
  split_and!; try done.
  - rewrite Hfst. unfold group_keys2. rewrite merge_sort_Permutation.
    apply NoDup_distinct.
  - intros k n. rewrite list_elem_of_fmap. split.
    + intros (k' & [= -> ->] & Hk%Hkeys). tauto.
    + intros (Hk & H1 & H2 & ->). exists k. split; [done|]. by apply Hkeys.
  - apply Forall_fmap, Forall_forall. intros k Hk%Hkeys. simpl.
    apply occurrences_pos. tauto.
  - rewrite Hfst. apply Sorted_merge_sort. apply _.
Qed.

(** ** Normalised labels *)

Lemma rstrip_cons c r :
  Text.rstrip (String c r)
  = if Text.is_space c && Text.is_empty (Text.rstrip r) then EmptyString
    else String c (Text.rstrip r).
Proof. done. Qed.

Lemma rstrip_idem s : Text.rstrip (Text.rstrip s) = Text.rstrip s.
Proof.
  induction s as [|c r IH]; [done|]. rewrite rstrip_cons.
  destruct (Text.is_space c && Text.is_empty (Text.rstrip r)) eqn:E; [done|].
  by rewrite rstrip_cons, IH, E.
Qed.

Lemma lstrip_head s :
  match Text.lstrip s with
  | EmptyString => True
  | String c _ => Text.is_space c = false
  end.
Proof.
  induction s as [|c r IH]; [done|]. simpl.
  destruct (Text.is_space c) eqn:E; [done|]. done.
Qed.

Lemma strip_trimmed s : trimmed (Text.strip s).
Proof.
  unfold trimmed, Text.strip. split; [|apply rstrip_idem].
  pose proof (lstrip_head s) as H.
  destruct (Text.lstrip s) as [|c r]; [done|].
  rewrite rstrip_cons, H. done.
Qed.

Lemma trimmed_strip s : trimmed s -> Text.strip s = s.
Proof.
  intros [Hhead Hr]. unfold Text.strip.
  assert (Text.lstrip s = s) as ->; [|done].
  destruct s as [|c r]; [done|]. simpl. by rewrite Hhead.
Qed.

Lemma replace_space_cons c r :
  Text.replace " " "_" (String c r)
  = String (if Ascii.eqb c " " then "_"%char else c) (Text.replace " " "_" r).
Proof. simpl. by destruct (Ascii.eqb c " "). Qed.

Lemma is_empty_replace_space s :
  Text.is_empty (Text.replace " " "_" s) = Text.is_empty s.
Proof. destruct s as [|c r]; [done|]. by rewrite replace_space_cons. Qed.

Lemma is_space_after_replace c :
  Text.is_space c = false ->
  Text.is_space (if Ascii.eqb c " " then "_"%char else c) = false.
Proof. intros H. by destruct (Ascii.eqb c " "). Qed.

Lemma rstrip_replace_space s :
  Text.rstrip s = s ->
  Text.rstrip (Text.replace " " "_" s) = Text.replace " " "_" s.
Proof.
  induction s as [|c r IH]; [done|]. rewrite rstrip_cons.
  destruct (Text.is_space c && Text.is_empty (Text.rstrip r)) eqn:E; [done|].
  intros [= Hr]. rewrite replace_space_cons, rstrip_cons, (IH Hr).
  rewrite is_empty_replace_space. rewrite Hr in E.
  destruct (Ascii.eqb c " ") eqn:Ec; [done|]. by rewrite E.
Qed.

Lemma replace_space_trimmed s : trimmed s -> trimmed (Text.replace " " "_" s).
Proof.
  intros [Hhead Hr]. split; [|by apply rstrip_replace_space].
  destruct s as [|c r]; [done|]. rewrite replace_space_cons.
  by apply is_space_after_replace.
Qed.

Lemma replace_space_no_space s : has_char " " (Text.replace " " "_" s) = false.
Proof.
  induction s as [|c r IH]; [done|]. rewrite replace_space_cons. simpl.
  rewrite IH. destruct (Ascii.eqb c " ") eqn:E; [done | by rewrite E].
Qed.

Lemma replace_absent old new s :
  has_char old s = false -> Text.replace old new s = s.
Proof.
  induction s as [|c r IH]; [done|]. simpl.
  destruct (Ascii.eqb c old); [done|]. simpl. intros H. by rewrite IH.
Qed.

(** Label normalisation is idempotent, and a normalised label has no space
    in it and no white space at either end. *)
Theorem normalize_label_idempotent label :
  normalize_label (normalize_label label) = normalize_label label
  /\ has_char " " (normalize_label label) = false
  /\ Text.strip (normalize_label label) = normalize_label label.
Proof.
  unfold normalize_label.
  assert (Ht : trimmed (Text.replace " " "_" (Text.strip label)))
    by apply replace_space_trimmed, strip_trimmed.
  split_and!.
  - rewrite (trimmed_strip _ Ht).
    apply replace_absent, replace_space_no_space.
  - apply replace_space_no_space.
  - by apply trimmed_strip.
Qed.

(** Every column label of a loaded table is normalised. *)
Theorem loaded_labels_normalised file df' :
  load_data file = Ok df' ->
  Forall (fun label => normalize_label label = label
                       /\ has_char " " label = false) (columns df').*1.
Proof.
  intros (df & df1 & lr & -> & Hloop & Hlr & ->)%load_data_ok.
  apply for_each_coerce_ok in Hloop as (_ & Hlab & _ & _).
  simpl. rewrite assign_labels by (by eapply getitem_label).
  rewrite Hlab, normalize_columns_labels.
  apply Forall_fmap, Forall_forall. intros label _. simpl.
  unfold normalize_label. split; [|apply replace_space_no_space].
  rewrite (trimmed_strip _ (replace_space_trimmed _ (strip_trimmed label))).
  apply replace_absent, replace_space_no_space.
Qed.

(** ** Currency text and [float] *)

(** Text that begins with a dollar sign is no float literal: without the
    two [str.replace] calls [astype(float)] would raise on every price. *)
Theorem dollar_text_is_no_float r :
  Float.of_string (String "$" r) = None
  /\ exists msg, cell_to_float (Some (String "$" r)) = Raise (ValueError msg).
Proof.
  assert (H : Float.of_string (String "$" r) = None) by reflexivity.
  split; [done|]. unfold cell_to_float. rewrite H. eauto.
Qed.

(** ** The charts of a run *)

(** When the chart section runs to its end, it has drawn the nine figures
    of the script, each built from the filtered table, in the order of the
    source. *)
Theorem charts_in_order fd l a :
  charts fd = Script l (Done a) ->
  exists f1 f2 f3 f4 f5 f6 f7 f8 f9,
    fig_bar fd = Ok f1 /\ fig_pie_room_type fd = Ok f2
    /\ fig_pie_group fd = Ok f3 /\ fig_pie_instant fd = Ok f4
    /\ fig_avg_reviews fd = Ok f5 /\ fig_bubble fd = Ok f6
    /\ fig_scatter fd = Ok f7 /\ fig_box fd = Ok f8
    /\ fig_heatmap fd = Ok f9
    /\ filter (fun ev => is_chart ev = true) l
       = st_plotly_chart <$> [f1; f2; f3; f4; f5; f6; f7; f8; f9].
Proof.
  unfold charts. intros H. repeat split_done H.
  repeat match goal with
         | H : emit _ = Script _ (Done _) |- _ => apply emit_done in H as ->
         | H : lift _ = Script _ (Done _) |- _ => apply lift_done in H as [H ->]
         | H : plot _ = Script _ (Done _) |- _ =>
             let f := fresh "f" in
             let Hf := fresh "Hf" in
             apply plot_done in H as (f & Hf & ->)
         end.
  eexists _, _, _, _, _, _, _, _, _. split_and!; try eassumption. done.
Qed.

(** ** Aggregates after load and filter *)

Lemma coerce_numeric_numeric s s' :
  coerce_numeric s = Ok s' -> exists xs, numeric_values s' = Ok xs.
Proof.
  destruct s as [l|l|l|l]; simpl.
  - intros [= <-]. simpl. eauto.
  - intros [= <-]. simpl. eauto.
  - destruct (astype_float _); simpl; [|done]. intros [= <-]. simpl. eauto.
  - intros [= <-]. simpl. eauto.
Qed.

Lemma numeric_values_mask m s xs :
  numeric_values s = Ok xs ->
  exists xs', numeric_values (series_mask m s) = Ok xs'.
Proof. destruct s; simpl; try done; eauto. Qed.

Lemma select_ok df labels :
  (forall c, c ∈ labels -> exists s, getitem df c = Ok s) ->
  exists cols, select df labels = Ok cols.
Proof.
  unfold select. intros H. apply map_result_ok, Forall_forall. intros c Hc.
  destruct (H c Hc) as [s ->]. simpl. eauto.
Qed.

(** On a table that came through the loader and the filter stage every
    aggregate of the charts is defined: the group sizes, the room-type
    counts, the mean of [reviews_per_month] by group (the column is never
    text) and the selection of the six numeric columns for the heatmap. *)
Theorem aggregates_defined file df ui l e :
  load_data file = Ok df ->
  filter_stage df ui = Script l (Done e) ->
  (exists g, groupby_size2 (filtered_data e) "neighbourhood_group" "room_type"
             = Ok g)
  /\ (exists c, room_type_counts (filtered_data e) = Ok c)
  /\ (exists g, avg_reviews_by_group (filtered_data e) = Ok g)
  /\ (exists d, bubble_frame (filtered_data e) = Ok d)
  /\ (exists f, fig_heatmap (filtered_data e) = Ok f).
Proof.
  intros Hload (gs & rs & Hgs & Hrs & -> & _)%filter_stage_done.
  cbn zeta in *. cbn [filtered_data].
  set (m1 := isin gs (default (unique gs) (groups_widget ui))) in *.
  set (m2 := isin rs (default (unique rs) (room_types_widget ui))).
  apply load_data_ok in Hload as (df0 & df1 & lr & -> & Hloop & Hlr & ->).
  apply for_each_coerce_ok in Hloop as (_ & _ & _ & Hin).
  assert (Hnum : forall c, c ∈ numeric_cols ->
            exists s xs,
              getitem (frame_mask (frame_mask
                 (setitem df1 "last_review" (DatetimeS (to_datetime_coerce lr)))
                 m1) m2) c = Ok s
              /\ numeric_values s = Ok xs).
  { intros c Hc. destruct (Hin c Hc) as (s & s' & _ & Hco & Hget).
    rewrite !getitem_frame_mask, getitem_setitem_ne, Hget.
    2:{ intros <-. by apply last_review_not_numeric. }
    apply coerce_numeric_numeric in Hco as [xs Hxs].
    destruct (numeric_values_mask m1 _ _ Hxs) as [xs1 Hxs1].
    destruct (numeric_values_mask m2 _ _ Hxs1) as [xs2 Hxs2].
    by eexists _, _. }
  assert (Hg : getitem (frame_mask (frame_mask
                 (setitem df1 "last_review" (DatetimeS (to_datetime_coerce lr)))
                 m1) m2) "neighbourhood_group"
               = Ok (series_mask m2 (series_mask m1 gs))).
  { by rewrite !getitem_frame_mask, Hgs. }
  assert (Hr : getitem (frame_mask (frame_mask
                 (setitem df1 "last_review" (DatetimeS (to_datetime_coerce lr)))
                 m1) m2) "room_type" = Ok (series_mask m2 rs)).
  { by rewrite getitem_frame_mask, Hrs. }
  destruct (Hnum "reviews_per_month") as (rpm & xs & Hrpm & Hxs).
  { unfold numeric_cols. do 4 right. by left. }
  split_and!.
  - unfold groupby_size2. rewrite Hg, Hr. by eexists.
  - unfold room_type_counts. rewrite Hr. by eexists.
  - unfold avg_reviews_by_group, groupby_mean. rewrite Hg. cbn [mbind result_bind].
    rewrite Hrpm. cbn [mbind result_bind]. rewrite Hxs. by eexists.
  - unfold bubble_frame, dropna. rewrite Hrpm. by eexists.
  - unfold fig_heatmap.
    destruct (select_ok (frame_mask (frame_mask
                 (setitem df1 "last_review" (DatetimeS (to_datetime_coerce lr)))
                 m1) m2) numeric_cols) as [cols Hcols].
    { intros c Hc. destruct (Hnum c Hc) as (s & _ & Hs & _). eauto. }
    rewrite Hcols. by eexists.
Qed.

(** ** Aggregates only see the selected groups *)

Lemma elem_of_masked_isin s sel m v :
  v ∈ values (series_mask m (series_mask (isin s sel) s)) -> v ∈ sel.
Proof.
  clear to_datetime_coerce corr.
  rewrite !values_series_mask.
  intros (i & _ & Hv)%elem_of_bool_index.
  assert (Hin : v ∈ bool_index (isin s sel) (values s))
    by (by eapply list_elem_of_lookup_2).
  apply elem_of_bool_index in Hin as (j & (g & Hg & Hsel)%isin_lookup_true & Hj).
  congruence.
Qed.

Lemma value_counts_keys s k :
  k ∈ (value_counts s).*1 -> k ∈ values s /\ isna k = false.
Proof.
  clear to_datetime_coerce corr.
  unfold value_counts, present.
  rewrite sort_by_count_Permutation, counted_keys, elem_of_distinct,
    list_elem_of_filter. tauto.
Qed.

(** Every group that appears in an aggregate of the charts is one of the
    selected groups: the bars of the mean-reviews chart, the slices of the
    group pie and the bars of the grouped bar chart. *)
Theorem aggregates_within_selection df ui l e :
  filter_stage df ui = Script l (Done e) ->
  exists gs,
    getitem df "neighbourhood_group" = Ok gs
    /\ (forall g k, avg_reviews_by_group (filtered_data e) = Ok g ->
          k ∈ g.*1 -> k ∈ default (unique gs) (groups_widget ui))
    /\ (forall s k, getitem (filtered_data e) "neighbourhood_group" = Ok s ->
          k ∈ (value_counts s).*1 -> k ∈ default (unique gs) (groups_widget ui))
    /\ (forall g k,
          groupby_size2 (filtered_data e) "neighbourhood_group" "room_type"
          = Ok g ->
          k ∈ g.*1 -> k.1 ∈ default (unique gs) (groups_widget ui)).
Proof.
  clear to_datetime_coerce corr.
  intros (gs & rs & Hgs & Hrs & -> & _)%filter_stage_done.
  cbn zeta in *. cbn [filtered_data]. exists gs. split; [done|].
  set (G := default (unique gs) (groups_widget ui)) in *.
  set (m2 := isin rs (default (unique rs) (room_types_widget ui))).
  assert (Hg : getitem (frame_mask (frame_mask df (isin gs G)) m2)
                 "neighbourhood_group"
               = Ok (series_mask m2 (series_mask (isin gs G) gs))).
  { by rewrite !getitem_frame_mask, Hgs. }
  split_and!.
  - intros g k (sk & sv & xs & Hsk & _ & _ & ->)%groupby_mean_ok.
    rewrite Hg in Hsk. injection Hsk as <-.
    rewrite <- list_fmap_compose, list_elem_of_fmap.
    intros (k' & -> & [Hk _]%elem_of_group_keys). simpl.
    by eapply elem_of_masked_isin.
  - intros s k Hs. rewrite Hg in Hs. injection Hs as <-.
    intros [Hk _]%value_counts_keys. by eapply elem_of_masked_isin.
  - intros g k (sa & sb & Hsa & _ & ->)%groupby_size2_ok.
    rewrite Hg in Hsa. injection Hsa as <-.
    rewrite <- list_fmap_compose, list_elem_of_fmap.
    intros (k' & -> & Hk). simpl. unfold group_keys2, present_pairs in Hk.
    rewrite merge_sort_Permutation, elem_of_distinct, list_elem_of_filter in Hk.
    destruct Hk as [_ Hk]. destruct k' as [x y]. apply elem_of_zip_l in Hk.
    by eapply elem_of_masked_isin.
Qed.

End dashboard.

(** ** The theorems at the fixtures *)

Lemma load_listings :
  load_data Fixture.no_dates (Some Fixture.listings) = Ok Fixture.loaded.
Proof. vm_compute. reflexivity. Qed.

Lemma load_lowercase_name :
  load_data Fixture.no_dates (Some Fixture.lowercase_name)
  = Ok Fixture.loaded_lowercase_name.
Proof. vm_compute. reflexivity. Qed.

Lemma load_missing_room_type :
  load_data Fixture.no_dates (Some Fixture.missing_room_type)
  = Ok Fixture.loaded_missing_room_type.
Proof. vm_compute. reflexivity. Qed.

(** C2, amended, at the [price] column of the fixture: five amounts that
    are float64 numbers, each loaded as exactly its amount. *)
Lemma currency_coercion_witness :
  Forall (from_option has_digit True) Fixture.price_cells
  /\ Forall (from_option (fun a => binary64 (currency_value a)) True)
       Fixture.price_cells
  /\ load_data Fixture.no_dates (Some Fixture.listings) = Ok Fixture.loaded
  /\ "price" ∈ numeric_cols
  /\ getitem (normalize_columns Fixture.listings) "price"
     = Ok (ObjectS (fmap (M := option) currency_text <$> Fixture.price_cells))
  /\ (exists fs,
        getitem Fixture.loaded "price" = Ok (FloatS fs)
        /\ Forall2 stands_for Fixture.price_cells fs
        /\ Forall2
             (fun cell f =>
                from_option (fun a => binary64 (currency_value a)) True cell
                -> exactly cell f)
             Fixture.price_cells fs)
  /\ for_each coerce_column Fixture.loaded numeric_cols = Ok Fixture.loaded.
Proof.
  assert (Hcol : "price" ∈ numeric_cols) by (by left).
  assert (Hcells : Forall (from_option has_digit True) Fixture.price_cells).
  { repeat constructor; discriminate. }
  assert (Hb : Forall (from_option (fun a => binary64 (currency_value a)) True)
                 Fixture.price_cells).
  { unfold Fixture.price_cells.
    constructor; [exists 2000, 0; by split_and!|].
    constructor; [exists 2401, (-1); by split_and!|].
    constructor; [exists 150, 0; by split_and!|].
    constructor; [exists 80, 0; by split_and!|].
    constructor; [exists 3000, 0; by split_and!|].
    constructor. }
  destruct (currency_coercion_rounds_idempotent Fixture.no_dates)
    as [Hcolumn Hloader].
  destruct (Hcolumn Fixture.price_cells Hcells) as (fs & Hfs & Hrel & Hexact).
  destruct (Hloader _ _ "price" load_listings Hcol)
    as (raw & s & s' & Hraw & Hs & Hco & Hget & _ & _ & Hloop).
  injection Hraw as <-.
  assert (Hs' : getitem (normalize_columns Fixture.listings) "price"
                = Ok (ObjectS (fmap (M := option) currency_text
                                 <$> Fixture.price_cells))) by reflexivity.
  rewrite Hs' in Hs. injection Hs as <-.
  change (coerce_numeric (ObjectS (fmap (M := option) currency_text
                                     <$> Fixture.price_cells)) = Ok s') in Hco.
  rewrite Hfs in Hco. injection Hco as <-.
  split; [exact Hcells|]. split; [exact Hb|].
  split; [exact load_listings|]. split; [exact Hcol|]. split; [exact Hs'|].
  split; [|exact Hloop].
  exists fs. split; [exact Hget|]. split; [exact Hrel | exact Hexact].
Defined.

(** C2 as stated fails: a price of sixteen digits loads as the float64
    number beside it, one dollar less, and ten cents load as the float64
    number nearest to a tenth, which is not a tenth. *)
Lemma currency_rounding_counterexample :
  currency_text Fixture.big_amount = "$9,007,199,254,740,993"
  /\ (currency_value Fixture.big_amount == inject_Z 9007199254740993)%Q
  /\ (exists data,
        load_data Fixture.no_dates (Some Fixture.big_price) = Ok data
        /\ getitem data "price"
           = Ok (FloatS [Float.of_Z 2000; Fin (Q2Qc (2401 # 2)); Float.of_Z 150;
                         Float.of_Z 9007199254740992; Float.of_Z 3000]))
  /\ ~ exactly (Some Fixture.big_amount) (Float.of_Z 9007199254740992)
  /\ currency_text Fixture.dime = "$0.10"
  /\ coerce_numeric (ObjectS [Some "$0.10"])
     = Ok (FloatS [Fin (Q2Qc (3602879701896397 # 36028797018963968))])
  /\ ~ exactly (Some Fixture.dime)
         (Fin (Q2Qc (3602879701896397 # 36028797018963968))).
Proof.
  split; [reflexivity|]. split; [reflexivity|].
  split; [eexists; split; vm_compute; reflexivity|].
  split; [intros (q & [= <-] & Hq); vm_compute in Hq; discriminate Hq|].
  split; [reflexivity|]. split; [vm_compute; reflexivity|].
  intros (q & [= <-] & Hq). vm_compute in Hq. discriminate Hq.
Qed.

(** A column of two prices and a blank, evaluated: 2000, 1200.5 and NaN. *)
Example price_2000 :
  coerce_numeric (ObjectS [Some "$2,000"; Some "$1,200.50"; None])
  = Ok (FloatS [Float.of_Z 2000; Fin (Q2Qc (2401 # 2)); NaN]).
Proof. vm_compute. reflexivity. Qed.

(** C3 at the fixture: Manhattan alone against both groups. *)
Lemma group_filter_monotone_witness :
  (forall v, v ∈ [VStr "Manhattan"] -> v ∈ [VStr "Manhattan"; VStr "Brooklyn"])
  /\ exists fa fb,
       filter_groups Fixture.loaded [VStr "Manhattan"] = Ok fa
       /\ filter_groups Fixture.loaded [VStr "Manhattan"; VStr "Brooklyn"] = Ok fb
       /\ (nrows fa ≤ nrows fb)%nat.
Proof.
  assert (H : forall v, v ∈ [VStr "Manhattan"]
                        -> v ∈ [VStr "Manhattan"; VStr "Brooklyn"]).
  { intros v Hv. apply list_elem_of_singleton in Hv. subst. by left. }
  split; [exact H|].
  eexists _, _. split; [reflexivity|]. split; [reflexivity|].
  exact (proj1 (group_filter_monotone Fixture.loaded _ _ _ _ H eq_refl eq_refl)).
Defined.

(** C7 at the fixture with Manhattan selected: three of the five rows. *)
Lemma filter_stage_subset_witness :
  exists l e,
    filter_stage Fixture.loaded Fixture.only_manhattan = Script l (Done e)
    /\ rows (filtered_data e) `sublist_of` rows Fixture.loaded
    /\ data e = Fixture.loaded
    /\ nrows (filtered_data e) = 3%nat.
Proof.
  eexists _, _. split; [reflexivity|].
  destruct (filter_stage_subset_in_order Fixture.loaded Fixture.only_manhattan
              _ _ eq_refl) as (Hsub & Hdata & _).
  split; [exact Hsub|]. split; [exact Hdata | reflexivity].
Defined.

(** C4 at the fixture with Manhattan selected. *)
Lemma room_type_options_witness :
  exists l e,
    filter_stage Fixture.loaded Fixture.only_manhattan = Script l (Done e)
    /\ exists opts,
         l !! 2%nat = Some (st_sidebar_multiselect "Select Room Type(s)" opts opts)
         /\ NoDup opts
         /\ VStr "Private room" ∈ opts.
Proof.
  eexists _, _. split; [reflexivity|].
  destruct (room_type_options_of_filtered Fixture.loaded Fixture.only_manhattan
              _ _ eq_refl) as (gs & rs & opts & Hgs & Hrs & Hl & Hnd & Hchar & _).
  exists opts. split; [exact Hl|]. split; [exact Hnd|].
  injection Hgs as <-. injection Hrs as <-.
  apply Hchar. exists 1%nat, (VStr "Manhattan").
  split; [reflexivity|]. split; [by left | reflexivity].
Defined.

(** C5 at the fixture with no group selected. *)
Lemma empty_selection_witness :
  load_data Fixture.no_dates (Some Fixture.listings) = Ok Fixture.loaded
  /\ (exists l e,
        filter_stage Fixture.loaded Fixture.no_groups = Script l (Done e)
        /\ nrows (filtered_data e) = 0%nat)
  /\ ending (dashboard Fixture.no_dates Fixture.no_corr
               (Some Fixture.listings) Fixture.no_groups) = Stopped
  /\ last (log (dashboard Fixture.no_dates Fixture.no_corr
                  (Some Fixture.listings) Fixture.no_groups))
     = Some (st_warning empty_warning)
  /\ Forall (fun ev => is_chart ev = false)
       (log (dashboard Fixture.no_dates Fixture.no_corr
               (Some Fixture.listings) Fixture.no_groups)).
Proof.
  destruct (empty_selection_halts Fixture.no_dates Fixture.no_corr
              (Some Fixture.listings) Fixture.no_groups Fixture.loaded
              _ _ load_listings eq_refl) as [Hrows Hhalt].
  destruct (Hrows (or_introl eq_refl)) as [Hzero Hempty].
  split; [exact load_listings|].
  split; [eexists _, _; split; [reflexivity | exact Hzero]|].
  exact (Hhalt Hempty).
Defined.

(** C8 at the fixture: no Brooklyn listing has a [reviews_per_month], so
    the bubble scatter plots the three Manhattan listings and no Brooklyn
    point, while the bar chart has a Brooklyn bar, of height NaN. *)
Lemma bubble_mean_witness :
  exists bubble bar,
    fig_bubble Fixture.loaded = Ok bubble
    /\ fig_avg_reviews Fixture.loaded = Ok bar
    /\ filter (fun c => c.1 = "neighbourhood_group") (figure_data bubble)
       = [("neighbourhood_group",
           [VStr "Manhattan"; VStr "Manhattan"; VStr "Manhattan"])]
    /\ (exists sizes,
          filter (fun c => c.1 = "reviews_per_month") (figure_data bubble)
          = [("reviews_per_month", sizes)]
          /\ Forall (fun v => isna v = false) sizes)
    /\ (exists bars : list (value * float),
          figure_data bar
          = [("neighbourhood_group", bars.*1);
             ("reviews_per_month", VNum <$> bars.*2)]
          /\ VStr "Brooklyn" ∈ bars.*1
          /\ bars !! 0%nat = Some (VStr "Brooklyn", NaN)).
Proof.
  eexists _, _. split; [reflexivity|]. split; [reflexivity|].
  destruct (bubble_drops_missing_mean_keeps Fixture.loaded) as [Hb Hm].
  destruct (Hb _ eq_refl) as (rpm & _ & _ & sizes & Hsizes & _ & Hpresent).
  destruct (Hm _ eq_refl)
    as (gs & rpm' & xs & bars & Hgs & _ & _ & Hbars & _ & Hkeys & _).
  injection Hgs as <-.
  split; [reflexivity|].
  split; [exists sizes; split; [exact Hsizes | exact Hpresent]|].
  exists bars. split; [exact Hbars|].
  split; [apply Hkeys; split; [do 2 right; left | reflexivity]|].
  clear Hkeys Hsizes Hpresent.
  injection Hbars as Hk Hv.
  destruct bars as [|[k m] bars]; [discriminate Hk|].
  injection Hk as <- _. injection Hv as Hm0 _.
  simpl. f_equal. f_equal.
  destruct m; try discriminate Hm0. reflexivity.
Defined.

(** C9 as stated fails: on the table whose title column is labelled
    [name] both scatter builders raise, and where they succeed the hover
    column is not [name]. *)
Lemma hover_name_counterexample :
  fig_scatter Fixture.loaded_lowercase_name
  = Raise (ValueError "Value of 'hover_name' is not the name of a column in 'data_frame': NAME")
  /\ fig_bubble Fixture.loaded_lowercase_name
     = Raise (ValueError "Value of 'hover_name' is not the name of a column in 'data_frame': NAME")
  /\ ~ (forall fd f, fig_scatter fd = Ok f \/ fig_bubble fd = Ok f ->
                     hover_name_of f = Some "name").
Proof.
  split; [reflexivity|]. split; [reflexivity|].
  intros H.
  specialize (H Fixture.loaded _ (or_introl eq_refl)). discriminate H.
Qed.

(** C9, amended, at the fixture. *)
Lemma scatter_hover_witness :
  exists f,
    fig_scatter Fixture.loaded = Ok f
    /\ hover_name_of f = Some "NAME"
    /\ (exists cells,
          filter (fun c => c.1 = "NAME") (figure_data f) = [("NAME", cells)])
    /\ exists s, getitem Fixture.loaded "NAME" = Ok s.
Proof.
  eexists. split; [reflexivity|].
  exact (scatter_hover_is_NAME Fixture.loaded _ (or_intror eq_refl)).
Defined.

(** C10 as stated fails: with one room type missing and the filters
    untouched, the filtered table has five rows and both aggregates count
    four. *)
Lemma counts_counterexample :
  exists l e c g,
    filter_stage Fixture.loaded_missing_room_type Fixture.untouched
    = Script l (Done e)
    /\ empty (filtered_data e) = false
    /\ nrows (filtered_data e) = 5%nat
    /\ room_type_counts (filtered_data e) = Ok c
    /\ sum_list (c.*2) = 4%nat
    /\ groupby_size2 (filtered_data e) "neighbourhood_group" "room_type" = Ok g
    /\ sum_list (g.*2) = 4%nat.
Proof.
  eexists _, _, _, _. split; [reflexivity|].
  split; [reflexivity|]. split; [reflexivity|]. split; [reflexivity|].
  split; [reflexivity|]. split; [reflexivity|]. reflexivity.
Qed.

(** The loaded fixture has five cells in every column. *)
Lemma fixture_well_formed : well_formed Fixture.loaded.
Proof. repeat constructor. Defined.

(** C10, amended, at the fixture. *)
Lemma counts_sum_witness :
  exists g c,
    groupby_size2 Fixture.loaded "neighbourhood_group" "room_type" = Ok g
    /\ room_type_counts Fixture.loaded = Ok c
    /\ sum_list (g.*2) = nrows Fixture.loaded
    /\ sum_list (c.*2) = nrows Fixture.loaded
    /\ sum_Qc (pie_shares c) = Q2Qc 1.
Proof.
  eexists _, _. split; [reflexivity|]. split; [reflexivity|].
  destruct (counts_sum_to_present_rows Fixture.loaded) as [Hg Hc].
  destruct (Hg _ eq_refl) as (gs & rs & Hgs & Hrs & _ & Hall).
  destruct (Hc _ eq_refl) as (rs' & Hrs' & _ & Hall' & Hshares).
  injection Hgs as <-. injection Hrs as <-. injection Hrs' as <-.
  split; [apply Hall; [exact fixture_well_formed | repeat constructor
                                                 | repeat constructor]|].
  split; [apply Hall'; [exact fixture_well_formed | repeat constructor]|].
  apply Hshares. vm_compute. lia.
Defined.

(** ** The further theorems at the fixtures *)

(** The fixture meets the loader's conditions, so it loads. *)
Lemma load_succeeds_witness :
  exists df', load_data Fixture.no_dates (Some Fixture.listings) = Ok df'.
Proof.
  apply (proj2 (load_succeeds_iff Fixture.no_dates Fixture.listings)).
  split.
  - intros c Hc. unfold numeric_cols in Hc.
    repeat (apply elem_of_cons in Hc as [->|Hc];
            [eexists; split; [reflexivity | repeat constructor; vm_compute; eauto]|]).
    by apply elem_of_nil in Hc.
  - eexists. reflexivity.
Defined.

Lemma load_keeps_shape_witness :
  load_data Fixture.no_dates (Some Fixture.listings) = Ok Fixture.loaded
  /\ index Fixture.loaded = index Fixture.listings
  /\ (columns Fixture.loaded).*1
     = normalize_label <$> (columns Fixture.listings).*1.
Proof.
  split; [exact load_listings|].
  destruct (load_keeps_shape Fixture.no_dates _ _ load_listings)
    as (df & Hfile & Hidx & Hlab).
  injection Hfile as <-. split; [exact Hidx | exact Hlab].
Defined.


(** The dirty price: the run is aborted by the ValueError, unreported. *)
Lemma unreported_failure_witness :
  dashboard Fixture.no_dates Fixture.no_corr (Some Fixture.bad_price)
    Fixture.untouched
  = Script [st_set_page_config "Airbnb Listings Dashboard" "wide"]
           (Failed (ValueError "could not convert string to float: abc")).
Proof.
  refine (proj2 (proj2 (only_missing_file_is_reported Fixture.no_dates
            Fixture.no_corr (Some Fixture.bad_price) Fixture.untouched))
            _ _ _); [reflexivity | discriminate].
Defined.

Lemma completed_run_witness :
  exists l e,
    dashboard Fixture.no_dates Fixture.no_corr (Some Fixture.listings)
      Fixture.untouched = Script l (Done e)
    /\ load_data Fixture.no_dates (Some Fixture.listings) = Ok (data e)
    /\ empty (filtered_data e) = false
    /\ length (filter (fun ev => is_chart ev = true) l) = 9%nat
    /\ length (filter (fun ev => is_multiselect ev = true) l) = 2%nat.
Proof.
  eexists _, _. split; [vm_compute; reflexivity|].
  destruct (completed_run Fixture.no_dates Fixture.no_corr
              (Some Fixture.listings) Fixture.untouched _ _ eq_refl)
    as (Hload & _ & Hempty & Hcharts & Hwidgets & _).
  split; [exact Hload|]. split; [exact Hempty|].
  split; [exact Hcharts | exact Hwidgets].
Defined.

Lemma halted_run_witness :
  ending (dashboard Fixture.no_dates Fixture.no_corr (Some Fixture.listings)
            Fixture.no_groups) = Stopped
  /\ Forall (fun ev => is_chart ev = false)
       (log (dashboard Fixture.no_dates Fixture.no_corr
               (Some Fixture.listings) Fixture.no_groups)).
Proof.
  split; [reflexivity|].
  exact (proj1 (halted_run Fixture.no_dates Fixture.no_corr
                  (Some Fixture.listings) Fixture.no_groups eq_refl)).
Defined.

Lemma charts_in_order_witness :
  exists l f1 f7,
    charts Fixture.no_corr Fixture.loaded = Script l (Done ())
    /\ fig_bar Fixture.loaded = Ok f1
    /\ fig_scatter Fixture.loaded = Ok f7
    /\ filter (fun ev => is_chart ev = true) l !! 0%nat = Some (st_plotly_chart f1)
    /\ filter (fun ev => is_chart ev = true) l !! 6%nat = Some (st_plotly_chart f7).
Proof.
  destruct (charts_in_order Fixture.no_corr Fixture.loaded _ _ eq_refl)
    as (f1 & f2 & f3 & f4 & f5 & f6 & f7 & f8 & f9 & H1 & _ & _ & _ & _ & _
        & H7 & _ & _ & Hl).
  eexists _, f1, f7. split; [reflexivity|].
  split; [exact H1|]. split; [exact H7|]. rewrite Hl. split; reflexivity.
Defined.

Lemma coercion_loop_witness :
  for_each coerce_column (normalize_columns Fixture.listings) numeric_cols
  = Ok (setitem Fixture.loaded "last_review"
          (ObjectS [Some "2021-05-01"; None; Some "2020-01-15"; None;
                    Some "2022-03-09"]))
  /\ for_each coerce_column
       (setitem Fixture.loaded "last_review"
          (ObjectS [Some "2021-05-01"; None; Some "2020-01-15"; None;
                    Some "2022-03-09"])) numeric_cols
     = Ok (setitem Fixture.loaded "last_review"
             (ObjectS [Some "2021-05-01"; None; Some "2020-01-15"; None;
                       Some "2022-03-09"])).
Proof.
  assert (H : for_each coerce_column (normalize_columns Fixture.listings)
                numeric_cols
              = Ok (setitem Fixture.loaded "last_review"
                      (ObjectS [Some "2021-05-01"; None; Some "2020-01-15";
                                None; Some "2022-03-09"])))
    by (vm_compute; reflexivity).
  split; [exact H | exact (coercion_loop_idempotent _ _ H)].
Defined.

Lemma listings_well_formed : well_formed Fixture.listings.
Proof. repeat constructor. Defined.

Lemma no_dates_length s :
  length (Fixture.no_dates s) = length (values s).
Proof. unfold Fixture.no_dates. apply length_fmap. Defined.

Lemma pipeline_well_formed_witness :
  well_formed Fixture.loaded
  /\ exists l e,
       filter_stage Fixture.loaded Fixture.only_manhattan = Script l (Done e)
       /\ well_formed (filtered_data e).
Proof.
  destruct (pipeline_keeps_well_formed Fixture.no_dates Fixture.listings
              Fixture.loaded no_dates_length listings_well_formed
              load_listings) as [Hwf Hfilter].
  split; [exact Hwf|]. eexists _, _. split; [reflexivity|].
  exact (Hfilter Fixture.only_manhattan _ _ eq_refl).
Defined.

Lemma untouched_filters_witness :
  exists l e,
    filter_stage Fixture.loaded Fixture.untouched = Script l (Done e)
    /\ filtered_data e = Fixture.loaded.
Proof.
  eexists _, _. split; [reflexivity|].
  exact (untouched_filters_keep_all Fixture.loaded _ _ fixture_well_formed
           eq_refl).
Defined.

Lemma filters_commute_witness :
  exists fd,
    (filter_groups Fixture.loaded [VStr "Manhattan"]
       ≫= fun d => filter_room_types d [VStr "Private room"]) = Ok fd
    /\ (filter_room_types Fixture.loaded [VStr "Private room"]
          ≫= fun d => filter_groups d [VStr "Manhattan"]) = Ok fd
    /\ index fd = [1%nat].
Proof.
  eexists. split; [reflexivity|]. split; [|reflexivity].
  exact (proj1 (filters_commute Fixture.loaded [VStr "Manhattan"]
                  [VStr "Private room"] _) eq_refl).
Defined.

Lemma filter_conjunction_witness :
  exists l e,
    filter_stage Fixture.loaded Fixture.only_manhattan = Script l (Done e)
    /\ rows (filtered_data e)
       = bool_index [true; true; false; false; true] (rows Fixture.loaded).
Proof.
  eexists _, _. split; [reflexivity|].
  destruct (filter_stage_is_conjunction Fixture.loaded Fixture.only_manhattan
              _ _ eq_refl) as (gs & rs & G & R & Hgs & Hrs & _ & Hrows & -> & ->).
  injection Hgs as <-. injection Hrs as <-. exact Hrows.
Defined.

Lemma value_counts_witness :
  (VStr "Entire home/apt", 3%nat)
  ∈ value_counts (ObjectS [Some "Entire home/apt"; Some "Private room";
                           Some "Entire home/apt"; Some "Shared room";
                           Some "Entire home/apt"]).
Proof.
  apply (proj1 (proj2 (value_counts_spec _))).
  split; [by left|]. split; reflexivity.
Defined.

Lemma group_sizes_witness :
  exists g,
    groupby_size2 Fixture.loaded "neighbourhood_group" "room_type" = Ok g
    /\ NoDup g.*1
    /\ Forall (fun r => (0 < r.2)%nat) g
    /\ Sorted pair_le g.*1.
Proof.
  eexists. split; [reflexivity|].
  destruct (group_sizes_spec Fixture.loaded "neighbourhood_group" "room_type"
              _ eq_refl)
    as (sa & sb & _ & _ & Hnd & _ & Hpos & Hsorted).
  split; [exact Hnd|]. split; [exact Hpos | exact Hsorted].
Defined.

Example normalize_number_of_reviews :
  normalize_label "  number of reviews " = "number_of_reviews".
Proof. reflexivity. Qed.

Lemma loaded_labels_witness :
  Forall (fun label => normalize_label label = label
                       /\ has_char " " label = false)
    (columns Fixture.loaded).*1.
Proof.
  exact (loaded_labels_normalised Fixture.no_dates _ _ load_listings).
Defined.

Lemma aggregates_defined_witness :
  exists l e,
    filter_stage Fixture.loaded Fixture.only_manhattan = Script l (Done e)
    /\ (exists g, avg_reviews_by_group (filtered_data e) = Ok g)
    /\ (exists f, fig_heatmap Fixture.no_corr (filtered_data e) = Ok f).
Proof.
  eexists _, _. split; [reflexivity|].
  destruct (aggregates_defined Fixture.no_dates Fixture.no_corr
              (Some Fixture.listings) Fixture.loaded Fixture.only_manhattan
              _ _ load_listings eq_refl) as (_ & _ & Hmean & _ & Hheat).
  split; [exact Hmean | exact Hheat].
Defined.

(** With Manhattan alone selected, the mean-reviews chart has no Brooklyn
    bar. *)
Lemma aggregates_within_selection_witness :
  exists l e g,
    filter_stage Fixture.loaded Fixture.only_manhattan = Script l (Done e)
    /\ avg_reviews_by_group (filtered_data e) = Ok g
    /\ forall k, k ∈ g.*1 -> k = VStr "Manhattan".
Proof.
  eexists _, _, _. split; [reflexivity|]. split; [reflexivity|].
  destruct (aggregates_within_selection Fixture.loaded Fixture.only_manhattan
              _ _ eq_refl) as (gs & _ & Hmean & _).
  intros k Hk. apply (Hmean _ k eq_refl) in Hk.
  by apply list_elem_of_singleton in Hk.
Defined.
